(** * Grid: a shallow embedding of the geometry core of [Grid.tsx]

    The development follows [packages/grid/src/Grid.tsx].  Numbers are
    modelled as [Z] (indices, counts and pixel quantities alike), an optional
    field [x?: number] as [option Z], the instance cache and the React state
    as records that are threaded explicitly through a small state monad.

    The module [./helpers] (the size store, the offset/index resolvers, the
    alignment planner, the timer primitives) and [./types] are imported by
    [Grid.tsx] but are separate files.  The component is therefore embedded
    over a record [Helpers] of the imported functions; a concrete instance
    written from the specification is given in [SpecHelpers] and is used to
    run the component on concrete inputs. *)

From Stdlib Require Import ZArith List Bool Lia.
From stdpp Require Import base option list gmap.

Local Open Scope Z_scope.

(** ** Data model *)

(** Modelled from the spec: the enumeration [Direction] of [./types], with
    the four members [Grid.tsx] uses ([Up] and [Down] for the row axis,
    [Left] and [Right] for the column axis). *)
Module Direction.
Inductive t := Up | Down | Left | Right.

Definition eqb (a b : t) : bool :=
  match a, b with
  | Up, Up | Down, Down | Left, Left | Right, Right => true
  | _, _ => false
  end.
End Direction.

(** Modelled from the spec: the enumeration [Align] of [./helpers], the
    alignment modes of the scroll planner ([end] is written [end_]). *)
Module Align.
Inductive t := start | end_ | center | smart.
End Align.

(** [AreaProps]: inclusive index bounds of a rectangular block of cells. *)
Module Area.
Record t := mk { top : Z; bottom : Z; left : Z; right : Z }.

#[global] Instance eq_dec : EqDecision t.
Proof. solve_decision. Defined.
End Area.
Abbreviation AreaProps := Area.t.

Record CellInterface := { rowIndex : Z; columnIndex : Z }.

#[global] Instance CellInterface_eq_dec : EqDecision CellInterface.
Proof. solve_decision. Defined.

(** [OptionalCellInterface]: [{ rowIndex?: number; columnIndex?: number }]. *)
Record OptionalCellInterface :=
  { opt_rowIndex : option Z; opt_columnIndex : option Z }.

Record ViewPortProps :=
  { rowStartIndex : Z; rowStopIndex : Z;
    columnStartIndex : Z; columnStopIndex : Z }.

Record CellMetaData := { offset : Z; size : Z }.

Record InstanceInterface :=
  { columnMetadataMap : gmap Z CellMetaData;
    rowMetadataMap : gmap Z CellMetaData;
    lastMeasuredColumnIndex : Z;
    lastMeasuredRowIndex : Z;
    estimatedRowHeight : Z;
    estimatedColumnWidth : Z;
    recalcColumnIndices : list Z;
    recalcRowIndices : list Z }.

Record ScrollState :=
  { scrollTop : Z;
    scrollLeft : Z;
    isScrolling : bool;
    verticalScrollDirection : Direction.t;
    horizontalScrollDirection : Direction.t }.

(** [OptionalScrollCoords]: [{ scrollTop?: number; scrollLeft?: number }]. *)
Record OptionalScrollCoords :=
  { opt_scrollTop : option Z; opt_scrollLeft : option Z }.

Record CellRangeArea :=
  { area_rowIndex : Z; area_columnIndex : Z; toColumnIndex : Z }.

(** The props of the component that the geometry core reads, after the
    defaults of the destructuring at the top of [Grid] have been applied. *)
Record GridProps :=
  { containerWidth : Z;
    containerHeight : Z;
    rowHeight : Z -> Z;
    columnWidth : Z -> Z;
    rowCount : Z;
    columnCount : Z;
    scrollbarSize : Z;
    showScrollbar : bool;
    frozenRows : Z;
    frozenColumns : Z;
    mergedCells : list AreaProps;
    cellAreas : list CellRangeArea;
    enableCellOverlay : bool;
    overscanCount : Z;
    isHiddenRow : option (Z -> bool);
    scale : Z }.

(** Modelled from the spec: [TimeoutID] of [./helpers], the handle of a
    scheduled callback. *)
Definition TimeoutID := nat.

(** The state owned by one grid instance, together with the two pieces of
    the environment it schedules work on.

    - [instanceProps], [scrollState], [resetIsScrollingTimeoutID] and
      [renderTick] are the [useRef] / [useState] / [useReducer] cells;
    - [verticalScrollRef] and [horizontalScrollRef] hold the scroll position
      of the two scrollbar elements ([None] while the ref is [null]);
    - [animationFrames] is the queue of [window.requestAnimationFrame]
      callbacks registered by [scrollToItem], each one a pending
      [scrollTo(coords)];
    - [now], [timers] and [nextTimeoutID] are the clock and the table of
      pending timeouts behind [requestTimeout] / [cancelTimeout]. *)
Record GridState :=
  { instanceProps : InstanceInterface;
    scrollState : ScrollState;
    verticalScrollRef : option Z;
    horizontalScrollRef : option Z;
    resetIsScrollingTimeoutID : option TimeoutID;
    renderTick : Z;
    animationFrames : list OptionalScrollCoords;
    now : Z;
    timers : list (TimeoutID * Z);
    nextTimeoutID : TimeoutID }.

(** *** Field updates *)

Definition set_instanceProps (ip : InstanceInterface) (g : GridState) :=
  {| instanceProps := ip; scrollState := scrollState g;
     verticalScrollRef := verticalScrollRef g;
     horizontalScrollRef := horizontalScrollRef g;
     resetIsScrollingTimeoutID := resetIsScrollingTimeoutID g;
     renderTick := renderTick g; animationFrames := animationFrames g;
     now := now g; timers := timers g; nextTimeoutID := nextTimeoutID g |}.

Definition set_scrollState (st : ScrollState) (g : GridState) :=
  {| instanceProps := instanceProps g; scrollState := st;
     verticalScrollRef := verticalScrollRef g;
     horizontalScrollRef := horizontalScrollRef g;
     resetIsScrollingTimeoutID := resetIsScrollingTimeoutID g;
     renderTick := renderTick g; animationFrames := animationFrames g;
     now := now g; timers := timers g; nextTimeoutID := nextTimeoutID g |}.

Definition set_verticalScrollRef (v : option Z) (g : GridState) :=
  {| instanceProps := instanceProps g; scrollState := scrollState g;
     verticalScrollRef := v;
     horizontalScrollRef := horizontalScrollRef g;
     resetIsScrollingTimeoutID := resetIsScrollingTimeoutID g;
     renderTick := renderTick g; animationFrames := animationFrames g;
     now := now g; timers := timers g; nextTimeoutID := nextTimeoutID g |}.

Definition set_horizontalScrollRef (v : option Z) (g : GridState) :=
  {| instanceProps := instanceProps g; scrollState := scrollState g;
     verticalScrollRef := verticalScrollRef g;
     horizontalScrollRef := v;
     resetIsScrollingTimeoutID := resetIsScrollingTimeoutID g;
     renderTick := renderTick g; animationFrames := animationFrames g;
     now := now g; timers := timers g; nextTimeoutID := nextTimeoutID g |}.

Definition set_resetIsScrollingTimeoutID (v : option TimeoutID) (g : GridState) :=
  {| instanceProps := instanceProps g; scrollState := scrollState g;
     verticalScrollRef := verticalScrollRef g;
     horizontalScrollRef := horizontalScrollRef g;
     resetIsScrollingTimeoutID := v;
     renderTick := renderTick g; animationFrames := animationFrames g;
     now := now g; timers := timers g; nextTimeoutID := nextTimeoutID g |}.

Definition set_renderTick (v : Z) (g : GridState) :=
  {| instanceProps := instanceProps g; scrollState := scrollState g;
     verticalScrollRef := verticalScrollRef g;
     horizontalScrollRef := horizontalScrollRef g;
     resetIsScrollingTimeoutID := resetIsScrollingTimeoutID g;
     renderTick := v; animationFrames := animationFrames g;
     now := now g; timers := timers g; nextTimeoutID := nextTimeoutID g |}.

Definition set_animationFrames (v : list OptionalScrollCoords) (g : GridState) :=
  {| instanceProps := instanceProps g; scrollState := scrollState g;
     verticalScrollRef := verticalScrollRef g;
     horizontalScrollRef := horizontalScrollRef g;
     resetIsScrollingTimeoutID := resetIsScrollingTimeoutID g;
     renderTick := renderTick g; animationFrames := v;
     now := now g; timers := timers g; nextTimeoutID := nextTimeoutID g |}.

Definition set_clock (t : Z) (ts : list (TimeoutID * Z)) (n : TimeoutID)
    (g : GridState) :=
  {| instanceProps := instanceProps g; scrollState := scrollState g;
     verticalScrollRef := verticalScrollRef g;
     horizontalScrollRef := horizontalScrollRef g;
     resetIsScrollingTimeoutID := resetIsScrollingTimeoutID g;
     renderTick := renderTick g; animationFrames := animationFrames g;
     now := t; timers := ts; nextTimeoutID := n |}.

Definition set_recalcColumnIndices (l : list Z) (ip : InstanceInterface) :=
  {| columnMetadataMap := columnMetadataMap ip;
     rowMetadataMap := rowMetadataMap ip;
     lastMeasuredColumnIndex := lastMeasuredColumnIndex ip;
     lastMeasuredRowIndex := lastMeasuredRowIndex ip;
     estimatedRowHeight := estimatedRowHeight ip;
     estimatedColumnWidth := estimatedColumnWidth ip;
     recalcColumnIndices := l;
     recalcRowIndices := recalcRowIndices ip |}.

Definition set_recalcRowIndices (l : list Z) (ip : InstanceInterface) :=
  {| columnMetadataMap := columnMetadataMap ip;
     rowMetadataMap := rowMetadataMap ip;
     lastMeasuredColumnIndex := lastMeasuredColumnIndex ip;
     lastMeasuredRowIndex := lastMeasuredRowIndex ip;
     estimatedRowHeight := estimatedRowHeight ip;
     estimatedColumnWidth := estimatedColumnWidth ip;
     recalcColumnIndices := recalcColumnIndices ip;
     recalcRowIndices := l |}.

Definition set_lastMeasuredColumnIndex (i : Z) (ip : InstanceInterface) :=
  {| columnMetadataMap := columnMetadataMap ip;
     rowMetadataMap := rowMetadataMap ip;
     lastMeasuredColumnIndex := i;
     lastMeasuredRowIndex := lastMeasuredRowIndex ip;
     estimatedRowHeight := estimatedRowHeight ip;
     estimatedColumnWidth := estimatedColumnWidth ip;
     recalcColumnIndices := recalcColumnIndices ip;
     recalcRowIndices := recalcRowIndices ip |}.

Definition set_lastMeasuredRowIndex (i : Z) (ip : InstanceInterface) :=
  {| columnMetadataMap := columnMetadataMap ip;
     rowMetadataMap := rowMetadataMap ip;
     lastMeasuredColumnIndex := lastMeasuredColumnIndex ip;
     lastMeasuredRowIndex := i;
     estimatedRowHeight := estimatedRowHeight ip;
     estimatedColumnWidth := estimatedColumnWidth ip;
     recalcColumnIndices := recalcColumnIndices ip;
     recalcRowIndices := recalcRowIndices ip |}.

Definition set_rowMetadata (m : gmap Z CellMetaData) (i : Z)
    (ip : InstanceInterface) :=
  {| columnMetadataMap := columnMetadataMap ip;
     rowMetadataMap := m;
     lastMeasuredColumnIndex := lastMeasuredColumnIndex ip;
     lastMeasuredRowIndex := i;
     estimatedRowHeight := estimatedRowHeight ip;
     estimatedColumnWidth := estimatedColumnWidth ip;
     recalcColumnIndices := recalcColumnIndices ip;
     recalcRowIndices := recalcRowIndices ip |}.

Definition set_columnMetadata (m : gmap Z CellMetaData) (i : Z)
    (ip : InstanceInterface) :=
  {| columnMetadataMap := m;
     rowMetadataMap := rowMetadataMap ip;
     lastMeasuredColumnIndex := i;
     lastMeasuredRowIndex := lastMeasuredRowIndex ip;
     estimatedRowHeight := estimatedRowHeight ip;
     estimatedColumnWidth := estimatedColumnWidth ip;
     recalcColumnIndices := recalcColumnIndices ip;
     recalcRowIndices := recalcRowIndices ip |}.

(** ** The state monad of the component *)

Definition M (A : Type) : Type := GridState -> A * GridState.

Definition ret {A} (a : A) : M A := fun g => (a, g).

Definition bind {A B} (m : M A) (k : A -> M B) : M B :=
  fun g => let '(a, g') := m g in k a g'.

Declare Scope grid_scope.
Delimit Scope grid_scope with grid.
Notation "'let*' x := m 'in' k" := (bind m (fun x => k))
  (at level 10, x name, m at level 100, k at level 200) : grid_scope.
Notation "m ;;; k" := (bind m (fun _ => k))
  (at level 100, k at level 200, right associativity) : grid_scope.

Definition get : M GridState := fun g => (g, g).
Definition modify (f : GridState -> GridState) : M unit := fun g => (tt, f g).
Definition when (b : bool) (m : M unit) : M unit := if b then m else ret tt.

(** A helper reads and fills the cache [instanceProps.current]. *)
Definition I (A : Type) : Type := InstanceInterface -> A * InstanceInterface.

Definition withInstance {A} (h : I A) : M A :=
  fun g => let '(a, ip) := h (instanceProps g) in (a, set_instanceProps ip g).

Definition readInstance {A} (h : InstanceInterface -> A) : M A :=
  fun g => (h (instanceProps g), g).

(** ** The imported helpers

    The functions [Grid.tsx] imports from [./helpers].  Each one receives
    the size callbacks, the counts and the scale through its argument
    object; here they receive the props record that carries them. *)
Record AlignmentArgs :=
  { al_index : Z; al_scrollOffset : Z; al_frozenOffset : Z;
    al_align : Align.t }.

Record Helpers :=
  { getRowStartIndexForOffset : GridProps -> Z -> I Z;
    getRowStopIndexForStartIndex : GridProps -> Z -> Z -> I Z;
    getColumnStartIndexForOffset : GridProps -> Z -> I Z;
    getColumnStopIndexForStartIndex : GridProps -> Z -> Z -> I Z;
    getRowOffset : GridProps -> Z -> I Z;
    getColumnOffset : GridProps -> Z -> I Z;
    getRowHeight : Z -> InstanceInterface -> Z;
    getColumnWidth : Z -> InstanceInterface -> Z;
    getOffsetForRowAndAlignment : GridProps -> AlignmentArgs -> I Z;
    getOffsetForColumnAndAlignment : GridProps -> AlignmentArgs -> I Z }.

(** ** The component *)

(** The two DOM objects that hit-testing reads: the Konva stage, through
    the point map of its inverted absolute transform, and the bounding
    rectangle of the container; [None] while the ref is empty. *)
Record Dom :=
  { stageRef : option (Z * Z -> Z * Z);
    containerRect : option (Z * Z) }.

(** The [key] of a call, recorded as the expression [Grid.tsx] writes and
    not as the string that results: [CellKey r c] is the call
    [itemKey({ rowIndex: r, columnIndex: c })] of lines 1602, 1762, 1867
    and 2048, [RangeKey r c] the template
    [`range:${itemKey({ rowIndex: r, columnIndex: c })}`] of line 1672.
    [itemKey] itself is imported from [./helpers] and is not embedded: the
    constructors only say which coordinates it is applied to, and nothing
    is stated about the strings it returns, in particular not that two
    different expressions give two different keys. *)
Inductive ItemKey :=
| CellKey (rowIndex columnIndex : Z)
| RangeKey (rowIndex columnIndex : Z).

(** [RendererProps], as passed to [itemRenderer]. *)
Record RendererProps :=
  { r_x : Z; r_y : Z; r_width : Z; r_height : Z;
    r_rowIndex : Z; r_columnIndex : Z;
    r_isMergedCell : option bool;
    r_key : ItemKey }.

Section Component.
Context (hs : Helpers) (props : GridProps) (dom : Dom).
Local Open Scope grid_scope.

(** [forceRender] is the dispatcher of [useReducer((s) => s + 1, 0)]. *)
Definition forceRender : M unit :=
  modify (fun g => set_renderTick (renderTick g + 1) g).

(** [resetAfterIndices], lines 578-600. *)
Definition resetAfterIndices (coords : OptionalCellInterface)
    (shouldForceUpdate : bool) : M unit :=
  match opt_columnIndex coords with
  | Some columnIndex =>
      modify (fun g => set_instanceProps
        (set_lastMeasuredColumnIndex
           (Z.min (lastMeasuredColumnIndex
                     (set_recalcColumnIndices [] (instanceProps g)))
                  (columnIndex - 1))
           (set_recalcColumnIndices [] (instanceProps g))) g)
  | None => ret tt
  end ;;;
  match opt_rowIndex coords with
  | Some rowIndex =>
      modify (fun g => set_instanceProps
        (set_lastMeasuredRowIndex
           (Z.min (lastMeasuredRowIndex
                     (set_recalcRowIndices [] (instanceProps g)))
                  (rowIndex - 1))
           (set_recalcRowIndices [] (instanceProps g))) g)
  | None => ret tt
  end ;;;
  when shouldForceUpdate forceRender.

(** *** Merged cells *)

(** Modelled from the spec: [cellIdentifier] of [./helpers] builds the
    key of a cell in the merged index; the specification describes it as
    the composite key [(rowIndex, columnIndex)]. *)
Definition cellIdentifier (rowIndex columnIndex : Z) : Z * Z :=
  (rowIndex, columnIndex).

(** Modelled from the spec: [getBoundedCells] of [./helpers] enumerates
    the key of every [(row, col)] pair inside the bounds of a region. *)
Definition getBoundedCells (bounds : AreaProps) : list (Z * Z) :=
  i ← seqZ (Area.top bounds) (Area.bottom bounds - Area.top bounds + 1);
  j ← seqZ (Area.left bounds) (Area.right bounds - Area.left bounds + 1);
  [cellIdentifier i j].

(** [mergedCellMap], lines 606-616: a later region overwrites the entries
    of an earlier one ([Map.set]). *)
Definition mergedCellMap : gmap (Z * Z) AreaProps :=
  foldl (fun m bounds =>
           foldl (fun m cell => <[cell := bounds]> m) m
                 (getBoundedCells bounds))
        ∅ (mergedCells props).

(** [isMergedCell], lines 619-624. *)
Definition isMergedCell (c : CellInterface) : bool :=
  bool_decide (is_Some
    (mergedCellMap !! cellIdentifier (rowIndex c) (columnIndex c))).

(** [getCellBounds], lines 627-642. *)
Definition getCellBounds (c : CellInterface) : AreaProps :=
  if isMergedCell c then
    default (Area.mk (rowIndex c) (rowIndex c) (columnIndex c) (columnIndex c))
            (mergedCellMap !! cellIdentifier (rowIndex c) (columnIndex c))
  else
    {| Area.top := rowIndex c; Area.left := columnIndex c;
       Area.right := columnIndex c; Area.bottom := rowIndex c |}.

(** [getActualCellCoords], lines 645-663. *)
Definition getActualCellCoords (c : CellInterface) : CellInterface :=
  if isMergedCell c then
    match mergedCellMap !! cellIdentifier (rowIndex c) (columnIndex c) with
    | Some cell => {| rowIndex := Area.top cell; columnIndex := Area.left cell |}
    | None => c
    end
  else {| rowIndex := rowIndex c; columnIndex := columnIndex c |}.

(** *** The viewport range *)

(** The two overscan amounts of [getVerticalRangeToRender], lines
    688-695. *)
Definition verticalOverscanBackward (st : ScrollState) : Z :=
  if negb (isScrolling st)
     || Direction.eqb (verticalScrollDirection st) Direction.Up
  then Z.max 1 (overscanCount props) else 1.

Definition verticalOverscanForward (st : ScrollState) : Z :=
  if negb (isScrolling st)
     || Direction.eqb (verticalScrollDirection st) Direction.Down
  then Z.max 1 (overscanCount props) else 1.

(** The two overscan amounts of [getHorizontalRangeToRender], lines
    729-736. *)
Definition horizontalOverscanBackward (st : ScrollState) : Z :=
  if negb (isScrolling st)
     || Direction.eqb (horizontalScrollDirection st) Direction.Left
  then Z.max 1 (overscanCount props) else 1.

Definition horizontalOverscanForward (st : ScrollState) : Z :=
  if negb (isScrolling st)
     || Direction.eqb (horizontalScrollDirection st) Direction.Right
  then Z.max 1 (overscanCount props) else 1.

(** The four-element array returned by the two range functions:
    [[overscannedStart, overscannedStop, startIndex, stopIndex]]. *)
Record RangeToRender :=
  { overscannedStart : Z; overscannedStop : Z;
    preciseStart : Z; preciseStop : Z }.

(** [getVerticalRangeToRender], lines 665-703. *)
Definition getVerticalRangeToRender : M RangeToRender :=
  let* g := get in
  let st := scrollState g in
  let* startIndex :=
    withInstance (getRowStartIndexForOffset hs props (scrollTop st)) in
  let* stopIndex :=
    withInstance
      (getRowStopIndexForStartIndex hs props startIndex (scrollTop st)) in
  let overscanBackward := verticalOverscanBackward st in
  let overscanForward := verticalOverscanForward st in
  ret {| overscannedStart := Z.max 0 (startIndex - overscanBackward);
         overscannedStop :=
           Z.max 0 (Z.min (rowCount props - 1) (stopIndex + overscanForward));
         preciseStart := startIndex;
         preciseStop := stopIndex |}.

(** [getHorizontalRangeToRender], lines 705-744. *)
Definition getHorizontalRangeToRender : M RangeToRender :=
  let* g := get in
  let st := scrollState g in
  let* startIndex :=
    withInstance (getColumnStartIndexForOffset hs props (scrollLeft st)) in
  let* stopIndex :=
    withInstance
      (getColumnStopIndexForStartIndex hs props startIndex (scrollLeft st)) in
  let overscanBackward := horizontalOverscanBackward st in
  let overscanForward := horizontalOverscanForward st in
  ret {| overscannedStart := Z.max 0 (startIndex - overscanBackward);
         overscannedStop :=
           Z.max 0
             (Z.min (columnCount props - 1) (stopIndex + overscanForward));
         preciseStart := startIndex;
         preciseStop := stopIndex |}.

(** The values a render pass derives before any callback is built (lines
    746-747 and 827-840) and that the callbacks close over. *)
Record RenderEnv :=
  { viewport : ViewPortProps;
    frozenColumnWidth : Z;
    frozenRowHeight : Z }.

Definition renderEnv : M RenderEnv :=
  let* v := getVerticalRangeToRender in
  let* h := getHorizontalRangeToRender in
  let* fcw := withInstance (getColumnOffset hs props (frozenColumns props)) in
  let* frh := withInstance (getRowOffset hs props (frozenRows props)) in
  ret {| viewport :=
           {| rowStartIndex := overscannedStart v;
              rowStopIndex := overscannedStop v;
              columnStartIndex := overscannedStart h;
              columnStopIndex := overscannedStop h |};
         frozenColumnWidth := fcw;
         frozenRowHeight := frh |}.

(** *** Scrolling *)

(** [scrollTo], lines 1089-1108.  Assigning to the [scrollTop] /
    [scrollLeft] of a scrollbar element is recorded in the ref as written. *)
Definition scrollTo (coords : OptionalScrollCoords) : M unit :=
  if showScrollbar props then
    modify (fun g =>
      match horizontalScrollRef g, opt_scrollLeft coords with
      | Some _, Some scrollLeft => set_horizontalScrollRef (Some scrollLeft) g
      | _, _ => g
      end) ;;;
    modify (fun g =>
      match verticalScrollRef g, opt_scrollTop coords with
      | Some _, Some scrollTop => set_verticalScrollRef (Some scrollTop) g
      | _, _ => g
      end)
  else
    modify (fun g =>
      let prev := scrollState g in
      set_scrollState
        {| scrollTop := default (scrollTop prev) (opt_scrollTop coords);
           scrollLeft := default (scrollLeft prev) (opt_scrollLeft coords);
           isScrolling := isScrolling prev;
           verticalScrollDirection := verticalScrollDirection prev;
           horizontalScrollDirection := horizontalScrollDirection prev |} g).

(** Truthiness of an optional number: [undefined] and [0] are falsy. *)
Definition truthy (o : option Z) : bool :=
  match o with
  | Some v => negb (v =? 0)
  | None => false
  end.

(** [index && index < frozen], used as a condition. *)
Definition andLess (o : option Z) (frozen : Z) : bool :=
  match o with
  | Some v => truthy o && (v <? frozen)
  | None => false
  end.

(** The local constants of [scrollToItem] that decide what is applied. *)
Record ScrollPlan :=
  { isFrozenRow : bool;
    isFrozenColumn : bool;
    plan_width : Z;
    plan_height : Z;
    columnAlign : Align.t;
    rowAlign : Align.t;
    coords : OptionalScrollCoords;
    isOutsideViewport : bool }.

(** The body of [scrollToItem] up to the final [if], lines 1144-1235. *)
Definition scrollToItemPlan (env : RenderEnv) (item : OptionalCellInterface)
    (align : Align.t) : M ScrollPlan :=
  let rowIndex := opt_rowIndex item in
  let columnIndex := opt_columnIndex item in
  let* g0 := get in
  let st := scrollState g0 in
  let isFrozenRow := andLess rowIndex (frozenRows props) in
  let isFrozenColumn := andLess columnIndex (frozenColumns props) in
  let* frozenColumnOffset :=
    withInstance (getColumnOffset hs props (frozenColumns props)) in
  let* x :=
    match columnIndex with
    | Some c =>
        if truthy columnIndex then
          let* v := withInstance (getColumnOffset hs props c) in ret (Some v)
        else ret None
    | None => ret None
    end in
  let* y :=
    match rowIndex with
    | Some r =>
        if truthy rowIndex then
          let* v := withInstance (getRowOffset hs props r) in ret (Some v)
        else ret None
    | None => ret None
    end in
  let* width :=
    match columnIndex with
    | Some c =>
        if truthy columnIndex then readInstance (getColumnWidth hs c)
        else ret 0
    | None => ret 0
    end in
  let* height :=
    match rowIndex with
    | Some r =>
        if truthy rowIndex then readInstance (getRowHeight hs r) else ret 0
    | None => ret 0
    end in
  let columnAlign :=
    if width >? containerWidth props then Align.start else align in
  let rowAlign :=
    if height >? containerHeight props then Align.start else align in
  let* newScrollLeft :=
    match columnIndex with
    | Some c =>
        if negb isFrozenColumn then
          let* v := withInstance
            (getOffsetForColumnAndAlignment hs props
               {| al_index := c; al_scrollOffset := scrollLeft st;
                  al_frozenOffset := frozenColumnOffset;
                  al_align := columnAlign |}) in
          ret (Some v)
        else ret None
    | None => ret None
    end in
  let* frozenRowOffset :=
    withInstance (getRowOffset hs props (frozenRows props)) in
  let* newScrollTop :=
    match rowIndex with
    | Some r =>
        if negb isFrozenRow then
          let* v := withInstance
            (getOffsetForRowAndAlignment hs props
               {| al_index := r; al_scrollOffset := scrollTop st;
                  al_frozenOffset := frozenRowOffset;
                  al_align := rowAlign |}) in
          ret (Some v)
        else ret None
    | None => ret None
    end in
  let vp := viewport env in
  let isOutsideViewport :=
    match rowIndex with
    | Some r =>
        r >? rowStopIndex vp + (rowStopIndex vp - rowStartIndex vp)
    | None => false
    end
    || match columnIndex with
       | Some c =>
           c >? columnStopIndex vp
                + (columnStopIndex vp - columnStartIndex vp)
       | None => false
       end in
  ret {| isFrozenRow := isFrozenRow;
         isFrozenColumn := isFrozenColumn;
         plan_width := width;
         plan_height := height;
         columnAlign := columnAlign;
         rowAlign := rowAlign;
         coords := {| opt_scrollLeft := newScrollLeft;
                      opt_scrollTop := newScrollTop |};
         isOutsideViewport := isOutsideViewport |}.

(** [window.requestAnimationFrame(() => scrollTo(coords))]. *)
Definition requestAnimationFrame (coords : OptionalScrollCoords) : M unit :=
  modify (fun g => set_animationFrames (animationFrames g ++ [coords]) g).

(** [scrollToItem], lines 1139-1255. *)
Definition scrollToItem (env : RenderEnv) (item : OptionalCellInterface)
    (align : Align.t) : M unit :=
  let* plan := scrollToItemPlan env item align in
  if isOutsideViewport plan then requestAnimationFrame (coords plan)
  else scrollTo (coords plan).

(** The browser paints: every callback queued for this frame runs, in the
    order of registration. *)
Definition runAnimationFrame : M unit :=
  let* g := get in
  modify (set_animationFrames []) ;;;
  foldr (fun c k => scrollTo c ;;; k) (ret tt) (animationFrames g).

(** *** The scrolling flag and its debounce timer *)

Definition RESET_SCROLL_EVENTS_DEBOUNCE_INTERVAL : Z := 150.

(** Modelled from the spec: [requestTimeout] of [./helpers] is the
    schedule operation of a cancellable timer: the callback is due [delay]
    time-units after the call and runs once unless cancelled.  The only
    callback the component schedules is [resetIsScrolling]. *)
Definition requestTimeout (delay : Z) : M TimeoutID :=
  fun g =>
    let id := nextTimeoutID g in
    (id, set_clock (now g) (timers g ++ [(id, now g + delay)]) (S id) g).

(** Modelled from the spec: [cancelTimeout] of [./helpers] is the cancel
    operation of the timer: the timeout with this id never runs. *)
Definition cancelTimeout (id : TimeoutID) : M unit :=
  modify (fun g =>
    set_clock (now g)
      (filter (fun p => negb (Nat.eqb (fst p) id)) (timers g))
      (nextTimeoutID g) g).

(** [resetIsScrolling], lines 1034-1043. *)
Definition resetIsScrolling : M unit :=
  modify (set_resetIsScrollingTimeoutID None) ;;;
  modify (fun g =>
    let prev := scrollState g in
    set_scrollState
      {| scrollTop := scrollTop prev;
         scrollLeft := scrollLeft prev;
         isScrolling := false;
         verticalScrollDirection := verticalScrollDirection prev;
         horizontalScrollDirection := horizontalScrollDirection prev |} g).

(** [resetIsScrollingDebounced], lines 1024-1032. *)
Definition resetIsScrollingDebounced : M unit :=
  let* g := get in
  match resetIsScrollingTimeoutID g with
  | Some id => cancelTimeout id
  | None => ret tt
  end ;;;
  let* id := requestTimeout RESET_SCROLL_EVENTS_DEBOUNCE_INTERVAL in
  modify (set_resetIsScrollingTimeoutID (Some id)).

(** [handleScroll], lines 1046-1065; [e.target.scrollTop] is the argument.
    The [onImmediateScroll] callback belongs to the caller. *)
Definition handleScroll (scrollTop' : Z) : M unit :=
  modify (fun g =>
    let prev := scrollState g in
    set_scrollState
      {| scrollTop := scrollTop';
         scrollLeft := scrollLeft prev;
         isScrolling := true;
         verticalScrollDirection :=
           if scrollTop prev >? scrollTop' then Direction.Up
           else Direction.Down;
         horizontalScrollDirection := horizontalScrollDirection prev |} g) ;;;
  resetIsScrollingDebounced.

(** [handleScrollLeft], lines 1068-1086. *)
Definition handleScrollLeft (scrollLeft' : Z) : M unit :=
  modify (fun g =>
    let prev := scrollState g in
    set_scrollState
      {| scrollTop := scrollTop prev;
         scrollLeft := scrollLeft';
         isScrolling := true;
         verticalScrollDirection := verticalScrollDirection prev;
         horizontalScrollDirection :=
           if scrollLeft prev >? scrollLeft' then Direction.Left
           else Direction.Right |} g) ;;;
  resetIsScrollingDebounced.

(** **** The environment: time passes and scroll events arrive *)

(** The first pending timeout that is due at time [t]. *)
Definition dueTimer (t : Z) (ts : list (TimeoutID * Z))
    : option (TimeoutID * Z) :=
  head (filter (fun p => snd p <=? t) ts).

(** Time advances to [t]: every timeout due by then runs its callback at
    its due time.  The result lists the times at which [resetIsScrolling]
    ran, that is, the scrolling-cleared transitions. *)
Fixpoint runTimers (fuel : nat) (t : Z) : M (list Z) :=
  match fuel with
  | O => ret []
  | S fuel' =>
      let* g := get in
      match dueTimer t (timers g) with
      | None => ret []
      | Some (id, due) =>
          modify (fun g =>
            set_clock (Z.max (now g) due)
              (filter (fun p => negb (Nat.eqb (fst p) id)) (timers g))
              (nextTimeoutID g) g) ;;;
          resetIsScrolling ;;;
          let* rest := runTimers fuel' t in
          ret (due :: rest)
      end
  end.

Definition advanceTo (t : Z) : M (list Z) :=
  let* g := get in
  let* fired := runTimers (length (timers g)) t in
  modify (fun g => set_clock (Z.max (now g) t) (timers g) (nextTimeoutID g) g) ;;;
  ret fired.

Inductive ScrollEvent :=
| VerticalScroll (time : Z) (scrollTop : Z)
| HorizontalScroll (time : Z) (scrollLeft : Z).

Definition eventTime (e : ScrollEvent) : Z :=
  match e with
  | VerticalScroll t _ | HorizontalScroll t _ => t
  end.

(** The listener of the scrollbar the event comes from. *)
Definition handle (e : ScrollEvent) : M unit :=
  match e with
  | VerticalScroll _ v => handleScroll v
  | HorizontalScroll _ v => handleScrollLeft v
  end.

(** One scroll event: time advances to the event, then its handler runs. *)
Definition deliver (e : ScrollEvent) : M (list Z) :=
  let* fired := advanceTo (eventTime e) in
  handle e ;;;
  ret fired.

Fixpoint deliverAll (es : list ScrollEvent) : M (list Z) :=
  match es with
  | [] => ret []
  | e :: es' =>
      let* fired := deliver e in
      let* rest := deliverAll es' in
      ret (fired ++ rest)
  end.

(** *** Hit testing *)

(** [isWithinFrozenColumnBoundary] and [isWithinFrozenRowBoundary], lines
    841-854. *)
Definition isWithinFrozenColumnBoundary (env : RenderEnv) (x : Z) : bool :=
  (frozenColumns props >? 0) && (x <? frozenColumnWidth env).

Definition isWithinFrozenRowBoundary (env : RenderEnv) (y : Z) : bool :=
  (frozenRows props >? 0) && (y <? frozenRowHeight env).

(** [getRelativePositionFromOffset], lines 859-881. *)
Definition getRelativePositionFromOffset (left top : Z) : option (Z * Z) :=
  match stageRef dom with
  | None => None
  | Some invertedPoint =>
      let relative :=
        match containerRect dom with
        | Some (rx, ry) => (left - rx, top - ry)
        | None => (left, top)
        end in
      Some (invertedPoint relative)
  end.

(** [getCellCoordsFromOffset], lines 886-923. *)
Definition getCellCoordsFromOffset (env : RenderEnv) (left top : Z)
    : M (option CellInterface) :=
  match getRelativePositionFromOffset left top with
  | None => ret None
  | Some (x, y) =>
      let* g := get in
      let st := scrollState g in
      let* rowIndex :=
        withInstance
          (getRowStartIndexForOffset hs props
             (if isWithinFrozenRowBoundary env y then y
              else y + scrollTop st)) in
      let* columnIndex :=
        withInstance
          (getColumnStartIndexForOffset hs props
             (if isWithinFrozenColumnBoundary env x then x
              else x + scrollLeft st)) in
      let bounds :=
        getCellBounds {| rowIndex := rowIndex; columnIndex := columnIndex |} in
      ret (Some {| rowIndex := Area.top bounds;
                   columnIndex := Area.left bounds |})
  end.

(** [getCellOffsetFromCoords], lines 928-975, as [(x, y, width, height)]. *)
Definition getCellOffsetFromCoords (cell : CellInterface)
    : M (Z * Z * Z * Z) :=
  let bounds := getCellBounds cell in
  let* x := withInstance (getColumnOffset hs props (Area.left bounds)) in
  let* y := withInstance (getRowOffset hs props (Area.top bounds)) in
  let* r := withInstance (getColumnOffset hs props (Area.right bounds + 1)) in
  let* b := withInstance (getRowOffset hs props (Area.bottom bounds + 1)) in
  ret (x, y, r - x, b - y).

(** *** The render pass *)

(** [isHiddenRow?.(rowIndex)]. *)
Definition hiddenRow (rowIndex : Z) : bool :=
  match isHiddenRow props with
  | Some f => f rowIndex
  | None => false
  end.

(** The body shared by the four cell walks (lines 1542-1607, 1702-1767,
    1807-1872 and 1988-2053): [None] is the [continue] taken for a merged
    region that is already in [mergedCellRenderMap]. *)
Definition renderCell (rowIndex columnIndex : Z)
    (mergedCellRenderMap : gset (Z * Z))
    : M (option RendererProps * gset (Z * Z)) :=
  let cell := {| rowIndex := rowIndex; columnIndex := columnIndex |} in
  let isMerged := isMergedCell cell in
  let bounds := getCellBounds cell in
  let actualRowIndex := if isMerged then Area.top bounds else rowIndex in
  let actualColumnIndex :=
    if isMerged then Area.left bounds else columnIndex in
  let actualBottom := Z.max rowIndex (Area.bottom bounds) in
  let actualRight := Z.max columnIndex (Area.right bounds) in
  let cellId := cellIdentifier (Area.top bounds) (Area.left bounds) in
  if isMerged && bool_decide (cellId ∈ mergedCellRenderMap) then
    ret (None, mergedCellRenderMap)
  else
    let mergedCellRenderMap' :=
      if isMerged then {[cellId]} ∪ mergedCellRenderMap
      else mergedCellRenderMap in
    let* y := withInstance (getRowOffset hs props actualRowIndex) in
    let* yb := withInstance (getRowOffset hs props actualBottom) in
    let* hb := readInstance (getRowHeight hs actualBottom) in
    let height := yb - y + hb in
    let* x := withInstance (getColumnOffset hs props actualColumnIndex) in
    let* xr := withInstance (getColumnOffset hs props actualRight) in
    let* wr := readInstance (getColumnWidth hs actualRight) in
    let width := xr - x + wr in
    ret (Some {| r_x := x; r_y := y; r_width := width; r_height := height;
                 r_rowIndex := actualRowIndex;
                 r_columnIndex := actualColumnIndex;
                 r_isMergedCell := Some isMerged;
                 r_key := CellKey actualRowIndex actualColumnIndex |},
         mergedCellRenderMap').

(** A walk over the cells it enumerates, in order. *)
Fixpoint renderCells (visited : list (Z * Z))
    (mergedCellRenderMap : gset (Z * Z))
    : M (list RendererProps * gset (Z * Z)) :=
  match visited with
  | [] => ret ([], mergedCellRenderMap)
  | (rowIndex, columnIndex) :: rest =>
      let* r := renderCell rowIndex columnIndex mergedCellRenderMap in
      let* rs := renderCells rest (snd r) in
      ret (option_list (fst r) ++ fst rs, snd rs)
  end.

(** The cells each walk reaches, in loop order: the loop bounds and the
    [continue] guards of lines 1517-1540, 1680-1700, 1792-1806 and
    1977-1987. *)
Definition mainWalk (vp : ViewPortProps) : list (Z * Z) :=
  if (columnCount props >? 0) && negb (rowCount props =? 0) then
    rowIndex ←
      filter (fun rowIndex =>
                negb ((rowIndex <? frozenRows props) || hiddenRow rowIndex))
             (seqZ (rowStartIndex vp)
                   (rowStopIndex vp - rowStartIndex vp + 1));
    columnIndex ←
      filter (fun columnIndex => negb (columnIndex <? frozenColumns props))
             (seqZ (columnStartIndex vp)
                   (columnStopIndex vp - columnStartIndex vp + 1));
    [(rowIndex, columnIndex)]
  else [].

Definition frozenRowWalk (vp : ViewPortProps) : list (Z * Z) :=
  rowIndex ←
    filter (fun rowIndex => negb (hiddenRow rowIndex))
           (seqZ 0 (Z.min (rowStopIndex vp) (frozenRows props)));
  columnIndex ←
    filter (fun columnIndex => negb (columnIndex <? frozenColumns props))
           (seqZ (columnStartIndex vp)
                 (columnStopIndex vp - columnStartIndex vp + 1));
  [(rowIndex, columnIndex)].

Definition frozenColumnWalk (vp : ViewPortProps) : list (Z * Z) :=
  rowIndex ←
    filter (fun rowIndex =>
              negb ((rowIndex <? frozenRows props) || hiddenRow rowIndex))
           (seqZ (rowStartIndex vp)
                 (rowStopIndex vp - rowStartIndex vp + 1));
  columnIndex ←
    seqZ 0 (Z.min (columnStopIndex vp) (frozenColumns props));
  [(rowIndex, columnIndex)].

Definition frozenIntersectionWalk (vp : ViewPortProps) : list (Z * Z) :=
  rowIndex ←
    filter (fun rowIndex => negb (hiddenRow rowIndex))
           (seqZ 0 (Z.min (rowStopIndex vp) (frozenRows props)));
  columnIndex ←
    seqZ 0 (Z.min (columnStopIndex vp) (frozenColumns props));
  [(rowIndex, columnIndex)].

(** The [cellAreas] loop, lines 1635-1675: merged cells are skipped. *)
Fixpoint renderRanges (areas : list CellRangeArea) : M (list RendererProps) :=
  match areas with
  | [] => ret []
  | a :: rest =>
      let rowIndex := area_rowIndex a in
      let columnIndex := area_columnIndex a in
      if (rowIndex <? frozenRows props)
         || (columnIndex <? frozenColumns props)
         || isMergedCell {| rowIndex := rowIndex; columnIndex := columnIndex |}
      then renderRanges rest
      else
        let* x := withInstance (getColumnOffset hs props columnIndex) in
        let* y := withInstance (getRowOffset hs props rowIndex) in
        let* height := readInstance (getRowHeight hs rowIndex) in
        let* pos :=
          getCellOffsetFromCoords
            {| rowIndex := rowIndex; columnIndex := toColumnIndex a + 1 |} in
        let offsetX := fst (fst (fst pos)) in
        let* rs := renderRanges rest in
        ret ({| r_x := x; r_y := y; r_width := offsetX - x;
                r_height := height;
                r_rowIndex := rowIndex; r_columnIndex := columnIndex;
                r_isMergedCell := None;
                r_key := RangeKey rowIndex columnIndex |} :: rs)
  end.

(** What one render pass hands to [itemRenderer], per target array. *)
Record RenderOutput :=
  { cells : list RendererProps;
    ranges : list RendererProps;
    frozenRowCells : list RendererProps;
    frozenColumnCells : list RendererProps;
    frozenIntersectionCells : list RendererProps }.

(** The cell-drawing part of the component body, lines 1510-2073.
    [mergedCellRenderMap] is the [new Set()] of line 1510. *)
Definition renderPass : M RenderOutput :=
  let* env := renderEnv in
  let vp := viewport env in
  let mergedCellRenderMap : gset (Z * Z) := ∅ in
  let* main := renderCells (mainWalk vp) mergedCellRenderMap in
  let* rgs := renderRanges (cellAreas props) in
  let* frow := renderCells (frozenRowWalk vp) (snd main) in
  let* fcol := renderCells (frozenColumnWalk vp) (snd frow) in
  let* fint := renderCells (frozenIntersectionWalk vp) (snd fcol) in
  ret {| cells := fst main;
         ranges := rgs;
         frozenRowCells := fst frow;
         frozenColumnCells := fst fcol;
         frozenIntersectionCells := fst fint |}.

(** Every [itemRenderer] call of the pass, in call order. *)
Definition itemRendererCalls (o : RenderOutput) : list RendererProps :=
  cells o ++ ranges o ++ frozenRowCells o ++ frozenColumnCells o
  ++ frozenIntersectionCells o.

End Component.

(** ** The helpers, from the specification

    An executable instance of [Helpers].  The general statements below are
    proved for every instance of [Helpers]; this one runs the component on
    concrete grids. *)
Module SpecHelpers.

(** Modelled from the spec: the two axes, and the fields of the instance
    state and of the props seen per axis. *)
Inductive Axis := RowAxis | ColumnAxis.

Definition sizeMap (a : Axis) (ip : InstanceInterface) : gmap Z CellMetaData :=
  match a with
  | RowAxis => rowMetadataMap ip
  | ColumnAxis => columnMetadataMap ip
  end.

Definition lastMeasuredIndex (a : Axis) (ip : InstanceInterface) : Z :=
  match a with
  | RowAxis => lastMeasuredRowIndex ip
  | ColumnAxis => lastMeasuredColumnIndex ip
  end.

Definition estimatedItemSize (a : Axis) (ip : InstanceInterface) : Z :=
  match a with
  | RowAxis => estimatedRowHeight ip
  | ColumnAxis => estimatedColumnWidth ip
  end.

Definition recalcIndices (a : Axis) (ip : InstanceInterface) : list Z :=
  match a with
  | RowAxis => recalcRowIndices ip
  | ColumnAxis => recalcColumnIndices ip
  end.

Definition sizer (a : Axis) (props : GridProps) : Z -> Z :=
  match a with
  | RowAxis => rowHeight props
  | ColumnAxis => columnWidth props
  end.

Definition count (a : Axis) (props : GridProps) : Z :=
  match a with
  | RowAxis => rowCount props
  | ColumnAxis => columnCount props
  end.

Definition containerExtent (a : Axis) (props : GridProps) : Z :=
  match a with
  | RowAxis => containerHeight props
  | ColumnAxis => containerWidth props
  end.

Definition store (a : Axis) (m : gmap Z CellMetaData) (last : Z)
    (ip : InstanceInterface) : InstanceInterface :=
  match a with
  | RowAxis => set_rowMetadata m last ip
  | ColumnAxis => set_columnMetadata m last ip
  end.

(** Modelled from the spec: [getSize(axis, index)] returns the size of the
    entry if it is known and not marked stale, else the estimated size. *)
Definition getSize (a : Axis) (index : Z) (ip : InstanceInterface) : Z :=
  match sizeMap a ip !! index with
  | Some e =>
      if bool_decide (index ∈ recalcIndices a ip) then estimatedItemSize a ip
      else size e
  | None => estimatedItemSize a ip
  end.

(** Modelled from the spec: one memoising step of [getOffset],
    [offset[i] = offset[i-1] + size(i-1)], the new entry taking the scaled
    size the callback reports. *)
Definition measureNext (a : Axis) (props : GridProps)
    (acc : gmap Z CellMetaData * Z) (i : Z) : gmap Z CellMetaData * Z :=
  let m := fst acc in
  let start :=
    match m !! (i - 1) with
    | Some prev => offset prev + size prev
    | None => 0
    end in
  (<[i := {| offset := start; size := sizer a props i * scale props |}]> m, i).

(** Modelled from the spec: [getOffset(axis, index)] returns the cached
    cumulative offset when [index <= lastMeasuredIndex] and the entry is
    not stale; otherwise it computes forward from [lastMeasuredIndex + 1]
    up to [index], memoising each entry and advancing
    [lastMeasuredIndex]. *)
Definition getOffset (a : Axis) (props : GridProps) (index : Z) : I Z :=
  fun ip =>
    let last := lastMeasuredIndex a ip in
    if (index <=? last) && negb (bool_decide (index ∈ recalcIndices a ip))
    then (from_option offset 0 (sizeMap a ip !! index), ip)
    else
      let '(m, last') :=
        foldl (measureNext a props) (sizeMap a ip, last)
              (seqZ (last + 1) (index - last)) in
      (from_option offset 0 (m !! index), store a m last' ip).

(** Modelled from the spec: [indexForOffset(axis, offset)] finds the
    smallest index whose interval [[offset, offset + size)] contains the
    offset, extending the store forward as needed; an offset past the
    content yields the last index. *)
Fixpoint scanForOffset (a : Axis) (props : GridProps) (fuel : nat)
    (i target : Z) : I Z :=
  fun ip =>
    match fuel with
    | O => (i, ip)
    | S fuel' =>
        let '(off, ip1) := getOffset a props i ip in
        if target <? off + getSize a i ip1 then (i, ip1)
        else scanForOffset a props fuel' (i + 1) target ip1
    end.

(** Modelled from the spec: negative offsets are clamped to [0], and with
    a count of [0] the result is [0] without reading the store. *)
Definition indexForOffset (a : Axis) (props : GridProps) (target : Z) : I Z :=
  fun ip =>
    if count a props <=? 0 then (0, ip)
    else scanForOffset a props (Z.to_nat (count a props - 1)) 0
                       (Z.max 0 target) ip.

(** Modelled from the spec: [stopIndexForStart] walks forward from
    [startIndex], accumulating sizes until the visible extent is covered,
    and is clamped to [count - 1]. *)
Fixpoint walkToStop (a : Axis) (props : GridProps) (fuel : nat)
    (stopIndex reached maxOffset : Z) : I Z :=
  fun ip =>
    match fuel with
    | O => (stopIndex, ip)
    | S fuel' =>
        if (stopIndex <? count a props - 1) && (reached <? maxOffset) then
          let '(_, ip1) := getOffset a props (stopIndex + 1) ip in
          walkToStop a props fuel' (stopIndex + 1)
                     (reached + getSize a (stopIndex + 1) ip1) maxOffset ip1
        else (stopIndex, ip)
    end.

(** Modelled from the spec: with a count of [0] the result is [0] without
    reading the store; otherwise the walk starts after the start item. *)
Definition stopIndexForStart (a : Axis) (props : GridProps)
    (startIndex scrollOffset : Z) : I Z :=
  fun ip =>
    if count a props <=? 0 then (0, ip)
    else
      let '(off, ip1) := getOffset a props startIndex ip in
      walkToStop a props (Z.to_nat (count a props - 1 - startIndex))
                 startIndex (off + getSize a startIndex ip1)
                 (scrollOffset + containerExtent a props) ip1.

(** Modelled from the spec: [planScroll] for one axis.
    - [start]: the leading edge of the target at the leading edge of the
      viewport, after the frozen region;
    - [end]: the trailing edge of the target at the trailing edge of the
      viewport;
    - [center]: the target centred in the viewport;
    - [smart]: no change if the target is fully visible, else [start] when
      it lies before the viewport and [end] when it lies after it.
    The result is clamped to [>= 0]. *)
Definition planScroll (a : Axis) (props : GridProps) (args : AlignmentArgs)
    : I Z :=
  fun ip =>
    let '(off, ip1) := getOffset a props (al_index args) ip in
    let sz := getSize a (al_index args) ip1 in
    let extent := containerExtent a props in
    let atStart := off - al_frozenOffset args in
    let atEnd := off + sz - extent in
    let current := al_scrollOffset args in
    let target :=
      match al_align args with
      | Align.start => atStart
      | Align.end_ => atEnd
      | Align.center => (atStart + atEnd) / 2
      | Align.smart =>
          if (atEnd <=? current) && (current <=? atStart) then current
          else if atStart <? current then atStart
          else atEnd
      end in
    (Z.max 0 target, ip1).

(** Modelled from the spec: the functions of [./helpers] that [Grid.tsx]
    calls, one store and one resolver per axis. *)
Definition helpers : Helpers :=
  {| getRowStartIndexForOffset := indexForOffset RowAxis;
     getRowStopIndexForStartIndex := stopIndexForStart RowAxis;
     getColumnStartIndexForOffset := indexForOffset ColumnAxis;
     getColumnStopIndexForStartIndex := stopIndexForStart ColumnAxis;
     getRowOffset := getOffset RowAxis;
     getColumnOffset := getOffset ColumnAxis;
     getRowHeight := getSize RowAxis;
     getColumnWidth := getSize ColumnAxis;
     getOffsetForRowAndAlignment := planScroll RowAxis;
     getOffsetForColumnAndAlignment := planScroll ColumnAxis |}.

End SpecHelpers.

(** ** Concrete grids *)

(** The initial instance cache and scroll state, lines 508-531. *)
Definition DEFAULT_ESTIMATED_ITEM_SIZE : Z := 50.

Definition initialInstance : InstanceInterface :=
  {| columnMetadataMap := ∅;
     rowMetadataMap := ∅;
     lastMeasuredColumnIndex := -1;
     lastMeasuredRowIndex := -1;
     estimatedColumnWidth := DEFAULT_ESTIMATED_ITEM_SIZE;
     estimatedRowHeight := DEFAULT_ESTIMATED_ITEM_SIZE;
     recalcColumnIndices := [];
     recalcRowIndices := [] |}.

Definition initialScrollState : ScrollState :=
  {| scrollTop := 0;
     scrollLeft := 0;
     isScrolling := false;
     verticalScrollDirection := Direction.Down;
     horizontalScrollDirection := Direction.Right |}.

Definition initialState : GridState :=
  {| instanceProps := initialInstance;
     scrollState := initialScrollState;
     verticalScrollRef := Some 0;
     horizontalScrollRef := Some 0;
     resetIsScrollingTimeoutID := None;
     renderTick := 0;
     animationFrames := [];
     now := 0;
     timers := [];
     nextTimeoutID := O |}.

(** The props with the defaults of lines 426-476 for a grid of the given
    size. *)
Definition defaultProps (rows columns : Z) : GridProps :=
  {| containerWidth := 800;
     containerHeight := 600;
     rowHeight := fun _ => 20;
     columnWidth := fun _ => 60;
     rowCount := rows;
     columnCount := columns;
     scrollbarSize := 13;
     showScrollbar := true;
     frozenRows := 0;
     frozenColumns := 0;
     mergedCells := [];
     cellAreas := [];
     enableCellOverlay := false;
     overscanCount := 1;
     isHiddenRow := None;
     scale := 1 |}.

Definition emptyDom : Dom := {| stageRef := None; containerRect := None |}.

(** A stage without transform at the origin of the page. *)
Definition plainDom : Dom :=
  {| stageRef := Some (fun p => p); containerRect := Some (0, 0) |}.

(** ** The component: imperative scrolling, resizing, wheel and selections *)

(** [PosXY]: [{ x?: number; y?: number }]. *)
Record PosXY := { pos_x : option Z; pos_y : option Z }.

(** [SnapRowProps] and [SnapColumnProps]. *)
Record SnapRowProps :=
  { snap_rowStartIndex : Z; snap_rowCount : Z;
    snap_deltaY : Z; snap_frozenRows : Z }.

Record SnapColumnProps :=
  { snap_columnStartIndex : Z; snap_columnCount : Z;
    snap_deltaX : Z; snap_frozenColumns : Z }.

(** The fields of a [MouseWheelEvent] that [handleWheel] reads. *)
Record WheelEvent := { deltaX : Z; deltaY : Z; deltaMode : Z }.

(** The values the animation-frame callback of [handleWheel] closes over. *)
Record WheelFrame :=
  { frame_isHorizontal : bool; frame_currentScroll : Z;
    frame_dx : Z; frame_dy : Z }.

(** [wheelingRef] (the id of the pending animation frame, [None] for
    [null]; request ids are positive, hence truthy) and the callbacks
    [handleWheel] has registered with [window.requestAnimationFrame]. *)
Record Wheeling :=
  { wheelingRef : option positive;
    wheelFrames : list (positive * WheelFrame);
    nextFrameID : positive }.

(** [SelectionArea]: the bounds and the [inProgress] flag; the style, which
    is handed to the renderer as it is, is left out. *)
Record SelectionArea := { sel_bounds : AreaProps; sel_inProgress : bool }.

(** The props the grid itself computes for [selectionRenderer]; a stroke
    width the grid does not set is [None]. *)
Record SelectionProps :=
  { s_key : option nat;
    s_x : Z; s_y : Z; s_width : Z; s_height : Z;
    s_strokeRightWidth : option Z;
    s_strokeBottomWidth : option Z }.

(** The selection overlays of one render pass, per pane. *)
Record SelectionOutput :=
  { activeCellSelection : option SelectionProps;
    activeCellSelectionFrozenColumn : option SelectionProps;
    activeCellSelectionFrozenRow : option SelectionProps;
    activeCellSelectionFrozenIntersection : option SelectionProps;
    selectionAreas : list SelectionProps;
    selectionAreasFrozenColumns : list SelectionProps;
    selectionAreasFrozenRows : list SelectionProps;
    selectionAreasIntersection : list SelectionProps;
    isSelectionInProgress : bool;
    fillHandleDimension : option (Z * Z) }.

Section Interaction.
Context (hs : Helpers) (props : GridProps).
Local Open Scope grid_scope.

(** [getScrollPosition], lines 570-575. *)
Definition getScrollPosition : M OptionalScrollCoords :=
  let* g := get in
  ret {| opt_scrollTop := Some (scrollTop (scrollState g));
         opt_scrollLeft := Some (scrollLeft (scrollState g)) |}.

(** [scrollToTop], lines 1111-1113. *)
Definition scrollToTop : M unit :=
  scrollTo props {| opt_scrollTop := Some 0; opt_scrollLeft := Some 0 |}.

(** [scrollBy], lines 1118-1133.  Each [+=] and each [prev + x] of the
    source is one addition here, on the numbers of the model; the source
    adds doubles, so nothing below relies on a law that relates two
    separate additions of scroll offsets. *)
Definition scrollBy (pos : PosXY) : M unit :=
  if showScrollbar props then
    modify (fun g =>
      match horizontalScrollRef g, pos_x pos with
      | Some current, Some x => set_horizontalScrollRef (Some (current + x)) g
      | _, _ => g
      end) ;;;
    modify (fun g =>
      match verticalScrollRef g, pos_y pos with
      | Some current, Some y => set_verticalScrollRef (Some (current + y)) g
      | _, _ => g
      end)
  else
    modify (fun g =>
      let prev := scrollState g in
      set_scrollState
        {| scrollTop :=
             match pos_y pos with
             | None => scrollTop prev
             | Some y => scrollTop prev + y
             end;
           scrollLeft :=
             match pos_x pos with
             | None => scrollLeft prev
             | Some x => scrollLeft prev + x
             end;
           isScrolling := isScrolling prev;
           verticalScrollDirection := verticalScrollDirection prev;
           horizontalScrollDirection := horizontalScrollDirection prev |} g).

(** [Math.min(...indices)]; [None] stands for the [Infinity] of an empty
    argument list. *)
Definition minOf (indices : list Z) : option Z :=
  match indices with
  | [] => None
  | i :: rest => Some (foldl Z.min i rest)
  end.

(** [resizeColumns], lines 981-986.  With no index, [leftMost] is
    [Infinity]: it is a number, so the stale list is emptied, and
    [Math.min(lastMeasuredColumnIndex, Infinity - 1)] keeps the last
    measured index. *)
Definition resizeColumns (indices : list Z) : M unit :=
  match minOf indices with
  | Some leftMost =>
      resetAfterIndices
        {| opt_rowIndex := None; opt_columnIndex := Some leftMost |} false
  | None =>
      modify (fun g =>
        set_instanceProps (set_recalcColumnIndices [] (instanceProps g)) g)
  end ;;;
  modify (fun g =>
    set_instanceProps (set_recalcColumnIndices indices (instanceProps g)) g) ;;;
  forceRender.

(** [resizeRows], lines 991-996. *)
Definition resizeRows (indices : list Z) : M unit :=
  match minOf indices with
  | Some topMost =>
      resetAfterIndices
        {| opt_rowIndex := Some topMost; opt_columnIndex := None |} false
  | None =>
      modify (fun g =>
        set_instanceProps (set_recalcRowIndices [] (instanceProps g)) g)
  end ;;;
  modify (fun g =>
    set_instanceProps (set_recalcRowIndices indices (instanceProps g)) g) ;;;
  forceRender.

(** The effect of lines 999-1006, run after a render whose stop indices or
    scale changed: both stale lists are emptied. *)
Definition clearRecalcIndices : M unit :=
  modify (fun g =>
    match recalcColumnIndices (instanceProps g) with
    | [] => g
    | _ :: _ =>
        set_instanceProps (set_recalcColumnIndices [] (instanceProps g)) g
    end) ;;;
  modify (fun g =>
    match recalcRowIndices (instanceProps g) with
    | [] => g
    | _ :: _ =>
        set_instanceProps (set_recalcRowIndices [] (instanceProps g)) g
    end).

(** [getViewPort], lines 1009-1016. *)
Definition getViewPort (env : RenderEnv) : ViewPortProps := viewport env.

(** [snapToRowFn], lines 775-791. *)
Definition snapToRowFn (p : SnapRowProps) : M unit :=
  let* g := get in
  match verticalScrollRef g with
  | None => ret tt
  | Some current =>
      if negb (snap_deltaY p =? 0) then
        let nextRowIndex :=
          if snap_deltaY p <? 0 then Z.max 0 (snap_rowStartIndex p)
          else Z.min (snap_rowStartIndex p + snap_frozenRows p)
                     (snap_rowCount p - 1) in
        let* rowHeight := readInstance (getRowHeight hs nextRowIndex) in
        modify (set_verticalScrollRef
                  (Some (current
                         + (if snap_deltaY p <? 0 then -1 else 1) * rowHeight)))
      else ret tt
  end.

(** [snapToColumnFn], lines 796-818. *)
Definition snapToColumnFn (p : SnapColumnProps) : M unit :=
  let* g := get in
  match horizontalScrollRef g with
  | None => ret tt
  | Some current =>
      if negb (snap_deltaX p =? 0) then
        let nextColumnIndex :=
          if snap_deltaX p <? 0 then Z.max 0 (snap_columnStartIndex p)
          else Z.min (snap_columnStartIndex p + snap_frozenColumns p)
                     (snap_columnCount p - 1) in
        let* columnWidth := readInstance (getColumnWidth hs nextColumnIndex) in
        modify (set_horizontalScrollRef
                  (Some (current
                         + (if snap_deltaX p <? 0 then -1 else 1)
                           * columnWidth)))
      else ret tt
  end.

(** [throttle] of [./helpers], which wraps the two snap functions (lines
    819-824), and the [snap] prop. *)
Context (throttle : forall A : Type, (A -> M unit) -> A -> M unit)
        (snap : bool).

Definition snapToRowThrottler : SnapRowProps -> M unit :=
  throttle SnapRowProps snapToRowFn.

Definition snapToColumnThrottler : SnapColumnProps -> M unit :=
  throttle SnapColumnProps snapToColumnFn.

(** [window.requestAnimationFrame] for the callback of [handleWheel]. *)
Definition requestWheelFrame (f : WheelFrame) (w : Wheeling) : Wheeling :=
  {| wheelingRef := Some (nextFrameID w);
     wheelFrames := wheelFrames w ++ [(nextFrameID w, f)];
     nextFrameID := Pos.succ (nextFrameID w) |}.

(** [handleWheel], lines 1260-1316. *)
Definition handleWheel (vp : ViewPortProps) (event : WheelEvent)
    (w : Wheeling) : M Wheeling :=
  if snap then
    snapToRowThrottler
      {| snap_deltaY := deltaY event;
         snap_rowStartIndex := rowStartIndex vp;
         snap_rowCount := rowCount props;
         snap_frozenRows := frozenRows props |} ;;;
    snapToColumnThrottler
      {| snap_deltaX := deltaX event;
         snap_columnStartIndex := columnStartIndex vp;
         snap_columnCount := columnCount props;
         snap_frozenColumns := frozenColumns props |} ;;;
    ret w
  else
    match wheelingRef w with
    | Some _ => ret w
    | None =>
        let dx := deltaX event in
        let dy := deltaY event in
        let isHorizontal := Z.abs dx >? Z.abs dy in
        let dy := if deltaMode event =? 1 then dy * scrollbarSize props
                  else dy in
        let* g := get in
        match horizontalScrollRef g, verticalScrollRef g with
        | Some scrollLeft, Some scrollTop =>
            let currentScroll :=
              if isHorizontal then scrollLeft else scrollTop in
            ret (requestWheelFrame
                   {| frame_isHorizontal := isHorizontal;
                      frame_currentScroll := currentScroll;
                      frame_dx := dx; frame_dy := dy |} w)
        | _, _ => ret w
        end
    end.

(** The callback registered by [handleWheel], lines 1296-1305. *)
Definition wheelFrameCallback (f : WheelFrame) (w : Wheeling) : M Wheeling :=
  modify (fun g =>
    if frame_isHorizontal f then
      match horizontalScrollRef g with
      | Some _ =>
          set_horizontalScrollRef
            (Some (frame_currentScroll f + frame_dx f)) g
      | None => g
      end
    else
      match verticalScrollRef g with
      | Some _ =>
          set_verticalScrollRef (Some (frame_currentScroll f + frame_dy f)) g
      | None => g
      end) ;;;
  ret {| wheelingRef := None;
         wheelFrames := wheelFrames w;
         nextFrameID := nextFrameID w |}.

(** The browser paints: the registered wheel callbacks run in order. *)
Definition runWheelFrames (w : Wheeling) : M Wheeling :=
  foldl (fun k f => let* w' := k in wheelFrameCallback (snd f) w')
        (ret {| wheelingRef := wheelingRef w;
                wheelFrames := [];
                nextFrameID := nextFrameID w |})
        (wheelFrames w).

Fixpoint handleWheels (vp : ViewPortProps) (events : list WheelEvent)
    (w : Wheeling) : M Wheeling :=
  match events with
  | [] => ret w
  | event :: rest =>
      let* w' := handleWheel vp event w in
      handleWheels vp rest w'
  end.

(** *** Selection overlays *)

(** The rectangle of an area clipped to the rendered window, as computed
    for the active cell (lines 2086-2126) and for a selection (lines
    2170-2217): [(x, y, width, height)]. *)
Definition clippedRectangle (vp : ViewPortProps) (bounds : AreaProps)
    : M (Z * Z * Z * Z) :=
  let actualBottom := Z.min (rowStopIndex vp) (Area.bottom bounds) in
  let actualRight := Z.min (columnStopIndex vp) (Area.right bounds) in
  let* y := withInstance (getRowOffset hs props (Area.top bounds)) in
  let* yb := withInstance (getRowOffset hs props actualBottom) in
  let* hb := readInstance (getRowHeight hs actualBottom) in
  let height := yb - y + hb in
  let* x := withInstance (getColumnOffset hs props (Area.left bounds)) in
  let* xr := withInstance (getColumnOffset hs props actualRight) in
  let* wr := readInstance (getColumnWidth hs actualRight) in
  let width := xr - x + wr in
  ret (x, y, width, height).

(** The extent of the part of an area that lies in the frozen columns
    (lines 2220-2234) or in the frozen rows (lines 2252-2266). *)
Definition frozenColumnExtent (bounds : AreaProps) : M Z :=
  let* a :=
    withInstance
      (getColumnOffset hs props
         (Z.min (Area.right bounds + 1) (frozenColumns props))) in
  let* b := withInstance (getColumnOffset hs props (Area.left bounds)) in
  ret (a - b).

Definition frozenRowExtent (bounds : AreaProps) : M Z :=
  let* a :=
    withInstance
      (getRowOffset hs props
         (Z.min (Area.bottom bounds + 1) (frozenRows props))) in
  let* b := withInstance (getRowOffset hs props (Area.top bounds)) in
  ret (a - b).

Definition emptySelectionOutput : SelectionOutput :=
  {| activeCellSelection := None;
     activeCellSelectionFrozenColumn := None;
     activeCellSelectionFrozenRow := None;
     activeCellSelectionFrozenIntersection := None;
     selectionAreas := [];
     selectionAreasFrozenColumns := [];
     selectionAreasFrozenRows := [];
     selectionAreasIntersection := [];
     isSelectionInProgress := false;
     fillHandleDimension := None |}.

(** The active cell, lines 2083-2152. *)
Definition renderActiveCell (vp : ViewPortProps)
    (activeCell : option CellInterface) : M SelectionOutput :=
  match activeCell with
  | None => ret emptySelectionOutput
  | Some cell =>
      let bounds := getCellBounds props cell in
      let isInFrozenColumn := Area.left bounds <? frozenColumns props in
      let isInFrozenRow := Area.top bounds <? frozenRows props in
      let isInFrozenIntersection := isInFrozenRow && isInFrozenColumn in
      let* rect := clippedRectangle vp bounds in
      let '(x, y, width, height) := rect in
      let cell :=
        Some {| s_key := None; s_x := x; s_y := y;
                s_width := width; s_height := height;
                s_strokeRightWidth := None;
                s_strokeBottomWidth := None |} in
      ret {| activeCellSelection :=
               if isInFrozenIntersection || isInFrozenRow || isInFrozenColumn
               then None else cell;
             activeCellSelectionFrozenColumn :=
               if negb isInFrozenIntersection && negb isInFrozenRow
                  && isInFrozenColumn
               then cell else None;
             activeCellSelectionFrozenRow :=
               if negb isInFrozenIntersection && isInFrozenRow then cell
               else None;
             activeCellSelectionFrozenIntersection :=
               if isInFrozenIntersection then cell else None;
             selectionAreas := [];
             selectionAreasFrozenColumns := [];
             selectionAreasFrozenRows := [];
             selectionAreasIntersection := [];
             isSelectionInProgress := false;
             fillHandleDimension := Some (x + width, y + height) |}
  end.

(** One iteration of the loop over [selections], lines 2166-2353. *)
Definition renderSelection (vp : ViewPortProps) (selectionStrokeWidth : Z)
    (count : nat) (out : SelectionOutput) (i : nat) (selection : SelectionArea)
    : M SelectionOutput :=
  let bounds := sel_bounds selection in
  let isLeftBoundFrozen := Area.left bounds <? frozenColumns props in
  let isTopBoundFrozen := Area.top bounds <? frozenRows props in
  let isIntersectionFrozen :=
    (Area.top bounds <? frozenRows props)
    && (Area.left bounds <? frozenColumns props) in
  let isLast := Nat.eqb (S i) count in
  let* rect := clippedRectangle vp bounds in
  let '(x, y, width, height) := rect in
  let* frozenColumns' :=
    if isLeftBoundFrozen then
      let* frozenColumnSelectionWidth := frozenColumnExtent bounds in
      ret [{| s_key := Some i; s_x := x; s_y := y;
              s_width := frozenColumnSelectionWidth; s_height := height;
              s_strokeRightWidth :=
                Some (if frozenColumnSelectionWidth =? width
                      then selectionStrokeWidth else 0);
              s_strokeBottomWidth := None |}]
    else ret [] in
  let* frozenRows' :=
    if isTopBoundFrozen then
      let* frozenRowSelectionHeight := frozenRowExtent bounds in
      ret [{| s_key := Some i; s_x := x; s_y := y;
              s_width := width; s_height := frozenRowSelectionHeight;
              s_strokeRightWidth := None;
              s_strokeBottomWidth :=
                Some (if frozenRowSelectionHeight =? height
                      then selectionStrokeWidth else 0) |}]
    else ret [] in
  let* intersection' :=
    if isIntersectionFrozen then
      let* frozenIntersectionSelectionHeight := frozenRowExtent bounds in
      let* frozenIntersectionSelectionWidth := frozenColumnExtent bounds in
      ret [{| s_key := Some i; s_x := x; s_y := y;
              s_width := frozenIntersectionSelectionWidth;
              s_height := frozenIntersectionSelectionHeight;
              s_strokeRightWidth :=
                Some (if frozenIntersectionSelectionWidth =? width
                      then selectionStrokeWidth else 0);
              s_strokeBottomWidth :=
                Some (if frozenIntersectionSelectionHeight =? height
                      then selectionStrokeWidth else 0) |}]
    else ret [] in
  ret {| activeCellSelection := activeCellSelection out;
         activeCellSelectionFrozenColumn := activeCellSelectionFrozenColumn out;
         activeCellSelectionFrozenRow := activeCellSelectionFrozenRow out;
         activeCellSelectionFrozenIntersection :=
           activeCellSelectionFrozenIntersection out;
         selectionAreas :=
           selectionAreas out
           ++ [{| s_key := Some i; s_x := x; s_y := y;
                  s_width := width; s_height := height;
                  s_strokeRightWidth := None;
                  s_strokeBottomWidth := None |}];
         selectionAreasFrozenColumns :=
           selectionAreasFrozenColumns out ++ frozenColumns';
         selectionAreasFrozenRows := selectionAreasFrozenRows out ++ frozenRows';
         selectionAreasIntersection :=
           selectionAreasIntersection out ++ intersection';
         isSelectionInProgress :=
           if sel_inProgress selection then true
           else isSelectionInProgress out;
         fillHandleDimension :=
           if isLast then Some (x + width, y + height)
           else fillHandleDimension out |}.

Fixpoint renderSelectionsFrom (vp : ViewPortProps) (selectionStrokeWidth : Z)
    (count : nat) (i : nat) (selections : list SelectionArea)
    (out : SelectionOutput) : M SelectionOutput :=
  match selections with
  | [] => ret out
  | selection :: rest =>
      let* out' :=
        renderSelection vp selectionStrokeWidth count out i selection in
      renderSelectionsFrom vp selectionStrokeWidth count (S i) rest out'
  end.

(** The active cell and the selections of one render pass, lines
    2078-2353. *)
Definition renderSelections (vp : ViewPortProps) (selectionStrokeWidth : Z)
    (activeCell : option CellInterface) (selections : list SelectionArea)
    : M SelectionOutput :=
  let* out := renderActiveCell vp activeCell in
  renderSelectionsFrom vp selectionStrokeWidth (length selections) O
                       selections out.

(** [fillhandleComponent], lines 2658-2667: where the fill handle is shown,
    if it is. *)
Definition fillHandle (showFillHandle : bool) (out : SelectionOutput)
    : option (option (Z * Z)) :=
  if showFillHandle && negb (isSelectionInProgress out)
  then Some (fillHandleDimension out) else None.

End Interaction.

(** * Vocabulary of the properties *)

(** Unfold the operations of the state monad. *)
Ltac unfold_monad :=
  unfold bind, ret, get, modify, when, withInstance, readInstance in *.

(** Run the goal symbolically: name the result of the innermost helper
    call that is taken apart, and follow both branches of a condition. *)
Ltac innermost_call x :=
  lazymatch x with
  | (let '(_, _) := ?y in _) => innermost_call y
  | (if ?b then _ else _) _ => destruct b eqn:?; simpl
  | _ =>
      let a := fresh "a" in
      let ip := fresh "ip" in
      destruct x as [a ip] eqn:?; simpl
  end.

Ltac split_calls :=
  repeat match goal with
         | |- context [let '(_, _) := ?x in _] => innermost_call x
         end.

(** A helper call changes nothing but the instance cache. *)
Definition sameButInstance (g g' : GridState) : Prop :=
  g' = set_instanceProps (instanceProps g') g.

(** The resolver contract on the two precise indices: the start index is a
    valid index, the stop index is not before it and is clamped to
    [count - 1] (both are [0] for an empty axis). *)
Definition resolved (count : Z) (r : RangeToRender) : Prop :=
  0 <= preciseStart r <= preciseStop r
  /\ preciseStop r <= Z.max 0 (count - 1).

(** All that the range functions need of the two precise indices: the
    start index is not past the stop index, nor past the last index of the
    axis ([0] for an empty axis).  Nothing is asked of the lower end of the
    start index or of the upper end of the stop index: those are what the
    [Math.max] and [Math.min] of lines 697-702 and 738-743 give. *)
Definition startOnAxis (count : Z) (r : RangeToRender) : Prop :=
  preciseStart r <= preciseStop r
  /\ preciseStart r <= Z.max 0 (count - 1).

(** What the clamps give whatever the resolvers answer: neither end of the
    overscanned range is negative and its stop index is not past the last
    index of the axis ([0] for an empty axis). *)
Definition clamped (count : Z) (r : RangeToRender) : Prop :=
  0 <= overscannedStart r
  /\ 0 <= overscannedStop r <= Z.max 0 (count - 1).

(** The overscanned range lies on the axis: within [[0, count - 1]] and
    ordered when the axis is not empty, [[0, 0]] when it is. *)
Definition withinAxis (count : Z) (r : RangeToRender) : Prop :=
  (0 < count ->
   0 <= overscannedStart r /\ overscannedStart r <= overscannedStop r
   /\ overscannedStop r <= count - 1)
  /\ (count = 0 -> overscannedStart r = 0 /\ overscannedStop r = 0).

(** Resolvers that break the contract on the row axis: the start index
    they answer is row [50], whatever the offset and the length of the
    axis.  The other helpers are those of the specification. *)
Definition lateStartHelpers : Helpers :=
  {| getRowStartIndexForOffset := fun _ _ ip => (50, ip);
     getRowStopIndexForStartIndex := fun _ startIndex _ ip => (startIndex, ip);
     getColumnStartIndexForOffset :=
       getColumnStartIndexForOffset SpecHelpers.helpers;
     getColumnStopIndexForStartIndex :=
       getColumnStopIndexForStartIndex SpecHelpers.helpers;
     getRowOffset := getRowOffset SpecHelpers.helpers;
     getColumnOffset := getColumnOffset SpecHelpers.helpers;
     getRowHeight := getRowHeight SpecHelpers.helpers;
     getColumnWidth := getColumnWidth SpecHelpers.helpers;
     getOffsetForRowAndAlignment :=
       getOffsetForRowAndAlignment SpecHelpers.helpers;
     getOffsetForColumnAndAlignment :=
       getOffsetForColumnAndAlignment SpecHelpers.helpers |}.

(** A region contains a cell when the cell lies within its inclusive
    bounds. *)
Definition contains (b : AreaProps) (c : CellInterface) : Prop :=
  Area.top b <= rowIndex c <= Area.bottom b
  /\ Area.left b <= columnIndex c <= Area.right b.

(** The top-left cell of a region. *)
Definition anchor (b : AreaProps) : CellInterface :=
  {| rowIndex := Area.top b; columnIndex := Area.left b |}.

(** Two regions overlap when they have a cell in common. *)
Definition overlaps (a b : AreaProps) : Prop :=
  Z.max (Area.top a) (Area.top b) <= Z.min (Area.bottom a) (Area.bottom b)
  /\ Z.max (Area.left a) (Area.left b) <= Z.min (Area.right a) (Area.right b).

(** The invariant of the data model: merged regions do not overlap (a
    region listed twice is one region). *)
Definition nonOverlapping (regions : list AreaProps) : Prop :=
  Forall (fun a => Forall (fun b => overlaps a b -> a = b) regions) regions.

#[global] Instance nonOverlapping_dec regions : Decision (nonOverlapping regions).
Proof. unfold nonOverlapping, overlaps. apply _. Defined.

Definition buildMergedCellMap (m : gmap (Z * Z) AreaProps)
    (regions : list AreaProps) : gmap (Z * Z) AreaProps :=
  foldl (fun m bounds =>
           foldl (fun m cell => <[cell := bounds]> m) m
                 (getBoundedCells bounds))
        m regions.

(** A computation that changes nothing but the instance cache. *)
Definition cacheOnly {A} (m : M A) : Prop :=
  forall g, sameButInstance g (snd (m g)).

(** The target lies more than one span of the rendered window past the end
    of the window, on the row axis or on the column axis. *)
Definition farBeyond (vp : ViewPortProps) (item : OptionalCellInterface)
    : Prop :=
  (exists r, opt_rowIndex item = Some r
             /\ r > rowStopIndex vp + (rowStopIndex vp - rowStartIndex vp))
  \/ (exists c, opt_columnIndex item = Some c
                /\ c > columnStopIndex vp
                       + (columnStopIndex vp - columnStartIndex vp)).

(** Grids used to run [scrollToItem]: two frozen rows and one frozen column
    over uniform cells, and a first column wider than the container. *)
Definition frozenGrid : GridProps :=
  {| containerWidth := 800; containerHeight := 600;
     rowHeight := fun _ => 20; columnWidth := fun _ => 60;
     rowCount := 100; columnCount := 50; scrollbarSize := 13;
     showScrollbar := false; frozenRows := 2; frozenColumns := 1;
     mergedCells := []; cellAreas := []; enableCellOverlay := false;
     overscanCount := 1; isHiddenRow := None; scale := 1 |}.

Definition wideFirstColumnGrid : GridProps :=
  {| containerWidth := 800; containerHeight := 600;
     rowHeight := fun _ => 20;
     columnWidth := fun i => if i =? 0 then 1000 else 60;
     rowCount := 100; columnCount := 50; scrollbarSize := 13;
     showScrollbar := false; frozenRows := 0; frozenColumns := 0;
     mergedCells := []; cellAreas := []; enableCellOverlay := false;
     overscanCount := 1; isHiddenRow := None; scale := 1 |}.

Definition scrolledState : GridState :=
  set_scrollState
    {| scrollTop := 500; scrollLeft := 300; isScrolling := false;
       verticalScrollDirection := Direction.Down;
       horizontalScrollDirection := Direction.Right |}
    initialState.

(** No debounce timer is pending. *)
Definition settled (g : GridState) : Prop :=
  timers g = [] /\ resetIsScrollingTimeoutID g = None.

(** The state right after a scroll event at time [t]: the flag is set and
    the one pending timeout is the debounce timer, due at [t + 150]. *)
Definition armed (t : Z) (g : GridState) : Prop :=
  isScrolling (scrollState g) = true
  /\ now g = t
  /\ exists id,
      resetIsScrollingTimeoutID g = Some id
      /\ timers g = [(id, t + RESET_SCROLL_EVENTS_DEBOUNCE_INTERVAL)].

(** At most one timeout is pending, and it is the debounce timer. *)
Definition atMostOnePending (g : GridState) : Prop :=
  settled g
  \/ exists id d,
      resetIsScrollingTimeoutID g = Some id /\ timers g = [(id, d)].

(** The events that follow an event at time [prev] in a burst: each one
    arrives before the debounce interval of the previous one has elapsed. *)
Fixpoint burstAfter (prev : Z) (es : list ScrollEvent) : Prop :=
  match es with
  | [] => True
  | e :: es' =>
      prev <= eventTime e < prev + RESET_SCROLL_EVENTS_DEBOUNCE_INTERVAL
      /\ burstAfter (eventTime e) es'
  end.

(** A burst that starts at or after time [start]. *)
Definition burst (start : Z) (es : list ScrollEvent) : Prop :=
  match es with
  | [] => False
  | e :: es' => start <= eventTime e /\ burstAfter (eventTime e) es'
  end.

(** The time of the last event of a burst. *)
Definition lastTime (es : list ScrollEvent) : Z :=
  match es with
  | [] => 0
  | e :: es' => eventTime (List.last es' e)
  end.

Arguments dueTimer : simpl never.

(** The anchor a call draws, when the call is for a merged region. *)
Definition mergedAnchor (p : RendererProps) : option (Z * Z) :=
  match r_isMergedCell p with
  | Some true => Some (r_rowIndex p, r_columnIndex p)
  | _ => None
  end.

Definition mergedAnchors (calls : list RendererProps) : list (Z * Z) :=
  omap mergedAnchor calls.

(** A call of [itemRenderer] that draws the merged region [b]. *)
Definition rendersRegion (b : AreaProps) (p : RendererProps) : Prop :=
  mergedAnchor p = Some (Area.top b, Area.left b).

#[global] Instance rendersRegion_dec b p : Decision (rendersRegion b p).
Proof. unfold rendersRegion. apply _. Defined.

Definition timesRendered (b : AreaProps) (calls : list RendererProps) : nat :=
  length (filter (rendersRegion b) calls).

(** The cells reached by the four walks of one pass. *)
Definition enumerated (props : GridProps) (vp : ViewPortProps)
    : list (Z * Z) :=
  mainWalk props vp ++ frozenRowWalk props vp ++ frozenColumnWalk props vp
  ++ frozenIntersectionWalk props vp.

(** In one render pass started from [g]: no merged region is drawn more
    than once; the region the index gives for a merged cell that one of the
    four walks reaches is drawn exactly once; and, when the regions do not
    overlap, so is every listed region one of whose cells a walk reaches. *)
Definition renderedOnce (hs : Helpers) (props : GridProps) (g : GridState)
    : Prop :=
  let vp := viewport (fst (renderEnv hs props g)) in
  let calls := itemRendererCalls (fst (renderPass hs props g)) in
  (forall b, (timesRendered b calls <= 1)%nat)
  /\ (forall r c b,
        (r, c) ∈ enumerated props vp ->
        mergedCellMap props !! cellIdentifier r c = Some b ->
        timesRendered b calls = 1%nat)
  /\ (nonOverlapping (mergedCells props) ->
      forall r c b,
        (r, c) ∈ enumerated props vp ->
        b ∈ mergedCells props ->
        contains b {| rowIndex := r; columnIndex := c |} ->
        timesRendered b calls = 1%nat).

(** A grid with two frozen rows, one frozen column and two merged regions,
    the first of which straddles the frozen panes. *)
Definition mergedGrid : GridProps :=
  {| containerWidth := 200; containerHeight := 100;
     rowHeight := fun _ => 20; columnWidth := fun _ => 60;
     rowCount := 10; columnCount := 10; scrollbarSize := 13;
     showScrollbar := true; frozenRows := 2; frozenColumns := 1;
     mergedCells := [Area.mk 1 3 0 2; Area.mk 4 4 2 3];
     cellAreas :=
       [{| area_rowIndex := 5; area_columnIndex := 1; toColumnIndex := 2 |}];
     enableCellOverlay := false; overscanCount := 1;
     isHiddenRow := None; scale := 1 |}.

(** A grid with an overscan count of three. *)
Definition overscanGrid : GridProps :=
  {| containerWidth := 800; containerHeight := 600;
     rowHeight := fun _ => 20; columnWidth := fun _ => 60;
     rowCount := 100; columnCount := 50; scrollbarSize := 13;
     showScrollbar := true; frozenRows := 0; frozenColumns := 0;
     mergedCells := []; cellAreas := []; enableCellOverlay := false;
     overscanCount := 3; isHiddenRow := None; scale := 1 |}.

Definition scrollingDownState : GridState :=
  set_scrollState
    {| scrollTop := 400; scrollLeft := 0; isScrolling := true;
       verticalScrollDirection := Direction.Down;
       horizontalScrollDirection := Direction.Right |}
    initialState.

(** Five scroll events within 150 time-units. *)
Definition fiveWheelEvents : list ScrollEvent :=
  [VerticalScroll 10 5; VerticalScroll 40 9; HorizontalScroll 100 3;
   VerticalScroll 120 30; VerticalScroll 149 31].

(** A region is well formed when it has at least one cell. *)
Definition wellFormed (b : AreaProps) : Prop :=
  Area.top b <= Area.bottom b /\ Area.left b <= Area.right b.

(** The coordinates applied by two calls of [scrollTo] in a row: the second
    call wins where it gives a coordinate. *)
Definition mergeCoords (first second : OptionalScrollCoords)
    : OptionalScrollCoords :=
  {| opt_scrollTop :=
       match opt_scrollTop second with
       | Some v => Some v
       | None => opt_scrollTop first
       end;
     opt_scrollLeft :=
       match opt_scrollLeft second with
       | Some v => Some v
       | None => opt_scrollLeft first
       end |}.

(** Two overlapping regions, the second listed last. *)
Definition overlappingGrid : GridProps :=
  {| containerWidth := 800; containerHeight := 600;
     rowHeight := fun _ => 20; columnWidth := fun _ => 60;
     rowCount := 10; columnCount := 10; scrollbarSize := 13;
     showScrollbar := true; frozenRows := 0; frozenColumns := 0;
     mergedCells := [Area.mk 1 2 1 2; Area.mk 0 1 0 1];
     cellAreas := []; enableCellOverlay := false; overscanCount := 1;
     isHiddenRow := None; scale := 1 |}.




(** The times of a list of events never go back. *)
Fixpoint orderedAfter (prev : Z) (es : list ScrollEvent) : Prop :=
  match es with
  | [] => True
  | e :: es' => prev <= eventTime e /\ orderedAfter (eventTime e) es'
  end.

(** The clears between the events that follow an event at time [prev]:
    one for every gap of at least the debounce interval, at the start of
    the gap plus the interval. *)
Fixpoint clearsBetween (prev : Z) (es : list ScrollEvent) : list Z :=
  match es with
  | [] => []
  | e :: es' =>
      (if prev + RESET_SCROLL_EVENTS_DEBOUNCE_INTERVAL <=? eventTime e
       then [prev + RESET_SCROLL_EVENTS_DEBOUNCE_INTERVAL] else [])
      ++ clearsBetween (eventTime e) es'
  end.

(** The coordinates a call of [itemRenderer] is made for. *)
Definition drawnCell (p : RendererProps) : Z * Z :=
  (r_rowIndex p, r_columnIndex p).

(** The calls of the four cell walks of one pass, in call order. *)
Definition cellCalls (o : RenderOutput) : list RendererProps :=
  cells o ++ frozenRowCells o ++ frozenColumnCells o
  ++ frozenIntersectionCells o.

(** A call that does not draw a merged region, and a cell that is not part
    of one. *)
Definition plainCall (p : RendererProps) : bool :=
  match r_isMergedCell p with
  | Some true => false
  | _ => true
  end.

Definition plainCell (props : GridProps) (rc : Z * Z) : bool :=
  negb (isMergedCell props {| rowIndex := rc.1; columnIndex := rc.2 |}).

(** The cell areas the range loop does not skip, and the cell each
    starts at. *)
Definition extendable (props : GridProps) (a : CellRangeArea) : bool :=
  negb ((area_rowIndex a <? frozenRows props)
        || (area_columnIndex a <? frozenColumns props)
        || isMergedCell props {| rowIndex := area_rowIndex a;
                                 columnIndex := area_columnIndex a |}).

Definition areaCell (a : CellRangeArea) : Z * Z :=
  (area_rowIndex a, area_columnIndex a).

(** The keys of the selections for which [P] holds, the selections being
    numbered from [i]. *)
Fixpoint keysWhere (P : SelectionArea -> bool) (i : nat)
    (selections : list SelectionArea) : list (option nat) :=
  match selections with
  | [] => []
  | s :: rest => (if P s then [Some i] else []) ++ keysWhere P (S i) rest
  end.

(** A selection whose left bound is a frozen column, or whose top bound is
    a frozen row. *)
Definition leftFrozen (props : GridProps) (s : SelectionArea) : bool :=
  Area.left (sel_bounds s) <? frozenColumns props.

Definition topFrozen (props : GridProps) (s : SelectionArea) : bool :=
  Area.top (sel_bounds s) <? frozenRows props.

(** The bottom-right corner of a drawn rectangle. *)
Definition corner (p : SelectionProps) : Z * Z :=
  (s_x p + s_width p, s_y p + s_height p).

(** The four places the active cell can be drawn in: main pane, frozen
    columns, frozen rows, frozen intersection. *)
Definition activeCellSlots (out : SelectionOutput)
    : list (option SelectionProps) :=
  [activeCellSelection out; activeCellSelectionFrozenColumn out;
   activeCellSelectionFrozenRow out;
   activeCellSelectionFrozenIntersection out].

(** Scroll events with one pause longer than the debounce interval, after
    the event at time [100]. *)
Definition pausedScroll : list ScrollEvent :=
  [VerticalScroll 100 20; HorizontalScroll 400 5; VerticalScroll 450 30].

(** A grid of two rows, both of them frozen. *)
Definition allFrozenGrid : GridProps :=
  {| containerWidth := 800; containerHeight := 600;
     rowHeight := fun _ => 20; columnWidth := fun _ => 60;
     rowCount := 2; columnCount := 3; scrollbarSize := 13;
     showScrollbar := true; frozenRows := 2; frozenColumns := 0;
     mergedCells := []; cellAreas := []; enableCellOverlay := false;
     overscanCount := 1; isHiddenRow := None; scale := 1 |}.

(** A wheel event of three pixels down and one to the right, and a wheel
    state with no frame pending. *)
Definition wheelDown : WheelEvent :=
  {| deltaX := 1; deltaY := 3; deltaMode := 0 |}.

Definition idleWheel : Wheeling :=
  {| wheelingRef := None; wheelFrames := []; nextFrameID := 1%positive |}.

(** * Properties *)

(** ** Proof support *)

Lemma sameButInstance_refl g : sameButInstance g g.
Proof. destruct g; reflexivity. Qed.

Lemma sameButInstance_set ip g : sameButInstance g (set_instanceProps ip g).
Proof. reflexivity. Qed.

Lemma sameButInstance_trans g1 g2 g3 :
  sameButInstance g1 g2 -> sameButInstance g2 g3 -> sameButInstance g1 g3.
Proof.
  unfold sameButInstance. intros H12 H23.
  rewrite H23 at 1. rewrite H12. reflexivity.
Qed.

Lemma withInstance_same {A} (h : I A) g :
  sameButInstance g (snd (withInstance h g)).
Proof.
  unfold withInstance. destruct (h (instanceProps g)); simpl.
  apply sameButInstance_set.
Qed.

(** ** The size store: invalidation *)

(** C5. [resetAfterIndices] called with the index of one axis only sets the
    last measured index of that axis to the minimum of its previous value
    and [fromIndex - 1] and empties the list of stale indices of that axis;
    the last measured index and the stale list of the other axis are left
    as they were.  The last measured index of the invalidated axis ends
    below [fromIndex]: below [10] after an invalidation from [10]. *)
Theorem resetAfterIndices_invalidates_one_axis
    (fromIndex : Z) (shouldForceUpdate : bool) (g : GridState) :
  let ip := instanceProps g in
  let columns :=
    instanceProps
      (snd (resetAfterIndices
              {| opt_rowIndex := None; opt_columnIndex := Some fromIndex |}
              shouldForceUpdate g)) in
  let rows :=
    instanceProps
      (snd (resetAfterIndices
              {| opt_rowIndex := Some fromIndex; opt_columnIndex := None |}
              shouldForceUpdate g)) in
  (lastMeasuredColumnIndex columns
     = Z.min (lastMeasuredColumnIndex ip) (fromIndex - 1)
   /\ recalcColumnIndices columns = []
   /\ lastMeasuredRowIndex columns = lastMeasuredRowIndex ip
   /\ recalcRowIndices columns = recalcRowIndices ip
   /\ lastMeasuredColumnIndex columns < fromIndex)
  /\ (lastMeasuredRowIndex rows
       = Z.min (lastMeasuredRowIndex ip) (fromIndex - 1)
      /\ recalcRowIndices rows = []
      /\ lastMeasuredColumnIndex rows = lastMeasuredColumnIndex ip
      /\ recalcColumnIndices rows = recalcColumnIndices ip
      /\ lastMeasuredRowIndex rows < fromIndex)
  /\ (lastMeasuredColumnIndex
        (instanceProps
           (snd (resetAfterIndices
                   {| opt_rowIndex := None; opt_columnIndex := Some 10 |}
                   shouldForceUpdate g))) < 10
      /\ lastMeasuredRowIndex
           (instanceProps
              (snd (resetAfterIndices
                      {| opt_rowIndex := Some 10; opt_columnIndex := None |}
                      shouldForceUpdate g))) < 10).
Proof.
  unfold resetAfterIndices, forceRender. unfold_monad.
  destruct shouldForceUpdate; simpl; repeat split; lia.
Qed.

(** The metadata maps and the estimates are not touched by an invalidation:
    re-measurement happens on the next access. *)
Lemma resetAfterIndices_keeps_entries coords shouldForceUpdate g :
  let ip' := instanceProps (snd (resetAfterIndices coords shouldForceUpdate g)) in
  rowMetadataMap ip' = rowMetadataMap (instanceProps g)
  /\ columnMetadataMap ip' = columnMetadataMap (instanceProps g)
  /\ estimatedRowHeight ip' = estimatedRowHeight (instanceProps g)
  /\ estimatedColumnWidth ip' = estimatedColumnWidth (instanceProps g).
Proof.
  unfold resetAfterIndices, forceRender. unfold_monad.
  destruct coords as [[r|] [c|]], shouldForceUpdate; simpl; auto.
Qed.

(** ** The viewport range *)

Section Range.
Context (hs : Helpers) (props : GridProps).

Lemma verticalOverscan_pos st :
  1 <= verticalOverscanBackward props st
  /\ 1 <= verticalOverscanForward props st.
Proof.
  unfold verticalOverscanBackward, verticalOverscanForward.
  split; case (_ || _); lia.
Qed.

Lemma horizontalOverscan_pos st :
  1 <= horizontalOverscanBackward props st
  /\ 1 <= horizontalOverscanForward props st.
Proof.
  unfold horizontalOverscanBackward, horizontalOverscanForward.
  split; case (_ || _); lia.
Qed.

(** The shape of the returned array, in terms of the two precise indices
    and the two overscan amounts. *)
Lemma getVerticalRangeToRender_shape g :
  let v := fst (getVerticalRangeToRender hs props g) in
  let st := scrollState g in
  overscannedStart v
    = Z.max 0 (preciseStart v - verticalOverscanBackward props st)
  /\ overscannedStop v
      = Z.max 0 (Z.min (rowCount props - 1)
                       (preciseStop v + verticalOverscanForward props st)).
Proof.
  unfold getVerticalRangeToRender. unfold_monad. simpl.
  split_calls. auto.
Qed.

Lemma getHorizontalRangeToRender_shape g :
  let h := fst (getHorizontalRangeToRender hs props g) in
  let st := scrollState g in
  overscannedStart h
    = Z.max 0 (preciseStart h - horizontalOverscanBackward props st)
  /\ overscannedStop h
      = Z.max 0 (Z.min (columnCount props - 1)
                       (preciseStop h + horizontalOverscanForward props st)).
Proof.
  unfold getHorizontalRangeToRender. unfold_monad. simpl.
  split_calls. auto.
Qed.

Lemma clamp_clamped count r back fwd :
  overscannedStart r = Z.max 0 (preciseStart r - back) ->
  overscannedStop r = Z.max 0 (Z.min (count - 1) (preciseStop r + fwd)) ->
  clamped count r.
Proof. unfold clamped. intros -> ->. lia. Qed.

Lemma clamp_withinAxis count r back fwd :
  1 <= back -> 1 <= fwd ->
  overscannedStart r = Z.max 0 (preciseStart r - back) ->
  overscannedStop r = Z.max 0 (Z.min (count - 1) (preciseStop r + fwd)) ->
  startOnAxis count r -> withinAxis count r.
Proof.
  unfold startOnAxis, withinAxis. intros Hb Hf -> -> [Hle Hmax].
  split; intros Hc; lia.
Qed.

(** The resolver contract gives what the range functions need. *)
Lemma resolved_startOnAxis count r : resolved count r -> startOnAxis count r.
Proof. unfold resolved, startOnAxis. lia. Qed.

End Range.

(** C1. On each axis the range returned by [getVerticalRangeToRender] and
    by [getHorizontalRangeToRender] is clamped whatever the resolvers
    answer: neither end is negative and the stop index is at most
    [count - 1] ([0] for an empty axis).  When moreover the precise start
    index is not past the precise stop index nor past the last index, the
    range lies within [[0, count - 1]] with
    [overscannedStart <= overscannedStop] whenever [count > 0], and is the
    degenerate range [[0, 0]] when [count = 0]. *)
Theorem rangeToRender_within_bounds
    (hs : Helpers) (props : GridProps) (g : GridState) :
  let v := fst (getVerticalRangeToRender hs props g) in
  let h := fst (getHorizontalRangeToRender hs props g) in
  (clamped (rowCount props) v /\ clamped (columnCount props) h)
  /\ (startOnAxis (rowCount props) v -> withinAxis (rowCount props) v)
  /\ (startOnAxis (columnCount props) h -> withinAxis (columnCount props) h).
Proof.
  intros v h.
  destruct (getVerticalRangeToRender_shape hs props g) as [Hvs Hve].
  destruct (getHorizontalRangeToRender_shape hs props g) as [Hhs Hhe].
  destruct (verticalOverscan_pos props (scrollState g)) as [Hvb Hvf].
  destruct (horizontalOverscan_pos props (scrollState g)) as [Hhb Hhf].
  split; [split|split].
  - exact (clamp_clamped _ _ _ _ Hvs Hve).
  - exact (clamp_clamped _ _ _ _ Hhs Hhe).
  - exact (clamp_withinAxis _ _ _ _ Hvb Hvf Hvs Hve).
  - exact (clamp_withinAxis _ _ _ _ Hhb Hhf Hhs Hhe).
Qed.

(** C2. The overscan amounts are direction-sensitive.  While scrolling
    down, the backward (upward) overscan of the row axis is exactly [1] and
    the forward (downward) one is [max 1 overscanCount]; while scrolling up
    it is the other way round; when not scrolling both edges receive
    [max 1 overscanCount].  The column axis behaves in the same way with
    [Left] for backward and [Right] for forward.  These amounts are the ones
    the two range functions subtract from the start index and add to the
    stop index. *)
Theorem overscan_direction_sensitive
    (hs : Helpers) (props : GridProps) (g : GridState) :
  let st := scrollState g in
  let full := Z.max 1 (overscanCount props) in
  let v := fst (getVerticalRangeToRender hs props g) in
  let h := fst (getHorizontalRangeToRender hs props g) in
  (overscannedStart v
     = Z.max 0 (preciseStart v - verticalOverscanBackward props st)
   /\ overscannedStop v
       = Z.max 0 (Z.min (rowCount props - 1)
                        (preciseStop v + verticalOverscanForward props st))
   /\ overscannedStart h
       = Z.max 0 (preciseStart h - horizontalOverscanBackward props st)
   /\ overscannedStop h
       = Z.max 0 (Z.min (columnCount props - 1)
                        (preciseStop h + horizontalOverscanForward props st)))
  /\ (isScrolling st = true ->
      (verticalScrollDirection st = Direction.Down ->
       verticalOverscanBackward props st = 1
       /\ verticalOverscanForward props st = full)
      /\ (verticalScrollDirection st = Direction.Up ->
          verticalOverscanBackward props st = full
          /\ verticalOverscanForward props st = 1)
      /\ (horizontalScrollDirection st = Direction.Right ->
          horizontalOverscanBackward props st = 1
          /\ horizontalOverscanForward props st = full)
      /\ (horizontalScrollDirection st = Direction.Left ->
          horizontalOverscanBackward props st = full
          /\ horizontalOverscanForward props st = 1))
  /\ (isScrolling st = false ->
      verticalOverscanBackward props st = full
      /\ verticalOverscanForward props st = full
      /\ horizontalOverscanBackward props st = full
      /\ horizontalOverscanForward props st = full).
Proof.
  intros st full v h.
  destruct (getVerticalRangeToRender_shape hs props g) as [Hvs Hve].
  destruct (getHorizontalRangeToRender_shape hs props g) as [Hhs Hhe].
  split; [auto|].
  unfold verticalOverscanBackward, verticalOverscanForward,
    horizontalOverscanBackward, horizontalOverscanForward.
  subst st full. clear v h Hvs Hve Hhs Hhe.
  destruct (scrollState g) as [t l scrolling vdir hdir]; simpl.
  destruct scrolling, vdir, hdir; simpl;
    repeat split; intros; solve [reflexivity | discriminate].
Qed.

(** ** Merged cells *)

Lemma nonOverlapping_unique regions a b c :
  nonOverlapping regions -> a ∈ regions -> b ∈ regions ->
  contains a c -> contains b c -> a = b.
Proof.
  unfold nonOverlapping, contains, overlaps. intros Hno Ha Hb Hca Hcb.
  rewrite Forall_forall in Hno. specialize (Hno a Ha).
  rewrite Forall_forall in Hno. apply (Hno b Hb). lia.
Qed.

Lemma elem_of_getBoundedCells b r c :
  (r, c) ∈ getBoundedCells b
  <-> contains b {| rowIndex := r; columnIndex := c |}.
Proof.
  unfold getBoundedCells, contains, cellIdentifier. simpl.
  rewrite list_elem_of_bind. split.
  - intros (i & Hj & Hi). apply list_elem_of_bind in Hj as (j & Hx & Hj).
    apply list_elem_of_singleton in Hx. inversion Hx; subst.
    apply elem_of_seqZ in Hi, Hj. lia.
  - intros [Hr Hc]. exists r. split.
    + apply list_elem_of_bind. exists c. split.
      * apply list_elem_of_singleton. reflexivity.
      * apply elem_of_seqZ. lia.
    + apply elem_of_seqZ. lia.
Qed.

(** The inner loop of [mergedCellMap]: every cell of the region is set. *)
Lemma lookup_set_cells (b : AreaProps) (l : list (Z * Z))
    (m : gmap (Z * Z) AreaProps) (k : Z * Z) :
  foldl (fun m cell => <[cell := b]> m) m l !! k
  = if decide (k ∈ l) then Some b else m !! k.
Proof.
  revert m. induction l as [|x l IH]; intros m; simpl.
  - destruct (decide (k ∈ [])) as [H|_]; [inversion H | reflexivity].
  - rewrite IH. destruct (decide (k ∈ l)) as [Hl|Hl].
    + rewrite decide_True; [reflexivity | by right].
    + destruct (decide (k = x)) as [->|Hne].
      * rewrite decide_True; [|by left]. apply lookup_insert_eq.
      * rewrite decide_False.
        -- apply lookup_insert_ne. congruence.
        -- intros H. apply elem_of_cons in H as [?|?]; tauto.
Qed.

Lemma mergedCellMap_build props :
  mergedCellMap props = buildMergedCellMap ∅ (mergedCells props).
Proof. reflexivity. Qed.

(** An entry of the index is a listed region that contains the cell. *)
Lemma build_lookup_Some regions m r c b :
  buildMergedCellMap m regions !! (r, c) = Some b ->
  (b ∈ regions /\ contains b {| rowIndex := r; columnIndex := c |})
  \/ m !! (r, c) = Some b.
Proof.
  revert m. induction regions as [|a regions IH]; intros m; simpl.
  - auto.
  - intros H. apply IH in H as [[Hin Hc]|H].
    + left. split; [by right | done].
    + rewrite lookup_set_cells in H.
      destruct (decide ((r, c) ∈ getBoundedCells a)) as [Hin|Hin].
      * inversion H; subst. left. split; [by left|].
        by apply elem_of_getBoundedCells.
      * by right.
Qed.

(** A cell that no listed region contains keeps its entry. *)
Lemma build_lookup_outside regions m r c :
  (forall b, b ∈ regions ->
             ~ contains b {| rowIndex := r; columnIndex := c |}) ->
  buildMergedCellMap m regions !! (r, c) = m !! (r, c).
Proof.
  revert m. induction regions as [|a regions IH]; intros m Hout; simpl.
  - reflexivity.
  - rewrite IH.
    + rewrite lookup_set_cells, decide_False; [reflexivity|].
      intros H. apply elem_of_getBoundedCells in H.
      apply (Hout a); [by left | done].
    + intros b Hb. apply Hout. by right.
Qed.

(** Without overlap, every cell of a listed region is mapped to it. *)
Lemma build_lookup_member regions m r c b :
  nonOverlapping regions -> b ∈ regions ->
  contains b {| rowIndex := r; columnIndex := c |} ->
  buildMergedCellMap m regions !! (r, c) = Some b.
Proof.
  induction regions as [|a regions IH] using rev_ind; intros Hno Hin Hc.
  - inversion Hin.
  - unfold buildMergedCellMap. rewrite foldl_app. simpl.
    rewrite lookup_set_cells.
    destruct (decide ((r, c) ∈ getBoundedCells a)) as [Ha|Ha].
    + f_equal. apply elem_of_getBoundedCells in Ha.
      eapply nonOverlapping_unique; eauto. apply elem_of_app. right. by left.
    + apply elem_of_app in Hin as [Hin|Hin].
      * apply IH; auto.
        unfold nonOverlapping in *. apply Forall_app in Hno as [Hno _].
        eapply Forall_impl; [exact Hno|]. simpl. intros x Hx.
        by apply Forall_app in Hx as [Hx _].
      * apply list_elem_of_singleton in Hin. subst.
        exfalso. apply Ha. by apply elem_of_getBoundedCells.
Qed.

Section MergedCells.
Context (props : GridProps).

Lemma isMergedCell_true c :
  isMergedCell props c = true
  <-> exists b, mergedCellMap props !! (rowIndex c, columnIndex c) = Some b.
Proof.
  unfold isMergedCell, cellIdentifier. rewrite bool_decide_eq_true.
  reflexivity.
Qed.

Lemma isMergedCell_false c :
  isMergedCell props c = false
  <-> mergedCellMap props !! (rowIndex c, columnIndex c) = None.
Proof.
  unfold isMergedCell, cellIdentifier. rewrite bool_decide_eq_false.
  rewrite <- eq_None_not_Some. reflexivity.
Qed.

(** [getActualCellCoords] and the top-left corner of [getCellBounds] are
    the same cell. *)
Lemma getActualCellCoords_bounds c :
  getActualCellCoords props c = anchor (getCellBounds props c).
Proof.
  unfold getActualCellCoords, getCellBounds, anchor.
  destruct (isMergedCell props c) eqn:E.
  - apply isMergedCell_true in E as [b Hb]. unfold cellIdentifier.
    rewrite Hb. reflexivity.
  - reflexivity.
Qed.

Lemma getActualCellCoords_entry c b :
  mergedCellMap props !! (rowIndex c, columnIndex c) = Some b ->
  getActualCellCoords props c = anchor b.
Proof.
  intros Hb. unfold getActualCellCoords, cellIdentifier.
  rewrite (proj2 (isMergedCell_true c)) by eauto.
  rewrite Hb. reflexivity.
Qed.

Lemma getActualCellCoords_unmerged c :
  isMergedCell props c = false -> getActualCellCoords props c = c.
Proof.
  intros E. unfold getActualCellCoords. rewrite E. by destruct c.
Qed.

Lemma mergedCellMap_entry_listed c b :
  mergedCellMap props !! (rowIndex c, columnIndex c) = Some b ->
  b ∈ mergedCells props /\ contains b c.
Proof.
  rewrite mergedCellMap_build. intros H.
  apply build_lookup_Some in H as [[Hin Hc]|H].
  - split; [done|]. by destruct c.
  - rewrite lookup_empty in H. discriminate.
Qed.

Lemma mergedCellMap_member c b :
  nonOverlapping (mergedCells props) ->
  b ∈ mergedCells props -> contains b c ->
  mergedCellMap props !! (rowIndex c, columnIndex c) = Some b.
Proof.
  intros Hno Hin Hc. rewrite mergedCellMap_build.
  apply build_lookup_member; auto.
Qed.

Lemma contains_anchor b c : contains b c -> contains b (anchor b).
Proof. unfold contains, anchor. simpl. lia. Qed.

(** Without overlap the anchor of a region is its own canonical cell. *)
Lemma getActualCellCoords_anchor b c :
  nonOverlapping (mergedCells props) ->
  b ∈ mergedCells props -> contains b c ->
  getActualCellCoords props (anchor b) = anchor b.
Proof.
  intros Hno Hin Hc. apply getActualCellCoords_entry.
  apply mergedCellMap_member; eauto using contains_anchor.
Qed.

Lemma getActualCellCoords_canonical c :
  nonOverlapping (mergedCells props) ->
  getActualCellCoords props (getActualCellCoords props c)
  = getActualCellCoords props c.
Proof.
  intros Hno. destruct (isMergedCell props c) eqn:E.
  - apply isMergedCell_true in E as [b Hb].
    rewrite (getActualCellCoords_entry c b Hb).
    apply mergedCellMap_entry_listed in Hb as [Hin Hc].
    eapply getActualCellCoords_anchor; eauto.
  - rewrite (getActualCellCoords_unmerged c E).
    apply getActualCellCoords_unmerged, E.
Qed.

End MergedCells.

(** C6. When the merged regions do not overlap, [getActualCellCoords] is
    idempotent on every cell; a cell that belongs to a merged region is sent
    to the top-left anchor of that region, and a cell that belongs to no
    merged region is returned unchanged. *)
Theorem getActualCellCoords_idempotent (props : GridProps) :
  nonOverlapping (mergedCells props) ->
  forall c : CellInterface,
    getActualCellCoords props (getActualCellCoords props c)
    = getActualCellCoords props c
    /\ (forall b, b ∈ mergedCells props -> contains b c ->
                  getActualCellCoords props c = anchor b)
    /\ ((forall b, b ∈ mergedCells props -> ~ contains b c) ->
        getActualCellCoords props c = c).
Proof.
  intros Hno c. split; [|split].
  - by apply getActualCellCoords_canonical.
  - intros b Hin Hc. apply getActualCellCoords_entry.
    by apply mergedCellMap_member.
  - intros Hout. apply getActualCellCoords_unmerged.
    apply isMergedCell_false.
    destruct (mergedCellMap props !! (rowIndex c, columnIndex c)) as [b|] eqn:E;
      [|reflexivity].
    apply mergedCellMap_entry_listed in E as [Hin Hc].
    destruct (Hout b Hin Hc).
Qed.

(** The invariant is needed: with two overlapping regions the anchor of the
    first one is an interior cell of the second one. *)
Example getActualCellCoords_overlap :
  let props :=
    {| containerWidth := 800; containerHeight := 600;
       rowHeight := fun _ => 20; columnWidth := fun _ => 60;
       rowCount := 10; columnCount := 10; scrollbarSize := 13;
       showScrollbar := true; frozenRows := 0; frozenColumns := 0;
       mergedCells := [Area.mk 1 2 1 2; Area.mk 0 1 0 1];
       cellAreas := []; enableCellOverlay := false; overscanCount := 1;
       isHiddenRow := None; scale := 1 |} in
  let c := {| rowIndex := 2; columnIndex := 2 |} in
  getActualCellCoords props c = {| rowIndex := 1; columnIndex := 1 |}
  /\ getActualCellCoords props (getActualCellCoords props c)
     = {| rowIndex := 0; columnIndex := 0 |}.
Proof. vm_compute. split; reflexivity. Qed.

(** C10. When the merged regions do not overlap, every cell returned by
    [getCellCoordsFromOffset] is canonical: [getActualCellCoords] maps it to
    itself; it is the top-left anchor of the merged region that contains the
    cell the two index resolvers give for the position, if there is one;
    and it is never an interior cell of a merged region.  A cell is returned
    whenever the stage is mounted. *)
Theorem getCellCoordsFromOffset_canonical
    (hs : Helpers) (props : GridProps) (dom : Dom) (env : RenderEnv)
    (left top : Z) (g : GridState) :
  nonOverlapping (mergedCells props) ->
  let result := fst (getCellCoordsFromOffset hs props dom env left top g) in
  (is_Some (stageRef dom) -> is_Some result)
  /\ (forall cell,
        result = Some cell ->
        getActualCellCoords props cell = cell
        /\ forall b, b ∈ mergedCells props -> contains b cell ->
                     cell = anchor b)
  /\ (forall x y,
        getRelativePositionFromOffset dom left top = Some (x, y) ->
        let rowCall :=
          getRowStartIndexForOffset hs props
            (if isWithinFrozenRowBoundary props env y then y
             else y + scrollTop (scrollState g))
            (instanceProps g) in
        let columnCall :=
          getColumnStartIndexForOffset hs props
            (if isWithinFrozenColumnBoundary props env x then x
             else x + scrollLeft (scrollState g))
            (snd rowCall) in
        let hit :=
          {| rowIndex := fst rowCall; columnIndex := fst columnCall |} in
        result = Some (getActualCellCoords props hit)
        /\ forall b, b ∈ mergedCells props -> contains b hit ->
                     result = Some (anchor b)).
Proof.
  intros Hno result.
  assert (Hhit : forall x y,
    getRelativePositionFromOffset dom left top = Some (x, y) ->
    result
    = Some (getActualCellCoords props
              {| rowIndex :=
                   fst (getRowStartIndexForOffset hs props
                          (if isWithinFrozenRowBoundary props env y then y
                           else y + scrollTop (scrollState g))
                          (instanceProps g));
                 columnIndex :=
                   fst (getColumnStartIndexForOffset hs props
                          (if isWithinFrozenColumnBoundary props env x then x
                           else x + scrollLeft (scrollState g))
                          (snd (getRowStartIndexForOffset hs props
                                  (if isWithinFrozenRowBoundary props env y
                                   then y
                                   else y + scrollTop (scrollState g))
                                  (instanceProps g)))) |})).
  { intros x y Hpos. subst result. unfold getCellCoordsFromOffset.
    rewrite Hpos. unfold_monad. simpl.
    destruct (getRowStartIndexForOffset hs props _ (instanceProps g))
      as [r ip1]. simpl.
    destruct (getColumnStartIndexForOffset hs props _ ip1) as [c ip2]. simpl.
    rewrite getActualCellCoords_bounds. reflexivity. }
  assert (Hcanon : forall cell,
             result = Some cell -> getActualCellCoords props cell = cell).
  { intros cell Hcell.
    destruct (getRelativePositionFromOffset dom left top) as [[x y]|] eqn:Hpos.
    - rewrite (Hhit x y eq_refl) in Hcell. injection Hcell as <-.
      by apply getActualCellCoords_canonical.
    - subst result. unfold getCellCoordsFromOffset in Hcell.
      rewrite Hpos in Hcell. discriminate. }
  split; [|split].
  - intros [f Hf].
    destruct (getRelativePositionFromOffset dom left top) as [[x y]|] eqn:Hpos.
    + rewrite (Hhit x y eq_refl). eauto.
    + unfold getRelativePositionFromOffset in Hpos. rewrite Hf in Hpos.
      destruct (f _). discriminate.
  - intros cell Hcell. split; [by apply Hcanon|].
    intros b Hin Hc. rewrite <- (Hcanon cell Hcell).
    apply getActualCellCoords_entry. by apply mergedCellMap_member.
  - intros x y Hpos rowCall columnCall hit.
    split; [exact (Hhit x y Hpos)|].
    intros b Hin Hc. rewrite (Hhit x y Hpos). f_equal.
    apply getActualCellCoords_entry. by apply mergedCellMap_member.
Qed.

(** ** Scrolling to a cell *)

Lemma cacheOnly_ret {A} (a : A) : cacheOnly (ret a).
Proof. intros g. apply sameButInstance_refl. Qed.

Lemma cacheOnly_get : cacheOnly get.
Proof. intros g. apply sameButInstance_refl. Qed.

Lemma cacheOnly_withInstance {A} (h : I A) : cacheOnly (withInstance h).
Proof. intros g. apply withInstance_same. Qed.

Lemma cacheOnly_readInstance {A} (h : InstanceInterface -> A) :
  cacheOnly (readInstance h).
Proof. intros g. apply sameButInstance_refl. Qed.

Lemma cacheOnly_bind {A B} (m : M A) (k : A -> M B) :
  cacheOnly m -> (forall a, cacheOnly (k a)) -> cacheOnly (bind m k).
Proof.
  intros Hm Hk g. unfold bind. specialize (Hm g).
  destruct (m g) as [a g1]. simpl in Hm.
  eapply sameButInstance_trans; [exact Hm | apply Hk].
Qed.

Ltac cache_only :=
  repeat first
    [ apply cacheOnly_ret
    | apply cacheOnly_get
    | apply cacheOnly_withInstance
    | apply cacheOnly_readInstance
    | apply cacheOnly_bind; [|intros ?]
    | match goal with
      | |- cacheOnly (match ?x with _ => _ end) => destruct x
      end
    | progress cbv zeta ].

Lemma sameButInstance_fields g g' :
  sameButInstance g g' ->
  scrollState g' = scrollState g
  /\ verticalScrollRef g' = verticalScrollRef g
  /\ horizontalScrollRef g' = horizontalScrollRef g
  /\ animationFrames g' = animationFrames g
  /\ resetIsScrollingTimeoutID g' = resetIsScrollingTimeoutID g
  /\ timers g' = timers g /\ now g' = now g.
Proof. intros ->. simpl. auto 10. Qed.

Section ScrollToItem.
Context (hs : Helpers) (props : GridProps) (env : RenderEnv).

(** Building the plan only fills the instance cache. *)
Lemma scrollToItemPlan_cacheOnly item align :
  cacheOnly (scrollToItemPlan hs props env item align).
Proof. unfold scrollToItemPlan. cache_only. Qed.

Lemma scrollToItem_unfold item align g :
  scrollToItem hs props env item align g
  = let '(plan, g1) := scrollToItemPlan hs props env item align g in
    if isOutsideViewport plan then requestAnimationFrame (coords plan) g1
    else scrollTo props (coords plan) g1.
Proof.
  unfold scrollToItem, bind.
  destruct (scrollToItemPlan hs props env item align g) as [plan g1].
  destruct (isOutsideViewport plan); reflexivity.
Qed.

(** What [scrollTo] does to the vertical position. *)
Lemma scrollTo_vertical_None c g :
  opt_scrollTop c = None ->
  let g' := snd (scrollTo props c g) in
  scrollTop (scrollState g') = scrollTop (scrollState g)
  /\ verticalScrollRef g' = verticalScrollRef g.
Proof.
  intros Hc. unfold scrollTo. unfold_monad.
  destruct c as [t l]. simpl in Hc. subst t.
  destruct g as [ip st [v|] [h|] tid tick frames clock ts next];
    destruct (showScrollbar props), l; simpl; auto.
Qed.

Lemma scrollTo_horizontal_None c g :
  opt_scrollLeft c = None ->
  let g' := snd (scrollTo props c g) in
  scrollLeft (scrollState g') = scrollLeft (scrollState g)
  /\ horizontalScrollRef g' = horizontalScrollRef g.
Proof.
  intros Hc. unfold scrollTo. unfold_monad.
  destruct c as [t l]. simpl in Hc. subst l.
  destruct g as [ip st [v|] [h|] tid tick frames clock ts next];
    destruct (showScrollbar props), t; simpl; auto.
Qed.

(** The fields of the plan, read off the body of [scrollToItem]. *)
Lemma plan_isFrozen item align g :
  let plan := fst (scrollToItemPlan hs props env item align g) in
  isFrozenRow plan = andLess (opt_rowIndex item) (frozenRows props)
  /\ isFrozenColumn plan
     = andLess (opt_columnIndex item) (frozenColumns props).
Proof.
  unfold scrollToItemPlan. unfold_monad. simpl. split_calls. auto.
Qed.

Lemma plan_align item align g :
  let plan := fst (scrollToItemPlan hs props env item align g) in
  columnAlign plan
  = (if plan_width plan >? containerWidth props then Align.start else align)
  /\ rowAlign plan
     = (if plan_height plan >? containerHeight props then Align.start
        else align).
Proof.
  unfold scrollToItemPlan. unfold_monad. simpl. split_calls. auto.
Qed.

Lemma plan_size_zero align other g :
  plan_height
    (fst (scrollToItemPlan hs props env
            {| opt_rowIndex := Some 0; opt_columnIndex := other |} align g))
  = 0
  /\ plan_width
       (fst (scrollToItemPlan hs props env
               {| opt_rowIndex := other; opt_columnIndex := Some 0 |}
               align g))
     = 0.
Proof.
  unfold scrollToItemPlan. unfold_monad. simpl.
  split; destruct other; simpl; split_calls; reflexivity.
Qed.

(** A new offset is requested on an axis exactly when the target has an
    index on that axis and is not taken to be frozen. *)
Lemma plan_coords item align g :
  let plan := fst (scrollToItemPlan hs props env item align g) in
  (opt_scrollTop (coords plan) = None
   <-> opt_rowIndex item = None \/ isFrozenRow plan = true)
  /\ (opt_scrollLeft (coords plan) = None
      <-> opt_columnIndex item = None \/ isFrozenColumn plan = true).
Proof.
  unfold scrollToItemPlan. unfold_monad. simpl.
  destruct item as [[r|] [c|]]; simpl;
    try destruct (r =? 0); try destruct (r <? frozenRows props);
    try destruct (c =? 0); try destruct (c <? frozenColumns props);
    simpl; split_calls; intuition congruence.
Qed.

Lemma plan_isOutsideViewport item align g :
  let plan := fst (scrollToItemPlan hs props env item align g) in
  let vp := viewport env in
  isOutsideViewport plan
  = (match opt_rowIndex item with
     | Some r => r >? rowStopIndex vp + (rowStopIndex vp - rowStartIndex vp)
     | None => false
     end
     || match opt_columnIndex item with
        | Some c =>
            c >? columnStopIndex vp
                 + (columnStopIndex vp - columnStartIndex vp)
        | None => false
        end).
Proof.
  unfold scrollToItemPlan. unfold_monad. simpl. split_calls; reflexivity.
Qed.

(** For a target whose index on an axis is not [0] and lies in the frozen
    region of that axis, no offset is requested on that axis and
    [scrollToItem] leaves the position on that axis as it is. *)
Lemma scrollToItem_frozen_row_suppressed r other align g :
  r <> 0 -> r < frozenRows props ->
  let item := {| opt_rowIndex := Some r; opt_columnIndex := other |} in
  let plan := fst (scrollToItemPlan hs props env item align g) in
  let g' := snd (scrollToItem hs props env item align g) in
  opt_scrollTop (coords plan) = None
  /\ scrollTop (scrollState g') = scrollTop (scrollState g)
  /\ verticalScrollRef g' = verticalScrollRef g.
Proof.
  intros Hr Hf item plan g'.
  assert (Hnone : opt_scrollTop (coords plan) = None).
  { apply (plan_coords item align g). right.
    rewrite (proj1 (plan_isFrozen item align g)). simpl.
    apply andb_true_intro. split.
    - apply negb_true_iff, Z.eqb_neq, Hr.
    - apply Z.ltb_lt, Hf. }
  split; [exact Hnone|].
  subst g' plan. rewrite scrollToItem_unfold.
  pose proof (scrollToItemPlan_cacheOnly item align g) as Hsame.
  destruct (scrollToItemPlan hs props env item align g) as [plan g1].
  simpl in *. apply sameButInstance_fields in Hsame as (Hst & Hv & _).
  destruct (isOutsideViewport plan).
  - simpl. rewrite Hst, Hv. auto.
  - destruct (scrollTo_vertical_None (coords plan) g1 Hnone) as [H1 H2].
    rewrite H1, H2, Hst, Hv. auto.
Qed.

Lemma scrollToItem_frozen_column_suppressed c other align g :
  c <> 0 -> c < frozenColumns props ->
  let item := {| opt_rowIndex := other; opt_columnIndex := Some c |} in
  let plan := fst (scrollToItemPlan hs props env item align g) in
  let g' := snd (scrollToItem hs props env item align g) in
  opt_scrollLeft (coords plan) = None
  /\ scrollLeft (scrollState g') = scrollLeft (scrollState g)
  /\ horizontalScrollRef g' = horizontalScrollRef g.
Proof.
  intros Hr Hf item plan g'.
  assert (Hnone : opt_scrollLeft (coords plan) = None).
  { apply (plan_coords item align g). right.
    rewrite (proj2 (plan_isFrozen item align g)). simpl.
    apply andb_true_intro. split.
    - apply negb_true_iff, Z.eqb_neq, Hr.
    - apply Z.ltb_lt, Hf. }
  split; [exact Hnone|].
  subst g' plan. rewrite scrollToItem_unfold.
  pose proof (scrollToItemPlan_cacheOnly item align g) as Hsame.
  destruct (scrollToItemPlan hs props env item align g) as [plan g1].
  simpl in *. apply sameButInstance_fields in Hsame as (Hst & _ & Hh & _).
  destruct (isOutsideViewport plan).
  - simpl. rewrite Hst, Hh. auto.
  - destruct (scrollTo_horizontal_None (coords plan) g1 Hnone) as [H1 H2].
    rewrite H1, H2, Hst, Hh. auto.
Qed.

Lemma plan_width_nonzero c other align g :
  c <> 0 ->
  exists ip,
    plan_width
      (fst (scrollToItemPlan hs props env
              {| opt_rowIndex := other; opt_columnIndex := Some c |}
              align g))
    = getColumnWidth hs c ip.
Proof.
  intros Hc. apply Z.eqb_neq in Hc.
  unfold scrollToItemPlan. unfold_monad. simpl. rewrite Hc. simpl.
  destruct other as [r|]; simpl; try destruct (r =? 0); simpl;
    split_calls; eauto.
Qed.

Lemma plan_height_nonzero r other align g :
  r <> 0 ->
  exists ip,
    plan_height
      (fst (scrollToItemPlan hs props env
              {| opt_rowIndex := Some r; opt_columnIndex := other |}
              align g))
    = getRowHeight hs r ip.
Proof.
  intros Hr. apply Z.eqb_neq in Hr.
  unfold scrollToItemPlan. unfold_monad. simpl. rewrite Hr. simpl.
  destruct other as [c|]; simpl; try destruct (c =? 0); simpl;
    split_calls; eauto.
Qed.

(** *** Deferral to the next animation frame *)

Lemma scrollTo_animationFrames c g :
  animationFrames (snd (scrollTo props c g)) = animationFrames g.
Proof.
  unfold scrollTo. unfold_monad.
  destruct c as [[t|] [l|]],
    g as [ip st [v|] [h|] tid tick frames clock ts next],
    (showScrollbar props); reflexivity.
Qed.

Lemma applyFrames_snoc q c g :
  snd (foldr (fun c k => bind (scrollTo props c) (fun _ => k)) (ret tt)
             (q ++ [c]) g)
  = snd (scrollTo props c
           (snd (foldr (fun c k => bind (scrollTo props c) (fun _ => k))
                       (ret tt) q g))).
Proof.
  revert g. induction q as [|x q IH]; intros g; simpl.
  - unfold bind, ret. destruct (scrollTo props c g) as [[] g']. reflexivity.
  - unfold bind at 1 3. destruct (scrollTo props x g) as [[] g']. apply IH.
Qed.

Lemma runAnimationFrame_snoc c g :
  snd (runAnimationFrame props
         (set_animationFrames (animationFrames g ++ [c]) g))
  = snd (scrollTo props c (snd (runAnimationFrame props g))).
Proof.
  unfold runAnimationFrame. unfold get, modify. unfold bind at 1 2 4 5.
  simpl. apply applyFrames_snoc.
Qed.

End ScrollToItem.

Lemma farBeyond_isOutsideViewport hs props env item align g :
  isOutsideViewport (fst (scrollToItemPlan hs props env item align g)) = true
  <-> farBeyond (viewport env) item.
Proof.
  rewrite (plan_isOutsideViewport hs props env item align g).
  unfold farBeyond. destruct item as [[r|] [c|]]; simpl;
    rewrite ?orb_false_r, ?orb_true_iff, ?Z.gtb_gt; split; intros H;
    try discriminate;
    try (destruct H as [(x & Hx & H)|(x & Hx & H)]; inversion Hx; subst;
         solve [auto]);
    try destruct H as [H|H];
    solve [ left; eexists; split; [reflexivity | exact H]
          | right; eexists; split; [reflexivity | exact H] ].
Qed.

(** C3. A target with index [0] is never taken to be frozen: for row [0]
    (column [0]) [isFrozenRow] ([isFrozenColumn]) is false whatever the
    number of frozen rows (columns), and a new vertical (horizontal) offset
    is requested.  On a grid with two frozen rows and [scrollTop = 500],
    scrolling to row [0] moves [scrollTop] to [0]. *)
Theorem scrollToItem_index_zero_not_suppressed
    (hs : Helpers) (props : GridProps) (env : RenderEnv)
    (align : Align.t) (other : option Z) (g : GridState) :
  let rowPlan :=
    fst (scrollToItemPlan hs props env
           {| opt_rowIndex := Some 0; opt_columnIndex := other |} align g) in
  let columnPlan :=
    fst (scrollToItemPlan hs props env
           {| opt_rowIndex := other; opt_columnIndex := Some 0 |} align g) in
  (isFrozenRow rowPlan = false
   /\ is_Some (opt_scrollTop (coords rowPlan)))
  /\ (isFrozenColumn columnPlan = false
      /\ is_Some (opt_scrollLeft (coords columnPlan)))
  /\ (let rendered := renderEnv SpecHelpers.helpers frozenGrid scrolledState in
      let g' :=
        snd (scrollToItem SpecHelpers.helpers frozenGrid (fst rendered)
               {| opt_rowIndex := Some 0; opt_columnIndex := None |}
               Align.smart (snd rendered)) in
      0 < frozenRows frozenGrid
      /\ scrollTop (scrollState (snd rendered)) = 500
      /\ scrollTop (scrollState g') = 0).
Proof.
  intros rowPlan columnPlan.
  assert (Hr : isFrozenRow rowPlan = false).
  { subst rowPlan. rewrite (proj1 (plan_isFrozen hs props env _ align g)).
    reflexivity. }
  assert (Hc : isFrozenColumn columnPlan = false).
  { subst columnPlan. rewrite (proj2 (plan_isFrozen hs props env _ align g)).
    reflexivity. }
  split; [|split].
  - split; [exact Hr|].
    destruct (opt_scrollTop (coords rowPlan)) eqn:E; [eauto|].
    apply (plan_coords hs props env _ align g) in E as [E|E].
    + discriminate.
    + fold rowPlan in E. congruence.
  - split; [exact Hc|].
    destruct (opt_scrollLeft (coords columnPlan)) eqn:E; [eauto|].
    apply (plan_coords hs props env _ align g) in E as [E|E].
    + discriminate.
    + fold columnPlan in E. congruence.
  - vm_compute. repeat split.
Qed.

(** C4. For a target with index [0] the size compared with the container
    is [0], not the size of the row or column, so the requested alignment is
    kept whenever the container extent is not negative.  On a grid whose
    first column is 1000 wide in a container 800 wide, scrolling to column
    [0] with [center] keeps [center] and requests [scrollLeft = 100]. *)
Theorem scrollToItem_index_zero_keeps_alignment
    (hs : Helpers) (props : GridProps) (env : RenderEnv)
    (align : Align.t) (other : option Z) (g : GridState) :
  let rowPlan :=
    fst (scrollToItemPlan hs props env
           {| opt_rowIndex := Some 0; opt_columnIndex := other |} align g) in
  let columnPlan :=
    fst (scrollToItemPlan hs props env
           {| opt_rowIndex := other; opt_columnIndex := Some 0 |} align g) in
  columnAlign columnPlan
  = (if 0 >? containerWidth props then Align.start else align)
  /\ rowAlign rowPlan
     = (if 0 >? containerHeight props then Align.start else align)
  /\ (let rendered :=
        renderEnv SpecHelpers.helpers wideFirstColumnGrid initialState in
      let planned :=
        scrollToItemPlan SpecHelpers.helpers wideFirstColumnGrid
          (fst rendered)
          {| opt_rowIndex := None; opt_columnIndex := Some 0 |}
          Align.center (snd rendered) in
      getColumnWidth SpecHelpers.helpers 0 (instanceProps (snd planned))
      = 1000
      /\ containerWidth wideFirstColumnGrid = 800
      /\ columnAlign (fst planned) = Align.center
      /\ opt_scrollLeft (coords (fst planned)) = Some 100).
Proof.
  intros rowPlan columnPlan.
  destruct (plan_size_zero hs props env align other g) as [Hh Hw].
  split; [|split].
  - subst columnPlan.
    rewrite (proj1 (plan_align hs props env _ align g)), Hw. reflexivity.
  - subst rowPlan.
    rewrite (proj2 (plan_align hs props env _ align g)), Hh. reflexivity.
  - vm_compute. repeat split.
Qed.

(** For any other index the alignment degrades to [start] when the size of
    the target exceeds the container extent. *)
Lemma scrollToItem_oversized_degrades_to_start
    (hs : Helpers) (props : GridProps) (env : RenderEnv)
    (align : Align.t) (g : GridState) (item : OptionalCellInterface) :
  let plan := fst (scrollToItemPlan hs props env item align g) in
  (plan_width plan > containerWidth props -> columnAlign plan = Align.start)
  /\ (plan_height plan > containerHeight props -> rowAlign plan = Align.start).
Proof.
  intros plan. destruct (plan_align hs props env item align g) as [Hc Hr].
  fold plan in Hc, Hr. rewrite Hc, Hr.
  split; intros H; apply Z.gtb_gt in H; rewrite H; reflexivity.
Qed.

(** C8. When the target index lies more than one span of the rendered
    window past the end of the window on either axis, [scrollToItem]
    changes no scroll position: it queues the computed offsets for the next
    animation frame, where they are applied by [scrollTo].  Otherwise the
    offsets are applied by [scrollTo] at once and nothing is queued. *)
Theorem scrollToItem_defers_far_targets
    (hs : Helpers) (props : GridProps) (env : RenderEnv)
    (item : OptionalCellInterface) (align : Align.t) (g : GridState) :
  let planned := scrollToItemPlan hs props env item align g in
  let plan := fst planned in
  let g1 := snd planned in
  let g' := snd (scrollToItem hs props env item align g) in
  (farBeyond (viewport env) item ->
   scrollState g' = scrollState g
   /\ verticalScrollRef g' = verticalScrollRef g
   /\ horizontalScrollRef g' = horizontalScrollRef g
   /\ animationFrames g' = animationFrames g ++ [coords plan]
   /\ snd (runAnimationFrame props g')
      = snd (scrollTo props (coords plan) (snd (runAnimationFrame props g1))))
  /\ (~ farBeyond (viewport env) item ->
      g' = snd (scrollTo props (coords plan) g1)
      /\ animationFrames g' = animationFrames g).
Proof.
  intros planned plan g1 g'.
  pose proof (farBeyond_isOutsideViewport hs props env item align g) as Hfar.
  pose proof (scrollToItemPlan_cacheOnly hs props env item align g) as Hsame.
  subst g'. rewrite scrollToItem_unfold.
  fold planned in Hfar, Hsame |- *.
  subst plan g1. destruct planned as [plan g1]. simpl in *.
  apply sameButInstance_fields in Hsame as (Hst & Hv & Hh & Hfr & _).
  split.
  - intros H. apply Hfar in H. rewrite H.
    unfold requestAnimationFrame, modify. simpl.
    split; [exact Hst|]. split; [exact Hv|]. split; [exact Hh|].
    split; [by rewrite Hfr|]. apply runAnimationFrame_snoc.
  - intros H.
    destruct (isOutsideViewport plan); [destruct H; by apply Hfar|].
    split; [reflexivity|]. rewrite scrollTo_animationFrames. exact Hfr.
Qed.

(** ** The scrolling flag *)

Lemma dueTimer_single t id d :
  dueTimer t [(id, d)] = if d <=? t then Some (id, d) else None.
Proof.
  unfold dueTimer. cbn. destruct (d <=? t); reflexivity.
Qed.

Lemma cancel_single (id : TimeoutID) (d : Z) :
  filter (fun p : TimeoutID * Z => negb (Nat.eqb (fst p) id)) [(id, d)] = [].
Proof. cbn. rewrite Nat.eqb_refl. reflexivity. Qed.

Lemma handlers_set_isScrolling v g :
  isScrolling (scrollState (snd (handleScroll v g))) = true
  /\ isScrolling (scrollState (snd (handleScrollLeft v g))) = true.
Proof.
  unfold handleScroll, handleScrollLeft, resetIsScrollingDebounced,
    requestTimeout, cancelTimeout. unfold_monad. simpl.
  destruct (resetIsScrollingTimeoutID g); simpl; auto.
Qed.

Lemma advanceTo_settled t g :
  settled g -> now g <= t ->
  fst (advanceTo t g) = []
  /\ settled (snd (advanceTo t g))
  /\ now (snd (advanceTo t g)) = t
  /\ scrollState (snd (advanceTo t g)) = scrollState g.
Proof.
  intros [Ht Hid] Hnow. unfold advanceTo, settled. unfold_monad.
  rewrite Ht. simpl. repeat split; auto. lia.
Qed.

Lemma advanceTo_armed_early t0 t g :
  armed t0 g -> t < t0 + RESET_SCROLL_EVENTS_DEBOUNCE_INTERVAL ->
  fst (advanceTo t g) = []
  /\ now (snd (advanceTo t g)) = Z.max t0 t
  /\ scrollState (snd (advanceTo t g)) = scrollState g
  /\ resetIsScrollingTimeoutID (snd (advanceTo t g))
     = resetIsScrollingTimeoutID g
  /\ timers (snd (advanceTo t g)) = timers g.
Proof.
  intros (Hs & Hnow & id & Hid & Ht) Hlt. unfold advanceTo. unfold_monad.
  rewrite Ht. simpl. unfold_monad. simpl. rewrite ?Ht, dueTimer_single.
  destruct (Z.leb_spec (t0 + RESET_SCROLL_EVENTS_DEBOUNCE_INTERVAL) t);
    [lia|].
  simpl. rewrite Hnow. repeat split; auto.
Qed.

Lemma advanceTo_armed_due t0 t g :
  armed t0 g -> t0 + RESET_SCROLL_EVENTS_DEBOUNCE_INTERVAL <= t ->
  fst (advanceTo t g) = [t0 + RESET_SCROLL_EVENTS_DEBOUNCE_INTERVAL]
  /\ isScrolling (scrollState (snd (advanceTo t g))) = false
  /\ settled (snd (advanceTo t g)).
Proof.
  intros (Hs & Hnow & id & Hid & Ht) Hle.
  unfold advanceTo, settled, resetIsScrolling. unfold_monad.
  rewrite Ht. simpl. unfold_monad. simpl. rewrite ?Ht, dueTimer_single.
  destruct (Z.leb_spec (t0 + RESET_SCROLL_EVENTS_DEBOUNCE_INTERVAL) t);
    [|lia].
  simpl. rewrite ?Ht, cancel_single. simpl. auto.
Qed.

Lemma handle_arms e g :
  atMostOnePending g -> armed (now g) (snd (handle e g)).
Proof.
  unfold armed, settled.
  intros [[Ht Hid]|(id & d & Hid & Ht)];
    destruct e as [t v|t v];
    unfold handle, handleScroll, handleScrollLeft, resetIsScrollingDebounced,
      requestTimeout, cancelTimeout; unfold_monad; simpl;
    rewrite Hid; simpl; rewrite Ht; simpl; rewrite ?cancel_single;
    repeat split; eauto.
Qed.

Lemma deliver_unfold e g :
  deliver e g
  = (fst (advanceTo (eventTime e) g),
     snd (handle e (snd (advanceTo (eventTime e) g)))).
Proof.
  unfold deliver, bind, ret.
  destruct (advanceTo (eventTime e) g) as [fired g1]. simpl.
  destruct (handle e g1) as [[] g2]. reflexivity.
Qed.

Lemma deliverAll_cons e es g :
  deliverAll (e :: es) g
  = (fst (deliver e g) ++ fst (deliverAll es (snd (deliver e g))),
     snd (deliverAll es (snd (deliver e g)))).
Proof.
  simpl. unfold bind, ret.
  destruct (deliver e g) as [fired g1]. simpl.
  destruct (deliverAll es g1) as [rest g2]. reflexivity.
Qed.

Lemma deliver_settled e g :
  settled g -> now g <= eventTime e ->
  fst (deliver e g) = [] /\ armed (eventTime e) (snd (deliver e g)).
Proof.
  intros Hs Hnow.
  destruct (advanceTo_settled (eventTime e) g Hs Hnow) as (Hf & Hs' & Hn & _).
  rewrite deliver_unfold. simpl. split; [exact Hf|].
  rewrite <- Hn at 1. apply handle_arms. by left.
Qed.

Lemma deliver_armed t0 e g :
  armed t0 g ->
  t0 <= eventTime e < t0 + RESET_SCROLL_EVENTS_DEBOUNCE_INTERVAL ->
  fst (deliver e g) = [] /\ armed (eventTime e) (snd (deliver e g)).
Proof.
  intros Ha Hlt.
  destruct (advanceTo_armed_early t0 (eventTime e) g Ha (proj2 Hlt))
    as (Hf & Hn & Hst & Hid & Ht).
  rewrite Z.max_r in Hn by lia.
  destruct Ha as (Hs & Hnow & id & Hid0 & Ht0).
  rewrite deliver_unfold. simpl. split; [exact Hf|].
  rewrite <- Hn at 1. apply handle_arms.
  right. exists id. eexists. rewrite Hid, Ht. eauto.
Qed.

Lemma last_cons_default {A} (l : list A) (x d d' : A) :
  List.last (x :: l) d = List.last (x :: l) d'.
Proof.
  revert x. induction l as [|y l IH]; intros x; [reflexivity|].
  change (List.last (y :: l) d = List.last (y :: l) d'). apply IH.
Qed.

Lemma deliverAll_armed es : forall t0 g,
  armed t0 g -> burstAfter t0 es ->
  fst (deliverAll es g) = []
  /\ armed (eventTime (List.last es (VerticalScroll t0 0)))
           (snd (deliverAll es g)).
Proof.
  induction es as [|e es IH]; intros t0 g Ha Hb.
  - simpl. auto.
  - destruct Hb as [Hlt Hb].
    destruct (deliver_armed t0 e g Ha Hlt) as [Hf Ha'].
    rewrite deliverAll_cons. simpl fst. simpl snd.
    specialize (IH _ _ Ha' Hb) as [Hf' Ha''].
    rewrite Hf, Hf'. split; [reflexivity|].
    destruct es as [|e' es']; [exact Ha''|].
    change (List.last (e :: e' :: es') (VerticalScroll t0 0))
      with (List.last (e' :: es') (VerticalScroll t0 0)).
    rewrite (last_cons_default es' e' _ (VerticalScroll (eventTime e) 0)).
    exact Ha''.
Qed.

(** C9. A burst of scroll events that starts with no timer pending: every
    event sets [isScrolling] and leaves exactly one pending timeout, the
    debounce timer re-armed with the interval of 150 time-units.  No
    scrolling-cleared transition runs during the burst, none runs before
    150 time-units have passed since the last event, and exactly one runs
    once they have, at the time of the last event plus 150; it clears
    [isScrolling] and leaves no timer pending. *)
Theorem debounce_clears_once_after_burst
    (es : list ScrollEvent) (g : GridState) (t : Z) :
  settled g -> burst (now g) es ->
  let during := deliverAll es g in
  let after := advanceTo t (snd during) in
  let due := lastTime es + 150 in
  RESET_SCROLL_EVENTS_DEBOUNCE_INTERVAL = 150
  /\ (forall v g0,
        isScrolling (scrollState (snd (handleScroll v g0))) = true
        /\ isScrolling (scrollState (snd (handleScrollLeft v g0))) = true)
  /\ fst during = []
  /\ isScrolling (scrollState (snd during)) = true
  /\ (exists id, resetIsScrollingTimeoutID (snd during) = Some id
                 /\ timers (snd during) = [(id, due)])
  /\ (t < due ->
      fst after = [] /\ isScrolling (scrollState (snd after)) = true)
  /\ (due <= t ->
      fst after = [due]
      /\ isScrolling (scrollState (snd after)) = false
      /\ timers (snd after) = []
      /\ resetIsScrollingTimeoutID (snd after) = None).
Proof.
  intros Hs Hb during after due.
  destruct es as [|e es]; [destruct Hb|]. destruct Hb as [Hnow Hb].
  destruct (deliver_settled e g Hs Hnow) as [Hf1 Ha1].
  destruct (deliverAll_armed es _ _ Ha1 Hb) as [Hf2 Ha2].
  assert (Hd : fst during = []
               /\ armed (lastTime (e :: es)) (snd during)).
  { subst during. rewrite deliverAll_cons. simpl fst. simpl snd.
    rewrite Hf1, Hf2. split; [reflexivity|].
    unfold lastTime.
    destruct es as [|e' es']; [exact Ha2|].
    rewrite (last_cons_default es' e' _ (VerticalScroll (eventTime e) 0)).
    exact Ha2. }
  destruct Hd as [Hfd Had].
  split; [reflexivity|]. split; [apply handlers_set_isScrolling|].
  split; [exact Hfd|].
  pose proof Had as (Hflag & Hclock & id & Hid & Htimers).
  split; [exact Hflag|]. split; [eauto|].
  split.
  - intros Hearly. subst after due.
    destruct (advanceTo_armed_early _ t _ Had) as (H1 & _ & H2 & _).
    { unfold RESET_SCROLL_EVENTS_DEBOUNCE_INTERVAL. lia. }
    rewrite H1, H2. auto.
  - intros Hdue. subst after due.
    destruct (advanceTo_armed_due _ t _ Had) as (H1 & H2 & H3 & H4).
    { unfold RESET_SCROLL_EVENTS_DEBOUNCE_INTERVAL. lia. }
    auto.
Qed.

(** ** The render pass: merged regions *)

Lemma timesRendered_anchors b calls :
  timesRendered b calls
  = length (filter (fun a => a = (Area.top b, Area.left b))
                   (mergedAnchors calls)).
Proof.
  unfold timesRendered, mergedAnchors.
  induction calls as [|p calls IH]; [reflexivity|].
  rewrite filter_cons. simpl omap.
  destruct (decide (rendersRegion b p)) as [H|H]; unfold rendersRegion in H.
  - rewrite H, filter_cons, decide_True by reflexivity.
    simpl. f_equal. exact IH.
  - destruct (mergedAnchor p) as [a|] eqn:E; [|exact IH].
    rewrite filter_cons, decide_False by congruence. exact IH.
Qed.

Lemma NoDup_filter_eq_le {A} `{EqDecision A} (l : list A) (a : A) :
  NoDup l -> (length (filter (fun x => x = a) l) <= 1)%nat.
Proof.
  induction 1 as [|x l Hx Hl IH]; [simpl; lia|].
  rewrite filter_cons. destruct (decide (x = a)) as [->|Hne]; [|exact IH].
  simpl. replace (filter (fun x => x = a) l) with (@nil A); [simpl; lia|].
  symmetry. clear IH Hl. induction l as [|y l IH]; [reflexivity|].
  rewrite filter_cons. destruct (decide (y = a)) as [->|Hy].
  - destruct Hx. by left.
  - apply IH. intros H. apply Hx. by right.
Qed.

Lemma elem_of_filter_eq_ge {A} `{EqDecision A} (l : list A) (a : A) :
  a ∈ l -> (1 <= length (filter (fun x => x = a) l))%nat.
Proof.
  induction l as [|x l IH]; intros H; [inversion H|].
  rewrite filter_cons. destruct (decide (x = a)) as [->|Hne]; [simpl; lia|].
  apply IH. apply elem_of_cons in H as [H|H]; [congruence | exact H].
Qed.

Section RenderPass.
Context (hs : Helpers) (props : GridProps).

(** One cell of a walk: a merged cell whose region is already in the set
    is skipped; otherwise the cell is drawn once, at the anchor of its
    region when it is merged, and the anchor enters the set. *)
Lemma renderCell_spec (r c : Z) (s : gset (Z * Z)) (g : GridState) :
  let cell := {| rowIndex := r; columnIndex := c |} in
  let b := getCellBounds props cell in
  let a := (Area.top b, Area.left b) in
  let res := fst (renderCell hs props r c s g) in
  if isMergedCell props cell then
    if decide (a ∈ s) then res = (None, s)
    else exists p, res = (Some p, {[a]} ∪ s) /\ mergedAnchor p = Some a
  else exists p, res = (Some p, s) /\ mergedAnchor p = None.
Proof.
  intros cell b a res. subst res. unfold renderCell.
  fold cell. fold b. unfold cellIdentifier. fold a.
  destruct (isMergedCell props cell); simpl.
  - destruct (decide (a ∈ s)) as [Hin|Hin].
    + rewrite bool_decide_eq_true_2 by exact Hin. reflexivity.
    + rewrite bool_decide_eq_false_2 by exact Hin.
      unfold_monad. simpl. split_calls. eexists. split; reflexivity.
  - unfold_monad. simpl. split_calls. eexists. split; reflexivity.
Qed.

Lemma renderCells_cons (r c : Z) (rest : list (Z * Z))
    (s : gset (Z * Z)) (g : GridState) :
  fst (renderCells hs props ((r, c) :: rest) s g)
  = let first := renderCell hs props r c s g in
    let others := renderCells hs props rest (snd (fst first)) (snd first) in
    (option_list (fst (fst first)) ++ fst (fst others), snd (fst others)).
Proof.
  simpl. unfold bind, ret.
  destruct (renderCell hs props r c s g) as [[o s1] g1]. simpl.
  destruct (renderCells hs props rest s1 g1) as [[out s2] g2]. reflexivity.
Qed.

(** A walk draws every merged region at most once and never one that is
    already in the set; the set grows by exactly the anchors drawn; and
    the region of every merged cell the walk reaches is in the set
    afterwards. *)
Lemma renderCells_spec (visited : list (Z * Z)) :
  forall (s : gset (Z * Z)) (g : GridState),
  let out := fst (fst (renderCells hs props visited s g)) in
  let s' := snd (fst (renderCells hs props visited s g)) in
  NoDup (mergedAnchors out)
  /\ (forall a, a ∈ mergedAnchors out -> a ∉ s)
  /\ (forall a, a ∈ s' <-> a ∈ s \/ a ∈ mergedAnchors out)
  /\ (forall r c, (r, c) ∈ visited ->
        isMergedCell props {| rowIndex := r; columnIndex := c |} = true ->
        let b := getCellBounds props {| rowIndex := r; columnIndex := c |} in
        (Area.top b, Area.left b) ∈ s').
Proof.
  induction visited as [|[r c] rest IH]; intros s g.
  - simpl. unfold mergedAnchors. simpl.
    split; [apply NoDup_nil; exact Logic.I|].
    split; [intros a H; inversion H|].
    split; [intros a; split; [auto | intros [H|H]; [exact H | inversion H]]|].
    intros r c H. inversion H.
  - cbv zeta. rewrite renderCells_cons. cbv zeta. simpl fst. simpl snd.
    pose proof (renderCell_spec r c s g) as Hcell. cbv zeta in Hcell.
    destruct (renderCell hs props r c s g) as [[o s1] g1]. simpl in *.
    specialize (IH s1 g1). cbv zeta in IH.
    destruct (renderCells hs props rest s1 g1) as [[out s2] g2].
    simpl in *. destruct IH as (Hnd & Hfresh & Hset & Hvis).
    unfold mergedAnchors in *. rewrite omap_app.
    set (cell := {| rowIndex := r; columnIndex := c |}) in *.
    set (a := (Area.top (getCellBounds props cell),
               Area.left (getCellBounds props cell))) in *.
    assert (Hfirst :
      (omap mergedAnchor (option_list o) = [] /\ s1 = s
       /\ (isMergedCell props cell = true -> a ∈ s))
      \/ (omap mergedAnchor (option_list o) = [a] /\ s1 = {[a]} ∪ s
          /\ a ∉ s)).
    { destruct (isMergedCell props cell).
      - destruct (decide (a ∈ s)) as [Hin|Hin].
        + inversion Hcell; subst. left. auto.
        + destruct Hcell as (p & [= -> ->] & Hp). right. simpl.
          rewrite Hp. auto.
      - destruct Hcell as (p & [= -> ->] & Hp). left. simpl.
        rewrite Hp. split; [reflexivity|]. split; [reflexivity|].
        discriminate. }
    destruct Hfirst as [(-> & -> & Hin)|(-> & -> & Hnin)]; simpl.
    + split; [exact Hnd|]. split; [exact Hfresh|]. split; [exact Hset|].
      intros r' c' H Hm. apply elem_of_cons in H as [[= -> ->]|H].
      * apply Hset. left. apply Hin, Hm.
      * by apply Hvis.
    + split.
      { apply NoDup_cons. split; [|exact Hnd].
        intros H. apply Hfresh in H. apply H.
        apply elem_of_union. left. by apply elem_of_singleton. }
      split.
      { intros x H. apply elem_of_cons in H as [->|H]; [exact Hnin|].
        apply Hfresh in H. intros Hx. apply H, elem_of_union. by right. }
      split.
      { intros x.
        rewrite Hset, elem_of_cons, elem_of_union, elem_of_singleton.
        tauto. }
      intros r' c' H Hm. apply elem_of_cons in H as [[= -> ->]|H].
      * apply Hset. left. apply elem_of_union. left.
        by apply elem_of_singleton.
      * by apply Hvis.
Qed.

Lemma renderRanges_unmerged areas : forall g,
  mergedAnchors (fst (renderRanges hs props areas g)) = [].
Proof.
  induction areas as [|a areas IH]; intros g; simpl; [reflexivity|].
  destruct (_ || _); [apply IH|].
  unfold getCellOffsetFromCoords. unfold_monad. simpl. split_calls.
  match goal with
  | E : renderRanges hs props areas ?g' = _ |- _ =>
      specialize (IH g'); rewrite E in IH
  end.
  exact IH.
Qed.

End RenderPass.

Lemma getCellBounds_entry props r c b :
  mergedCellMap props !! cellIdentifier r c = Some b ->
  isMergedCell props {| rowIndex := r; columnIndex := c |} = true
  /\ getCellBounds props {| rowIndex := r; columnIndex := c |} = b.
Proof.
  intros Hb.
  assert (Hm : isMergedCell props {| rowIndex := r; columnIndex := c |} = true)
    by (apply isMergedCell_true; eauto).
  split; [exact Hm|]. unfold getCellBounds. rewrite Hm. simpl.
  rewrite Hb. reflexivity.
Qed.

Lemma renderPass_renderedOnce hs props g : renderedOnce hs props g.
Proof.
  unfold renderedOnce, renderPass, bind, ret.
  destruct (renderEnv hs props g) as [env g0]. simpl fst.
  set (vp := viewport env).
  pose proof (renderCells_spec hs props (mainWalk props vp) ∅ g0) as H1.
  destruct (renderCells hs props (mainWalk props vp) ∅ g0) as [[o1 s1] g1].
  pose proof (renderRanges_unmerged hs props (cellAreas props) g1) as Hr.
  destruct (renderRanges hs props (cellAreas props) g1) as [rgs g2].
  pose proof (renderCells_spec hs props (frozenRowWalk props vp) s1 g2) as H2.
  simpl snd. simpl fst.
  destruct (renderCells hs props (frozenRowWalk props vp) s1 g2)
    as [[o2 s2] g3].
  pose proof (renderCells_spec hs props (frozenColumnWalk props vp) s2 g3)
    as H3.
  simpl snd. simpl fst.
  destruct (renderCells hs props (frozenColumnWalk props vp) s2 g3)
    as [[o3 s3] g4].
  pose proof (renderCells_spec hs props (frozenIntersectionWalk props vp) s3 g4)
    as H4.
  simpl snd. simpl fst.
  destruct (renderCells hs props (frozenIntersectionWalk props vp) s3 g4)
    as [[o4 s4] g5].
  simpl in *.
  destruct H1 as (N1 & F1 & S1 & V1), H2 as (N2 & F2 & S2 & V2),
    H3 as (N3 & F3 & S3 & V3), H4 as (N4 & F4 & S4 & V4).
  unfold itemRendererCalls. simpl.
  assert (Hanchors :
    mergedAnchors (o1 ++ rgs ++ o2 ++ o3 ++ o4)
    = mergedAnchors o1 ++ mergedAnchors o2 ++ mergedAnchors o3
      ++ mergedAnchors o4).
  { unfold mergedAnchors in *. rewrite !omap_app, Hr. reflexivity. }
  assert (Hnodup : NoDup (mergedAnchors (o1 ++ rgs ++ o2 ++ o3 ++ o4))).
  { rewrite Hanchors. apply NoDup_app. split; [exact N1|]. split.
    - intros a Ha Hin.
      assert (Hs1 : a ∈ s1) by (apply S1; auto).
      assert (Hs2 : a ∈ s2) by (apply S2; auto).
      assert (Hs3 : a ∈ s3) by (apply S3; auto).
      apply elem_of_app in Hin as [Hin|Hin]; [exact (F2 a Hin Hs1)|].
      apply elem_of_app in Hin as [Hin|Hin]; [exact (F3 a Hin Hs2)|].
      exact (F4 a Hin Hs3).
    - apply NoDup_app. split; [exact N2|]. split.
      + intros a Ha Hin.
        assert (Hs2 : a ∈ s2) by (apply S2; auto).
        assert (Hs3 : a ∈ s3) by (apply S3; auto).
        apply elem_of_app in Hin as [Hin|Hin]; [exact (F3 a Hin Hs2)|].
        exact (F4 a Hin Hs3).
      + apply NoDup_app. split; [exact N3|]. split; [|exact N4].
        intros a Ha Hin.
        assert (Hs3 : a ∈ s3) by (apply S3; auto).
        exact (F4 a Hin Hs3). }
  assert (Hexact : forall r c b,
            (r, c) ∈ enumerated props vp ->
            mergedCellMap props !! cellIdentifier r c = Some b ->
            timesRendered b (o1 ++ rgs ++ o2 ++ o3 ++ o4) = 1%nat);
    [|split; [|split; [exact Hexact|]]].
  - intros r c b Hin Hb.
    apply getCellBounds_entry in Hb as [Hm Hb].
    assert (Hs4 : (Area.top b, Area.left b) ∈ s4).
    { unfold enumerated in Hin. rewrite <- Hb.
      apply elem_of_app in Hin as [Hin|Hin].
      { apply S4. left. apply S3. left. apply S2. left. by apply V1. }
      apply elem_of_app in Hin as [Hin|Hin].
      { apply S4. left. apply S3. left. by apply V2. }
      apply elem_of_app in Hin as [Hin|Hin].
      { apply S4. left. by apply V3. }
      by apply V4. }
    assert (Hcalls : (Area.top b, Area.left b)
                     ∈ mergedAnchors (o1 ++ rgs ++ o2 ++ o3 ++ o4)).
    { rewrite Hanchors, !elem_of_app.
      apply S4 in Hs4 as [Hs3|?]; [|tauto].
      apply S3 in Hs3 as [Hs2|?]; [|tauto].
      apply S2 in Hs2 as [Hs1|?]; [|tauto].
      apply S1 in Hs1 as [Hs0|?]; [|tauto].
      apply elem_of_empty in Hs0. destruct Hs0. }
    rewrite timesRendered_anchors.
    apply Nat.le_antisymm.
    + by apply NoDup_filter_eq_le.
    + by apply elem_of_filter_eq_ge.
  - intros b. rewrite timesRendered_anchors.
    by apply NoDup_filter_eq_le.
  - intros Hno r c b Hin Hb Hc. apply (Hexact r c b Hin).
    exact (mergedCellMap_member props
             {| rowIndex := r; columnIndex := c |} b Hno Hb Hc).
Qed.

(** C7. Within one render pass, across the main walk, the extended-range
    loop and the three frozen walks, [itemRenderer] is called at most once
    for every merged region, and exactly once for the region of every
    merged cell a walk reaches (for every listed region with a cell that a
    walk reaches, when the regions do not overlap).  The set of drawn
    regions is local to the pass: the same holds for the pass that follows,
    starting from the state the first pass leaves behind. *)
Theorem renderPass_merged_region_once
    (hs : Helpers) (props : GridProps) (g : GridState) :
  renderedOnce hs props g
  /\ renderedOnce hs props (snd (renderPass hs props g)).
Proof. split; apply renderPass_renderedOnce. Qed.

(** ** The resolvers of the specification obey the resolver contract *)

Section SpecResolvers.
Import SpecHelpers.

Lemma scanForOffset_bounds a props fuel : forall i target ip,
i <= fst (scanForOffset a props fuel i target ip) <= i + Z.of_nat fuel.
Proof.
induction fuel as [|fuel IH]; intros i target ip.
- simpl. lia.
- cbn [scanForOffset].
  destruct (getOffset a props i ip) as [off ip1].
  destruct (target <? off + getSize a i ip1); [simpl; lia|].
  specialize (IH (i + 1) target ip1). lia.
Qed.

Lemma indexForOffset_bounds a props target ip :
0 <= fst (indexForOffset a props target ip) <= Z.max 0 (count a props - 1).
Proof.
unfold indexForOffset.
destruct (Z.leb_spec (count a props) 0); [simpl; lia|].
pose proof (scanForOffset_bounds a props (Z.to_nat (count a props - 1))
              0 (Z.max 0 target) ip).
lia.
Qed.

Lemma walkToStop_bounds a props fuel : forall stop reached maxOffset ip,
stop <= fst (walkToStop a props fuel stop reached maxOffset ip)
     <= Z.max stop (count a props - 1).
Proof.
induction fuel as [|fuel IH]; intros stop reached maxOffset ip.
- simpl. lia.
- cbn [walkToStop].
  destruct (Z.ltb_spec stop (count a props - 1)); simpl; [|lia].
  destruct (reached <? maxOffset); simpl; [|lia].
  destruct (getOffset a props (stop + 1) ip) as [off ip1].
  specialize (IH (stop + 1)
                 (reached + getSize a (stop + 1) ip1) maxOffset ip1).
  lia.
Qed.

Lemma stopIndexForStart_bounds a props start scrollOffset ip :
0 <= start <= Z.max 0 (count a props - 1) ->
start <= fst (stopIndexForStart a props start scrollOffset ip)
      <= Z.max 0 (count a props - 1).
Proof.
intros Hs. unfold stopIndexForStart.
destruct (Z.leb_spec (count a props) 0); [simpl; lia|].
destruct (getOffset a props start ip) as [off ip1].
match goal with
| |- context [walkToStop a props ?f ?s ?r ?m ?i] =>
    pose proof (walkToStop_bounds a props f s r m i)
end.
lia.
Qed.

End SpecResolvers.

(** With the resolvers of the specification the resolver contract holds in
    every state, and with it the condition of C1 on the two precise indices
    ([resolved_startOnAxis]). *)
Lemma specHelpers_resolved (props : GridProps) (g : GridState) :
  resolved (rowCount props)
           (fst (getVerticalRangeToRender SpecHelpers.helpers props g))
  /\ resolved (columnCount props)
              (fst (getHorizontalRangeToRender SpecHelpers.helpers props g)).
Proof.
  unfold resolved, getVerticalRangeToRender, getHorizontalRangeToRender.
  unfold_monad. simpl. split.
  - pose proof (indexForOffset_bounds SpecHelpers.RowAxis props
                  (scrollTop (scrollState g)) (instanceProps g)) as Hs.
    destruct (SpecHelpers.indexForOffset SpecHelpers.RowAxis props
                (scrollTop (scrollState g)) (instanceProps g)) as [s ip1].
    simpl in *.
    pose proof (stopIndexForStart_bounds SpecHelpers.RowAxis props
                  s (scrollTop (scrollState g)) ip1 Hs) as He.
    destruct (SpecHelpers.stopIndexForStart SpecHelpers.RowAxis props s
                (scrollTop (scrollState g)) ip1) as [e ip2].
    simpl in *. lia.
  - pose proof (indexForOffset_bounds SpecHelpers.ColumnAxis props
                  (scrollLeft (scrollState g)) (instanceProps g)) as Hs.
    destruct (SpecHelpers.indexForOffset SpecHelpers.ColumnAxis props
                (scrollLeft (scrollState g)) (instanceProps g)) as [s ip1].
    simpl in *.
    pose proof (stopIndexForStart_bounds SpecHelpers.ColumnAxis
                  props s (scrollLeft (scrollState g)) ip1 Hs) as He.
    destruct (SpecHelpers.stopIndexForStart SpecHelpers.ColumnAxis props s
                (scrollLeft (scrollState g)) ip1) as [e ip2].
    simpl in *. lia.
Qed.

(** The start index has no upper clamp of its own: with a resolver that
    answers a row past the end of a ten-row axis, the overscanned start
    index is [49] and the range is not on the axis, in every state.  The
    condition of C1 on the precise start index cannot be dropped. *)
Lemma rangeToRender_start_not_clamped (g : GridState) :
  let v :=
    fst (getVerticalRangeToRender lateStartHelpers (defaultProps 10 10) g) in
  clamped 10 v /\ overscannedStart v = 49 /\ ~ withinAxis 10 v.
Proof.
  intros v.
  destruct (getVerticalRangeToRender_shape lateStartHelpers
              (defaultProps 10 10) g) as [Hs He].
  fold v in Hs, He.
  assert (Hclamped : clamped 10 v) by exact (clamp_clamped 10 v _ _ Hs He).
  assert (Hstart : preciseStart v = 50 /\ preciseStop v = 50).
  { subst v. unfold getVerticalRangeToRender. unfold_monad. simpl. auto. }
  destruct Hstart as [Hstart Hstop].
  assert (Hback : verticalOverscanBackward (defaultProps 10 10)
                    (scrollState g) = 1).
  { unfold verticalOverscanBackward. simpl. destruct (_ || _); reflexivity. }
  rewrite Hstart, Hback in Hs.
  split; [exact Hclamped|]. split; [exact Hs|].
  intros [Hon _]. assert (Hlt : 0 < 10) by lia. specialize (Hon Hlt). lia.
Qed.

(** ** Concrete runs *)

Example range_of_default_grid :
  fst (getVerticalRangeToRender SpecHelpers.helpers (defaultProps 100 10)
         initialState)
  = {| overscannedStart := 0; overscannedStop := 30;
       preciseStart := 0; preciseStop := 29 |}
  /\ fst (getVerticalRangeToRender SpecHelpers.helpers overscanGrid
            scrollingDownState)
     = {| overscannedStart := 19; overscannedStop := 52;
          preciseStart := 20; preciseStop := 49 |}
  /\ fst (getVerticalRangeToRender SpecHelpers.helpers (defaultProps 0 0)
            initialState)
     = {| overscannedStart := 0; overscannedStop := 0;
          preciseStart := 0; preciseStop := 0 |}.
Proof. vm_compute. repeat split. Qed.

(** The alignment scenario of the specification: 100 rows of height 20 in a
    viewport of height 600; aligning row 80 at the end gives
    [offset 81 - 600]. *)
Example scrollToItem_end_scenario :
  let rendered :=
    renderEnv SpecHelpers.helpers (defaultProps 100 10) initialState in
  coords
    (fst (scrollToItemPlan SpecHelpers.helpers (defaultProps 100 10)
            (fst rendered)
            {| opt_rowIndex := Some 80; opt_columnIndex := None |}
            Align.end_ (snd rendered)))
  = {| opt_scrollTop := Some (81 * 20 - 600); opt_scrollLeft := None |}.
Proof. vm_compute. reflexivity. Qed.

(** Invalidating from index 10 and then asking for the offset of index 15
    measures again up to index 15. *)
Example invalidate_then_measure :
  let measured :=
    snd (SpecHelpers.getOffset SpecHelpers.RowAxis (defaultProps 100 10) 40
           initialInstance) in
  let g := set_instanceProps measured initialState in
  let g1 :=
    snd (resetAfterIndices
           {| opt_rowIndex := Some 10; opt_columnIndex := None |} true g) in
  let after :=
    SpecHelpers.getOffset SpecHelpers.RowAxis (defaultProps 100 10) 15
      (instanceProps g1) in
  lastMeasuredRowIndex measured = 40
  /\ lastMeasuredRowIndex (instanceProps g1) = 9
  /\ fst after = 300
  /\ lastMeasuredRowIndex (snd after) = 15.
Proof. vm_compute. repeat split. Qed.

Example renderPass_merged_grid :
  let out := fst (renderPass SpecHelpers.helpers mergedGrid initialState) in
  map (fun p => (r_rowIndex p, r_columnIndex p)) (cells out)
  = [(1, 0); (2, 3); (2, 4); (3, 3); (3, 4); (4, 1); (4, 2); (4, 4);
     (5, 1); (5, 2); (5, 3); (5, 4)]
  /\ map (fun p => (r_rowIndex p, r_columnIndex p)) (frozenRowCells out)
     = [(0, 1); (0, 2); (0, 3); (0, 4); (1, 3); (1, 4)]
  /\ map (fun p => (r_rowIndex p, r_columnIndex p)) (frozenColumnCells out)
     = [(4, 0); (5, 0)]
  /\ map (fun p => (r_rowIndex p, r_columnIndex p))
         (frozenIntersectionCells out)
     = [(0, 0)].
Proof. vm_compute. repeat split. Qed.

(** ** The theorems on concrete grids *)

Lemma rangeToRender_within_bounds_witness :
  let props := defaultProps 100 10 in
  let v := fst (getVerticalRangeToRender SpecHelpers.helpers props
                  initialState) in
  let h := fst (getHorizontalRangeToRender SpecHelpers.helpers props
                  initialState) in
  (startOnAxis 100 v /\ startOnAxis 10 h)
  /\ (withinAxis 100 v /\ withinAxis 10 h).
Proof.
  intros props v h.
  assert (Hv : startOnAxis 100 v) by (vm_compute; split; discriminate).
  assert (Hh : startOnAxis 10 h) by (vm_compute; split; discriminate).
  split; [split; assumption|].
  destruct (rangeToRender_within_bounds SpecHelpers.helpers props
              initialState) as (_ & Hrows & Hcolumns).
  split; [exact (Hrows Hv) | exact (Hcolumns Hh)].
Defined.

Lemma overscan_direction_sensitive_witness :
  let st := scrollState scrollingDownState in
  (isScrolling st = true /\ verticalScrollDirection st = Direction.Down)
  /\ verticalOverscanBackward overscanGrid st = 1
  /\ verticalOverscanForward overscanGrid st = 3.
Proof.
  intros st.
  split; [split; reflexivity|].
  destruct (overscan_direction_sensitive SpecHelpers.helpers overscanGrid
              scrollingDownState) as (_ & Hscrolling & _).
  exact (proj1 (Hscrolling eq_refl) eq_refl).
Defined.

Lemma getActualCellCoords_idempotent_witness :
  let c := {| rowIndex := 2; columnIndex := 1 |} in
  nonOverlapping (mergedCells mergedGrid)
  /\ getActualCellCoords mergedGrid (getActualCellCoords mergedGrid c)
     = getActualCellCoords mergedGrid c
  /\ getActualCellCoords mergedGrid c = anchor (Area.mk 1 3 0 2).
Proof.
  intros c.
  assert (Hno : nonOverlapping (mergedCells mergedGrid)).
  { apply (bool_decide_unpack _). vm_compute. exact Logic.I. }
  split; [exact Hno|].
  destruct (getActualCellCoords_idempotent mergedGrid Hno c)
    as (Hidem & Hanchor & _).
  split; [exact Hidem|].
  apply Hanchor.
  - apply (bool_decide_unpack _). vm_compute. exact Logic.I.
  - unfold contains. simpl. lia.
Defined.

Lemma getCellCoordsFromOffset_canonical_witness :
  let env := fst (renderEnv SpecHelpers.helpers mergedGrid initialState) in
  let hit :=
    fst (getCellCoordsFromOffset SpecHelpers.helpers mergedGrid plainDom env
           130 70 initialState) in
  nonOverlapping (mergedCells mergedGrid)
  /\ hit = Some {| rowIndex := 1; columnIndex := 0 |}
  /\ getActualCellCoords mergedGrid {| rowIndex := 1; columnIndex := 0 |}
     = {| rowIndex := 1; columnIndex := 0 |}.
Proof.
  intros env hit.
  assert (Hno : nonOverlapping (mergedCells mergedGrid)).
  { apply (bool_decide_unpack _). vm_compute. exact Logic.I. }
  assert (Hhit : hit = Some {| rowIndex := 1; columnIndex := 0 |})
    by (vm_compute; reflexivity).
  split; [exact Hno|]. split; [exact Hhit|].
  destruct (getCellCoordsFromOffset_canonical SpecHelpers.helpers mergedGrid
              plainDom env 130 70 initialState Hno) as (_ & Hcanon & _).
  exact (proj1 (Hcanon _ Hhit)).
Defined.

Lemma renderPass_merged_region_once_witness :
  timesRendered (Area.mk 1 3 0 2)
    (itemRendererCalls
       (fst (renderPass SpecHelpers.helpers mergedGrid initialState)))
  = 1%nat.
Proof.
  destruct (renderPass_merged_region_once SpecHelpers.helpers mergedGrid
              initialState) as [(_ & _ & Hlisted) _].
  assert (Hno : nonOverlapping (mergedCells mergedGrid)).
  { apply (bool_decide_unpack _). vm_compute. exact Logic.I. }
  apply (Hlisted Hno 2 1).
  - apply (bool_decide_unpack _). vm_compute. exact Logic.I.
  - apply (bool_decide_unpack _). vm_compute. exact Logic.I.
  - unfold contains. simpl. lia.
Defined.

Lemma scrollToItem_defers_far_targets_witness :
  let props := defaultProps 100 10 in
  let rendered := renderEnv SpecHelpers.helpers props initialState in
  let far := {| opt_rowIndex := Some 90; opt_columnIndex := None |} in
  let near := {| opt_rowIndex := Some 40; opt_columnIndex := None |} in
  let gFar :=
    snd (scrollToItem SpecHelpers.helpers props (fst rendered) far
           Align.start (snd rendered)) in
  let gNear :=
    snd (scrollToItem SpecHelpers.helpers props (fst rendered) near
           Align.start (snd rendered)) in
  (farBeyond (viewport (fst rendered)) far
   /\ ~ farBeyond (viewport (fst rendered)) near)
  /\ verticalScrollRef gFar = Some 0
  /\ animationFrames gFar
     = [{| opt_scrollTop := Some 1800; opt_scrollLeft := None |}]
  /\ verticalScrollRef gNear = Some 800
  /\ animationFrames gNear = [].
Proof.
  intros props rendered far near gFar gNear.
  assert (Hfar : farBeyond (viewport (fst rendered)) far).
  { left. exists 90. split; [reflexivity|]. vm_compute. reflexivity. }
  assert (Hnear : ~ farBeyond (viewport (fst rendered)) near).
  { intros [(r & Hr & H)|(c & Hc & _)]; [|discriminate].
    injection Hr as <-. vm_compute in H. discriminate. }
  split; [split; assumption|].
  destruct (scrollToItem_defers_far_targets SpecHelpers.helpers props
              (fst rendered) far Align.start (snd rendered))
    as [Hdeferred _].
  destruct (Hdeferred Hfar) as (_ & Hv & _ & Hframes & _).
  destruct (scrollToItem_defers_far_targets SpecHelpers.helpers props
              (fst rendered) near Align.start (snd rendered))
    as [_ Himmediate].
  destruct (Himmediate Hnear) as [Hnow Hqueue].
  split; [exact Hv|]. split; [exact Hframes|].
  split; [|exact Hqueue].
  change (verticalScrollRef gNear = Some 800).
  unfold gNear. rewrite Hnow. vm_compute. reflexivity.
Defined.

Lemma debounce_clears_once_after_burst_witness :
  (settled initialState /\ burst (now initialState) fiveWheelEvents)
  /\ fst (deliverAll fiveWheelEvents initialState) = []
  /\ fst (advanceTo 1000 (snd (deliverAll fiveWheelEvents initialState)))
     = [299].
Proof.
  assert (Hs : settled initialState) by (split; reflexivity).
  assert (Hb : burst (now initialState) fiveWheelEvents).
  { unfold burst, fiveWheelEvents. simpl.
    unfold RESET_SCROLL_EVENTS_DEBOUNCE_INTERVAL. lia. }
  split; [split; assumption|].
  destruct (debounce_clears_once_after_burst fiveWheelEvents initialState 1000
              Hs Hb) as (_ & _ & Hduring & _ & _ & _ & Hdue).
  split; [exact Hduring|].
  assert (Hle : lastTime fiveWheelEvents + 150 <= 1000)
    by (vm_compute; discriminate).
  exact (proj1 (Hdue Hle)).
Defined.

(** * Further properties of the component *)

(** ** The merged index *)

(** Every cell of a listed region has an entry in the index. *)
Lemma build_lookup_covered regions : forall m r c b,
  b ∈ regions -> contains b {| rowIndex := r; columnIndex := c |} ->
  is_Some (buildMergedCellMap m regions !! (r, c)).
Proof.
  induction regions as [|a regions IH] using rev_ind; intros m r c b Hin Hc.
  - inversion Hin.
  - unfold buildMergedCellMap. rewrite foldl_app. simpl.
    rewrite lookup_set_cells.
    destruct (decide ((r, c) ∈ getBoundedCells a)) as [Ha|Ha]; [eauto|].
    apply elem_of_app in Hin as [Hin|Hin]; [by eapply IH|].
    apply list_elem_of_singleton in Hin. subst.
    destruct Ha. by apply elem_of_getBoundedCells.
Qed.

(** X1. The bounds [getCellBounds] returns always contain the cell asked
    for, so they are a well-formed rectangle; a cell is merged exactly when
    some listed region contains it, its bounds are then a listed region, and
    otherwise they are the cell itself. *)
Theorem getCellBounds_contains_cell (props : GridProps) (c : CellInterface) :
  let b := getCellBounds props c in
  contains b c
  /\ wellFormed b
  /\ (isMergedCell props c = true
      <-> exists region, region ∈ mergedCells props /\ contains region c)
  /\ (isMergedCell props c = true -> b ∈ mergedCells props)
  /\ (isMergedCell props c = false
      -> b = Area.mk (rowIndex c) (rowIndex c) (columnIndex c) (columnIndex c)).
Proof.
  intros b.
  assert (Hcontains : contains b c /\ (isMergedCell props c = true
                                       -> b ∈ mergedCells props)
                      /\ (isMergedCell props c = false
                          -> b = Area.mk (rowIndex c) (rowIndex c)
                                         (columnIndex c) (columnIndex c))).
  { subst b. unfold getCellBounds.
    destruct (isMergedCell props c) eqn:E.
    - apply isMergedCell_true in E as [region Hregion].
      unfold cellIdentifier. rewrite Hregion. simpl.
      apply mergedCellMap_entry_listed in Hregion as [Hin Hc].
      split; [exact Hc|]. split; [auto | discriminate].
    - split; [unfold contains; simpl; lia|].
      split; [discriminate | reflexivity]. }
  destruct Hcontains as (Hc & Hlisted & Hself).
  split; [exact Hc|].
  split; [unfold contains, wellFormed in *; lia|].
  split; [|split; assumption].
  split.
  - intros E. apply isMergedCell_true in E as [region Hregion].
    apply mergedCellMap_entry_listed in Hregion. eauto.
  - intros (region & Hin & Hregion). apply isMergedCell_true.
    rewrite mergedCellMap_build.
    destruct (build_lookup_covered (mergedCells props) ∅
                (rowIndex c) (columnIndex c) region Hin) as [x Hx].
    + by destruct c.
    + eauto.
Qed.

(** X2. When several listed regions contain a cell, the index holds the
    one listed last: [getCellBounds] returns it and [getActualCellCoords]
    returns its anchor. *)
Theorem getCellBounds_last_region_wins
    (props : GridProps) (before after : list AreaProps) (b : AreaProps)
    (c : CellInterface) :
  mergedCells props = before ++ b :: after ->
  contains b c ->
  (forall region, region ∈ after -> ~ contains region c) ->
  isMergedCell props c = true
  /\ getCellBounds props c = b
  /\ getActualCellCoords props c = anchor b.
Proof.
  intros Hlist Hc Hafter.
  assert (Hentry : mergedCellMap props !! (rowIndex c, columnIndex c) = Some b).
  { rewrite mergedCellMap_build, Hlist.
    unfold buildMergedCellMap. rewrite foldl_app. simpl.
    fold (buildMergedCellMap ∅ before).
    match goal with
    | |- foldl ?f ?m after !! _ = _ =>
        change (buildMergedCellMap m after
                  !! (rowIndex c, columnIndex c) = Some b)
    end.
    rewrite build_lookup_outside.
    - rewrite lookup_set_cells, decide_True; [reflexivity|].
      apply elem_of_getBoundedCells. by destruct c.
    - intros region Hin Hregion. apply (Hafter region Hin). by destruct c. }
  assert (Hm : isMergedCell props c = true)
    by (apply isMergedCell_true; eauto).
  split; [exact Hm|]. split.
  - unfold getCellBounds, cellIdentifier. rewrite Hm, Hentry. reflexivity.
  - by apply getActualCellCoords_entry.
Qed.

(** ** Hit testing *)

Lemma getCellCoordsFromOffset_cacheOnly hs props dom env left top :
  cacheOnly (getCellCoordsFromOffset hs props dom env left top).
Proof.
  unfold getCellCoordsFromOffset.
  destruct (getRelativePositionFromOffset dom left top) as [[x y]|];
    cache_only.
Qed.

(** X3. Hit testing returns no cell exactly when the stage is not mounted,
    and then it does nothing at all; in every case it changes nothing but
    the instance cache, so no scroll position, timer or pending frame is
    affected. *)
Theorem getCellCoordsFromOffset_unmounted
    (hs : Helpers) (props : GridProps) (dom : Dom) (env : RenderEnv)
    (left top : Z) (g : GridState) :
  let result := getCellCoordsFromOffset hs props dom env left top g in
  (fst result = None <-> stageRef dom = None)
  /\ (stageRef dom = None -> snd result = g)
  /\ sameButInstance g (snd result).
Proof.
  intros result. subst result. split; [|split].
  - unfold getCellCoordsFromOffset, getRelativePositionFromOffset.
    destruct (stageRef dom) as [f|]; [|by split].
    destruct (f _) as [x y]. unfold_monad. simpl. split_calls.
    split; discriminate.
  - intros Hs. unfold getCellCoordsFromOffset, getRelativePositionFromOffset.
    rewrite Hs. reflexivity.
  - apply getCellCoordsFromOffset_cacheOnly.
Qed.

(** ** Imperative scrolling *)

Section ScrollApi.
Context (props : GridProps).

Lemma scrollTo_nothing g :
  snd (scrollTo props {| opt_scrollTop := None; opt_scrollLeft := None |} g)
  = g.
Proof.
  unfold scrollTo. unfold_monad.
  destruct g as [ip [t l s vd hd] [v|] [h|] tid tick frames clock ts next],
    (showScrollbar props); reflexivity.
Qed.


End ScrollApi.

(** X4. Two calls of [scrollTo] in a row act as one call with the
    coordinates of the second taking precedence where given; in
    particular [scrollTo] is idempotent.  Without scrollbars the given
    coordinates become the scroll state; with scrollbars the scroll state
    is never written, only the mounted scrollbar elements are. *)
Theorem scrollTo_last_write_wins
    (props : GridProps) (first second : OptionalScrollCoords)
    (g : GridState) :
  snd (scrollTo props second (snd (scrollTo props first g)))
  = snd (scrollTo props (mergeCoords first second) g)
  /\ snd (scrollTo props first (snd (scrollTo props first g)))
     = snd (scrollTo props first g)
  /\ (showScrollbar props = false ->
      scrollTop (scrollState (snd (scrollTo props first g)))
      = default (scrollTop (scrollState g)) (opt_scrollTop first)
      /\ scrollLeft (scrollState (snd (scrollTo props first g)))
         = default (scrollLeft (scrollState g)) (opt_scrollLeft first)
      /\ verticalScrollRef (snd (scrollTo props first g))
         = verticalScrollRef g
      /\ horizontalScrollRef (snd (scrollTo props first g))
         = horizontalScrollRef g)
  /\ (showScrollbar props = true ->
      scrollState (snd (scrollTo props first g)) = scrollState g
      /\ verticalScrollRef (snd (scrollTo props first g))
         = (match verticalScrollRef g, opt_scrollTop first with
            | Some _, Some v => Some v
            | current, _ => current
            end)
      /\ horizontalScrollRef (snd (scrollTo props first g))
         = (match horizontalScrollRef g, opt_scrollLeft first with
            | Some _, Some v => Some v
            | current, _ => current
            end)).
Proof.
  unfold scrollTo, mergeCoords. unfold_monad.
  destruct first as [[t1|] [l1|]], second as [[t2|] [l2|]],
    g as [ip [t l s vd hd] [v|] [h|] tid tick frames clock ts next],
    (showScrollbar props); simpl;
    repeat split; intros; solve [reflexivity | discriminate].
Qed.

(** X5. [scrollBy] is [scrollTo] at the current position plus the move,
    with one addition for each axis that is given.  Without scrollbars the
    current position is that of the scroll state; with scrollbars it is
    that of each mounted scrollbar element, and the scroll state is never
    written.  An axis that is not given, or whose scrollbar is not
    mounted, is left alone, so a move with neither axis changes nothing.
    In both cases [scrollBy] never sets the scrolling flag or a direction,
    never schedules the debounce timer and leaves the instance cache
    alone. *)
Theorem scrollBy_adds
    (props : GridProps) (a : PosXY) (g : GridState) :
  let g' := snd (scrollBy props a g) in
  let st := scrollState g in
  let from (top left : Z) :=
    {| opt_scrollTop := (fun y => top + y) <$> pos_y a;
       opt_scrollLeft := (fun x => left + x) <$> pos_x a |} in
  (showScrollbar props = false ->
   g' = snd (scrollTo props (from (scrollTop st) (scrollLeft st)) g)
   /\ scrollTop (scrollState g')
      = match pos_y a with
        | Some y => scrollTop st + y
        | None => scrollTop st
        end
   /\ scrollLeft (scrollState g')
      = match pos_x a with
        | Some x => scrollLeft st + x
        | None => scrollLeft st
        end
   /\ verticalScrollRef g' = verticalScrollRef g
   /\ horizontalScrollRef g' = horizontalScrollRef g)
  /\ (showScrollbar props = true ->
      scrollState g' = st
      /\ verticalScrollRef g'
         = match verticalScrollRef g, pos_y a with
           | Some current, Some y => Some (current + y)
           | current, _ => current
           end
      /\ horizontalScrollRef g'
         = match horizontalScrollRef g, pos_x a with
           | Some current, Some x => Some (current + x)
           | current, _ => current
           end
      /\ (forall top left,
            verticalScrollRef g = Some top ->
            horizontalScrollRef g = Some left ->
            g' = snd (scrollTo props (from top left) g)))
  /\ snd (scrollBy props {| pos_x := None; pos_y := None |} g) = g
  /\ (isScrolling (scrollState g') = isScrolling st
      /\ verticalScrollDirection (scrollState g')
         = verticalScrollDirection st
      /\ horizontalScrollDirection (scrollState g')
         = horizontalScrollDirection st
      /\ timers g' = timers g
      /\ resetIsScrollingTimeoutID g' = resetIsScrollingTimeoutID g
      /\ instanceProps g' = instanceProps g).
Proof.
  unfold scrollBy, scrollTo. unfold_monad.
  destruct a as [[x|] [y|]],
    g as [ip [t l s vd hd] [v|] [h|] tid tick frames clock ts next],
    (showScrollbar props); simpl;
    repeat match goal with
           | |- _ /\ _ => split
           | |- _ -> _ => intro
           | |- forall _, _ => intro
           end;
    try discriminate; simplify_eq; reflexivity.
Qed.

(** ** Resizing *)

Lemma foldl_min_le (l : list Z) : forall i,
  foldl Z.min i l <= i /\ forall j, j ∈ l -> foldl Z.min i l <= j.
Proof.
  induction l as [|x l IH]; intros i; simpl.
  - split; [lia|]. intros j H. inversion H.
  - destruct (IH (Z.min i x)) as [H1 H2]. split; [lia|].
    intros j H. apply elem_of_cons in H as [->|H]; [lia|]. by apply H2.
Qed.

Lemma minOf_le (indices : list Z) (m : Z) :
  minOf indices = Some m -> forall j, j ∈ indices -> m <= j.
Proof.
  destruct indices as [|i rest]; [discriminate|]. intros [= <-] j H.
  destruct (foldl_min_le rest i) as [H1 H2].
  apply elem_of_cons in H as [->|H]; [exact H1 | by apply H2].
Qed.

(** X6. After [resizeColumns indices] every resized index lies past the
    last measured column index, which never grows; the stale list is
    exactly [indices]; the rows are untouched, no cached entry is dropped
    and exactly one re-render is forced.  With an empty list the last
    measured index is kept.  Once the effect that follows the render has
    run, both stale lists are empty and the last measured indices are as
    the resize left them.  [resizeRows] does the same for rows. *)
Theorem resize_invalidates_resized_indices
    (indices : list Z) (g : GridState) :
  let ip := instanceProps g in
  let gc := snd (resizeColumns indices g) in
  let gr := snd (resizeRows indices g) in
  ((forall j, j ∈ indices -> lastMeasuredColumnIndex (instanceProps gc) < j)
   /\ lastMeasuredColumnIndex (instanceProps gc) <= lastMeasuredColumnIndex ip
   /\ (indices = [] ->
       lastMeasuredColumnIndex (instanceProps gc) = lastMeasuredColumnIndex ip)
   /\ recalcColumnIndices (instanceProps gc) = indices
   /\ lastMeasuredRowIndex (instanceProps gc) = lastMeasuredRowIndex ip
   /\ recalcRowIndices (instanceProps gc) = recalcRowIndices ip
   /\ columnMetadataMap (instanceProps gc) = columnMetadataMap ip
   /\ renderTick gc = renderTick g + 1)
  /\ ((forall j, j ∈ indices -> lastMeasuredRowIndex (instanceProps gr) < j)
      /\ lastMeasuredRowIndex (instanceProps gr) <= lastMeasuredRowIndex ip
      /\ (indices = [] ->
          lastMeasuredRowIndex (instanceProps gr) = lastMeasuredRowIndex ip)
      /\ recalcRowIndices (instanceProps gr) = indices
      /\ lastMeasuredColumnIndex (instanceProps gr)
         = lastMeasuredColumnIndex ip
      /\ recalcColumnIndices (instanceProps gr) = recalcColumnIndices ip
      /\ rowMetadataMap (instanceProps gr) = rowMetadataMap ip
      /\ renderTick gr = renderTick g + 1)
  /\ (let after := instanceProps (snd (clearRecalcIndices gc)) in
      recalcColumnIndices after = [] /\ recalcRowIndices after = []
      /\ lastMeasuredColumnIndex after
         = lastMeasuredColumnIndex (instanceProps gc)
      /\ lastMeasuredRowIndex after = lastMeasuredRowIndex (instanceProps gc)).
Proof.
  intros ip gc gr. subst ip gc gr.
  unfold resizeColumns, resizeRows, clearRecalcIndices, resetAfterIndices,
    forceRender.
  destruct (minOf indices) as [m|] eqn:Hm.
  - pose proof (minOf_le indices m Hm) as Hle.
    unfold_monad.
    unfold set_renderTick, set_instanceProps, set_recalcColumnIndices,
      set_recalcRowIndices, set_lastMeasuredColumnIndex,
      set_lastMeasuredRowIndex; simpl.
    repeat match goal with |- _ /\ _ => split end;
      try reflexivity; try lia;
      try (intros j Hj; specialize (Hle j Hj); lia);
      try (intros ->; discriminate);
      destruct indices; simpl; destruct (recalcRowIndices (instanceProps g));
      reflexivity.
  - destruct indices; [|discriminate]. unfold_monad.
    unfold set_renderTick, set_instanceProps, set_recalcColumnIndices,
      set_recalcRowIndices; simpl.
    repeat match goal with |- _ /\ _ => split end;
      try reflexivity; try lia;
      try (intros j Hj; inversion Hj);
      destruct (recalcRowIndices (instanceProps g)); reflexivity.
Qed.

(** ** Scrolling to a cell: absent indices *)

Section ScrollToItemAxes.
Context (hs : Helpers) (props : GridProps) (env : RenderEnv).

Lemma scrollToItem_without_vertical_request item align g :
  opt_scrollTop (coords (fst (scrollToItemPlan hs props env item align g)))
  = None ->
  let g' := snd (scrollToItem hs props env item align g) in
  scrollTop (scrollState g') = scrollTop (scrollState g)
  /\ verticalScrollRef g' = verticalScrollRef g.
Proof.
  intros Hnone. cbv zeta. rewrite scrollToItem_unfold.
  pose proof (scrollToItemPlan_cacheOnly hs props env item align g) as Hsame.
  destruct (scrollToItemPlan hs props env item align g) as [plan g1].
  simpl in *. apply sameButInstance_fields in Hsame as (Hst & Hv & _).
  destruct (isOutsideViewport plan).
  - simpl. rewrite Hst, Hv. auto.
  - destruct (scrollTo_vertical_None props (coords plan) g1 Hnone) as [H1 H2].
    rewrite H1, H2, Hst, Hv. auto.
Qed.

Lemma scrollToItem_without_horizontal_request item align g :
  opt_scrollLeft (coords (fst (scrollToItemPlan hs props env item align g)))
  = None ->
  let g' := snd (scrollToItem hs props env item align g) in
  scrollLeft (scrollState g') = scrollLeft (scrollState g)
  /\ horizontalScrollRef g' = horizontalScrollRef g.
Proof.
  intros Hnone. cbv zeta. rewrite scrollToItem_unfold.
  pose proof (scrollToItemPlan_cacheOnly hs props env item align g) as Hsame.
  destruct (scrollToItemPlan hs props env item align g) as [plan g1].
  simpl in *. apply sameButInstance_fields in Hsame as (Hst & _ & Hh & _).
  destruct (isOutsideViewport plan).
  - simpl. rewrite Hst, Hh. auto.
  - destruct (scrollTo_horizontal_None props (coords plan) g1 Hnone)
      as [H1 H2].
    rewrite H1, H2, Hst, Hh. auto.
Qed.

End ScrollToItemAxes.

(** X7. [scrollToItem] moves only the axes the target names: without a row
    index the vertical position stays, without a column index the
    horizontal position stays, and with neither nothing changes but the
    instance cache (nothing is queued for the next frame either). *)
Theorem scrollToItem_absent_axis
    (hs : Helpers) (props : GridProps) (env : RenderEnv)
    (item : OptionalCellInterface) (align : Align.t) (g : GridState) :
  let g' := snd (scrollToItem hs props env item align g) in
  (opt_rowIndex item = None ->
   scrollTop (scrollState g') = scrollTop (scrollState g)
   /\ verticalScrollRef g' = verticalScrollRef g)
  /\ (opt_columnIndex item = None ->
      scrollLeft (scrollState g') = scrollLeft (scrollState g)
      /\ horizontalScrollRef g' = horizontalScrollRef g)
  /\ (opt_rowIndex item = None -> opt_columnIndex item = None ->
      sameButInstance g g').
Proof.
  intros g'. split; [|split].
  - intros Hr. apply scrollToItem_without_vertical_request.
    apply (plan_coords hs props env item align g). by left.
  - intros Hc. apply scrollToItem_without_horizontal_request.
    apply (plan_coords hs props env item align g). by left.
  - intros Hr Hc. subst g'. rewrite scrollToItem_unfold.
    pose proof (scrollToItemPlan_cacheOnly hs props env item align g) as Hsame.
    pose proof (plan_isOutsideViewport hs props env item align g) as Hout.
    pose proof (plan_coords hs props env item align g) as [Htop Hleft].
    destruct (scrollToItemPlan hs props env item align g) as [plan g1].
    simpl in *. rewrite Hr, Hc in Hout. simpl in Hout. rewrite Hout.
    assert (Hcoords : coords plan
                      = {| opt_scrollTop := None; opt_scrollLeft := None |}).
    { destruct (coords plan) as [t l]. simpl in *. f_equal.
      - apply Htop. by left.
      - apply Hleft. by left. }
    rewrite Hcoords, scrollTo_nothing. exact Hsame.
Qed.

(** ** Snapping *)

(** X8. [snapToRowFn] does nothing when the scrollbar is not mounted or the
    delta is [0]; otherwise it moves the vertical scrollbar by exactly the
    height of one row, up for a negative delta and down for a positive one,
    and touches nothing else.  The row whose height it reads is never
    negative when scrolling up and never past the last row when scrolling
    down; it is a valid index whenever the start index is one and the
    frozen count is not negative.  [snapToColumnFn] is the same for
    columns. *)
Theorem snap_moves_by_one_item
    (hs : Helpers) (row : SnapRowProps) (column : SnapColumnProps)
    (g : GridState) :
  let nextRowIndex :=
    if snap_deltaY row <? 0 then Z.max 0 (snap_rowStartIndex row)
    else Z.min (snap_rowStartIndex row + snap_frozenRows row)
               (snap_rowCount row - 1) in
  let nextColumnIndex :=
    if snap_deltaX column <? 0 then Z.max 0 (snap_columnStartIndex column)
    else Z.min (snap_columnStartIndex column + snap_frozenColumns column)
               (snap_columnCount column - 1) in
  let gr := snd (snapToRowFn hs row g) in
  let gc := snd (snapToColumnFn hs column g) in
  (gr = set_verticalScrollRef (verticalScrollRef gr) g
   /\ (verticalScrollRef g = None \/ snap_deltaY row = 0 -> gr = g)
   /\ (forall current,
         verticalScrollRef g = Some current -> snap_deltaY row <> 0 ->
         verticalScrollRef gr
         = Some (current
                 + (if snap_deltaY row <? 0 then -1 else 1)
                   * getRowHeight hs nextRowIndex (instanceProps g)))
   /\ (snap_deltaY row < 0 -> 0 <= nextRowIndex)
   /\ (0 < snap_deltaY row -> nextRowIndex <= snap_rowCount row - 1)
   /\ (0 <= snap_rowStartIndex row <= snap_rowCount row - 1 ->
       0 <= snap_frozenRows row ->
       0 <= nextRowIndex <= snap_rowCount row - 1))
  /\ (gc = set_horizontalScrollRef (horizontalScrollRef gc) g
      /\ (horizontalScrollRef g = None \/ snap_deltaX column = 0 -> gc = g)
      /\ (forall current,
            horizontalScrollRef g = Some current -> snap_deltaX column <> 0 ->
            horizontalScrollRef gc
            = Some (current
                    + (if snap_deltaX column <? 0 then -1 else 1)
                      * getColumnWidth hs nextColumnIndex (instanceProps g)))
      /\ (snap_deltaX column < 0 -> 0 <= nextColumnIndex)
      /\ (0 < snap_deltaX column ->
          nextColumnIndex <= snap_columnCount column - 1)
      /\ (0 <= snap_columnStartIndex column <= snap_columnCount column - 1 ->
          0 <= snap_frozenColumns column ->
          0 <= nextColumnIndex <= snap_columnCount column - 1)).
Proof.
  cbv zeta. unfold snapToRowFn, snapToColumnFn. unfold_monad. simpl.
  split.
  - destruct (Z.eqb_spec (snap_deltaY row) 0) as [Hz|Hz];
      destruct (Z.ltb_spec (snap_deltaY row) 0);
      destruct g as [ip st [v|] h tid tick frames clock ts next]; simpl;
      repeat match goal with |- _ /\ _ => split end;
      try reflexivity; intros; try lia; try congruence;
      try match goal with
          | H : _ \/ _ |- _ => destruct H; congruence
          end.
  - destruct (Z.eqb_spec (snap_deltaX column) 0) as [Hz|Hz];
      destruct (Z.ltb_spec (snap_deltaX column) 0);
      destruct g as [ip st v [h|] tid tick frames clock ts next]; simpl;
      repeat match goal with |- _ /\ _ => split end;
      try reflexivity; intros; try lia; try congruence;
      try match goal with
          | H : _ \/ _ |- _ => destruct H; congruence
          end.
Qed.

(** ** The mouse wheel *)

Section Wheel.
Context (hs : Helpers) (props : GridProps)
        (throttle : forall A : Type, (A -> M unit) -> A -> M unit).

Lemma handleWheel_pending vp event w g :
  is_Some (wheelingRef w) ->
  handleWheel hs props throttle false vp event w g = (w, g).
Proof.
  intros [id Hid]. unfold handleWheel. rewrite Hid. reflexivity.
Qed.

Lemma handleWheels_pending vp events : forall w g,
  is_Some (wheelingRef w) ->
  handleWheels hs props throttle false vp events w g = (w, g).
Proof.
  induction events as [|event rest IH]; intros w g Hw; [reflexivity|].
  cbn [handleWheels]. unfold bind.
  rewrite (handleWheel_pending vp event w g Hw). by apply IH.
Qed.

End Wheel.

(** X9. Native wheel scrolling is coalesced per animation frame.  While a
    frame is pending, or while a scrollbar is not mounted, a wheel event
    is dropped: nothing is registered and nothing changes.  Otherwise the
    first event of a run registers one frame and all events that follow
    before the paint are dropped; when the frame runs it moves exactly one
    scrollbar, the horizontal one by [deltaX] if [|deltaX| > |deltaY|] and
    else the vertical one by [deltaY] (times the scrollbar size in line
    mode; the axis is chosen on the unscaled deltas), and clears
    [wheelingRef].  The scroll state itself is never written. *)
Theorem wheel_events_coalesce
    (hs : Helpers) (props : GridProps)
    (throttle : forall A : Type, (A -> M unit) -> A -> M unit)
    (vp : ViewPortProps) (first : WheelEvent) (rest : list WheelEvent)
    (w : Wheeling) (g : GridState) :
  (is_Some (wheelingRef w) \/ horizontalScrollRef g = None
   \/ verticalScrollRef g = None ->
   handleWheel hs props throttle false vp first w g = (w, g))
  /\ (forall h v,
        wheelingRef w = None -> wheelFrames w = [] ->
        horizontalScrollRef g = Some h -> verticalScrollRef g = Some v ->
        let dy :=
          if deltaMode first =? 1 then deltaY first * scrollbarSize props
          else deltaY first in
        let registered :=
          handleWheels hs props throttle false vp (first :: rest) w g in
        let painted := runWheelFrames (fst registered) (snd registered) in
        snd registered = g
        /\ is_Some (wheelingRef (fst registered))
        /\ length (wheelFrames (fst registered)) = 1%nat
        /\ wheelingRef (fst painted) = None
        /\ wheelFrames (fst painted) = []
        /\ scrollState (snd painted) = scrollState g
        /\ snd painted
           = (if Z.abs (deltaX first) >? Z.abs (deltaY first)
              then set_horizontalScrollRef (Some (h + deltaX first)) g
              else set_verticalScrollRef (Some (v + dy)) g)).
Proof.
  split.
  - intros [Hw|Href]; [by apply handleWheel_pending|].
    unfold handleWheel. destruct (wheelingRef w); [reflexivity|].
    unfold_monad.
    destruct Href as [Href|Href]; rewrite Href;
      [|destruct (horizontalScrollRef g)]; reflexivity.
  - intros h v Hw Hframes Hh Hv dy registered painted.
    assert (Hfirst :
      handleWheel hs props throttle false vp first w g
      = (requestWheelFrame
           {| frame_isHorizontal := Z.abs (deltaX first) >? Z.abs (deltaY first);
              frame_currentScroll :=
                if Z.abs (deltaX first) >? Z.abs (deltaY first) then h else v;
              frame_dx := deltaX first; frame_dy := dy |} w, g)).
    { unfold handleWheel. rewrite Hw. unfold_monad. rewrite Hh, Hv.
      reflexivity. }
    assert (Hreg : registered
                   = handleWheel hs props throttle false vp first w g).
    { subst registered. cbn [handleWheels]. unfold bind. rewrite Hfirst.
      apply handleWheels_pending. simpl. eauto. }
    subst painted. rewrite Hreg, Hfirst. simpl.
    unfold runWheelFrames, requestWheelFrame. simpl. rewrite Hframes. simpl.
    unfold wheelFrameCallback. unfold_monad. simpl.
    destruct (Z.abs (deltaX first) >? Z.abs (deltaY first)); simpl;
      rewrite ?Hh, ?Hv; simpl; repeat split; eauto.
Qed.

(** ** The scrolling flag, in general *)






Lemma advanceTo_pending t g id d :
  resetIsScrollingTimeoutID g = Some id -> timers g = [(id, d)] ->
  let r := advanceTo t g in
  now (snd r) = Z.max (now g) (if d <=? t then Z.max d t else t)
  /\ (d <= t ->
      fst r = [d] /\ settled (snd r)
      /\ isScrolling (scrollState (snd r)) = false)
  /\ (t < d ->
      fst r = [] /\ scrollState (snd r) = scrollState g
      /\ resetIsScrollingTimeoutID (snd r) = Some id
      /\ timers (snd r) = [(id, d)]).
Proof.
  intros Hid Ht. unfold advanceTo, settled, resetIsScrolling. unfold_monad.
  rewrite Ht. simpl. unfold_monad. simpl. rewrite ?Ht, dueTimer_single.
  destruct (Z.leb_spec d t); simpl; rewrite ?Ht, ?cancel_single; simpl.
  - split; [lia|]. split; [auto|]. intros. lia.
  - split; [lia|]. split; [intros; lia|]. auto.
Qed.





Section Neutral.
Context (hs : Helpers) (props : GridProps).

Lemma renderCell_cacheOnly (r c : Z) (s : gset (Z * Z)) :
  cacheOnly (renderCell hs props r c s).
Proof. unfold renderCell. destruct (_ && _); cache_only. Qed.

Lemma renderCells_cacheOnly (visited : list (Z * Z)) :
  forall s : gset (Z * Z), cacheOnly (renderCells hs props visited s).
Proof.
  induction visited as [|[r c] rest IH]; intros s; simpl.
  - apply cacheOnly_ret.
  - apply cacheOnly_bind; [apply renderCell_cacheOnly|]. intros x.
    apply cacheOnly_bind; [apply IH|]. intros y. apply cacheOnly_ret.
Qed.

Lemma getCellOffsetFromCoords_cacheOnly cell :
  cacheOnly (getCellOffsetFromCoords hs props cell).
Proof. unfold getCellOffsetFromCoords. cache_only. Qed.

Lemma renderRanges_cacheOnly (areas : list CellRangeArea) :
  cacheOnly (renderRanges hs props areas).
Proof.
  induction areas as [|a areas IH]; simpl; [apply cacheOnly_ret|].
  destruct (_ || _); [exact IH|].
  repeat (apply cacheOnly_bind;
          [first [apply cacheOnly_withInstance | apply cacheOnly_readInstance
                 | apply getCellOffsetFromCoords_cacheOnly | exact IH]
          |intros ?]).
  apply cacheOnly_ret.
Qed.

Lemma renderEnv_cacheOnly : cacheOnly (renderEnv hs props).
Proof.
  unfold renderEnv, getVerticalRangeToRender, getHorizontalRangeToRender.
  cache_only.
Qed.

Lemma renderPass_cacheOnly : cacheOnly (renderPass hs props).
Proof.
  unfold renderPass.
  repeat (apply cacheOnly_bind;
          [first [apply renderEnv_cacheOnly | apply renderCells_cacheOnly
                 | apply renderRanges_cacheOnly]
          |intros ?]).
  apply cacheOnly_ret.
Qed.




End Neutral.




Section SelectionsNeutral.
Context (hs : Helpers) (props : GridProps) (vp : ViewPortProps)
        (selectionStrokeWidth : Z).

Lemma clippedRectangle_cacheOnly (bounds : AreaProps) :
  cacheOnly (clippedRectangle hs props vp bounds).
Proof. unfold clippedRectangle. cache_only. Qed.

Lemma renderActiveCell_cacheOnly (activeCell : option CellInterface) :
  cacheOnly (renderActiveCell hs props vp activeCell).
Proof.
  unfold renderActiveCell. destruct activeCell; [|apply cacheOnly_ret].
  apply cacheOnly_bind; [apply clippedRectangle_cacheOnly|].
  intros [[[x y] width] height]. apply cacheOnly_ret.
Qed.

Lemma renderSelection_cacheOnly (count : nat) (out : SelectionOutput)
    (i : nat) (selection : SelectionArea) :
  cacheOnly (renderSelection hs props vp selectionStrokeWidth count out i
               selection).
Proof.
  unfold renderSelection.
  apply cacheOnly_bind; [apply clippedRectangle_cacheOnly|].
  intros [[[x y] width] height].
  unfold frozenColumnExtent, frozenRowExtent.
  destruct (Area.left _ <? _), (Area.top _ <? _); simpl; cache_only.
Qed.

Lemma renderSelectionsFrom_cacheOnly (selections : list SelectionArea) :
  forall (count i : nat) (out : SelectionOutput),
  cacheOnly (renderSelectionsFrom hs props vp selectionStrokeWidth count i
               selections out).
Proof.
  induction selections as [|s rest IH]; intros count i out; simpl.
  - apply cacheOnly_ret.
  - apply cacheOnly_bind; [apply renderSelection_cacheOnly|].
    intros out'. apply IH.
Qed.

Lemma renderSelections_cacheOnly (activeCell : option CellInterface)
    (selections : list SelectionArea) :
  cacheOnly (renderSelections hs props vp selectionStrokeWidth activeCell
               selections).
Proof.
  unfold renderSelections.
  apply cacheOnly_bind; [apply renderActiveCell_cacheOnly|].
  intros out. apply renderSelectionsFrom_cacheOnly.
Qed.

End SelectionsNeutral.




Lemma deliver_armed_any t0 e g :
  armed t0 g -> t0 <= eventTime e ->
  fst (deliver e g)
  = (if t0 + RESET_SCROLL_EVENTS_DEBOUNCE_INTERVAL <=? eventTime e
     then [t0 + RESET_SCROLL_EVENTS_DEBOUNCE_INTERVAL] else [])
  /\ armed (eventTime e) (snd (deliver e g)).
Proof.
  intros (Hf & Hnow & id & Hid & Ht) Hle.
  destruct (advanceTo_pending (eventTime e) g id _ Hid Ht)
    as (Hclock & Hdue & Hearly).
  rewrite deliver_unfold. simpl.
  assert (Hn : now (snd (advanceTo (eventTime e) g)) = eventTime e).
  { rewrite Hclock, Hnow.
    destruct (_ <=? _) eqn:E; unfold RESET_SCROLL_EVENTS_DEBOUNCE_INTERVAL in *;
      lia. }
  destruct (Z.leb_spec (t0 + RESET_SCROLL_EVENTS_DEBOUNCE_INTERVAL)
                       (eventTime e)) as [Hd|Hd].
  - destruct (Hdue Hd) as (Hfired & Hs & _). split; [exact Hfired|].
    rewrite <- Hn at 1. apply handle_arms. by left.
  - destruct (Hearly Hd) as (Hfired & _ & Hid' & Ht'). split; [exact Hfired|].
    rewrite <- Hn at 1. apply handle_arms. right. eauto.
Qed.

Lemma deliverAll_armed_any es : forall t0 g,
  armed t0 g -> orderedAfter t0 es ->
  fst (deliverAll es g) = clearsBetween t0 es
  /\ armed (eventTime (List.last es (VerticalScroll t0 0)))
           (snd (deliverAll es g)).
Proof.
  induction es as [|e es IH]; intros t0 g Ha Ho.
  - simpl. auto.
  - destruct Ho as [Hle Ho].
    destruct (deliver_armed_any t0 e g Ha Hle) as [Hf Ha'].
    rewrite deliverAll_cons. simpl fst. simpl snd.
    specialize (IH _ _ Ha' Ho) as [Hf' Ha''].
    rewrite Hf, Hf'. split; [reflexivity|].
    destruct es as [|e' es']; [exact Ha''|].
    change (List.last (e :: e' :: es') (VerticalScroll t0 0))
      with (List.last (e' :: es') (VerticalScroll t0 0)).
    rewrite (last_cons_default es' e' _ (VerticalScroll (eventTime e) 0)).
    exact Ha''.
Qed.

Lemma clearsBetween_length prev es :
  (length (clearsBetween prev es) <= length es)%nat.
Proof.
  revert prev. induction es as [|e es IH]; intros prev; simpl; [lia|].
  rewrite length_app. specialize (IH (eventTime e)).
  destruct (_ <=? _); simpl; lia.
Qed.

(** X11. For any sequence of scroll events in time order that starts with
    no timer pending, the clears that run while the events are delivered
    are exactly one per gap of at least 150 time-units between
    consecutive events, each at the start of its gap plus 150; an event
    that arrives earlier only postpones the clear.  After the last event
    the flag is up and one timer is pending, due 150 after that event. *)
Theorem debounce_clears_once_per_gap
    (e : ScrollEvent) (es : list ScrollEvent) (g : GridState) :
  settled g -> now g <= eventTime e -> orderedAfter (eventTime e) es ->
  let run := deliverAll (e :: es) g in
  fst run = clearsBetween (eventTime e) es
  /\ (length (fst run) <= length es)%nat
  /\ armed (lastTime (e :: es)) (snd run).
Proof.
  intros Hs Hnow Ho run. subst run.
  destruct (deliver_settled e g Hs Hnow) as [Hf1 Ha1].
  destruct (deliverAll_armed_any es _ _ Ha1 Ho) as [Hf2 Ha2].
  rewrite deliverAll_cons. simpl fst. simpl snd. rewrite Hf1, Hf2. simpl.
  split; [reflexivity|]. split; [apply clearsBetween_length|].
  unfold lastTime. destruct es as [|e' es']; [exact Ha2|].
  rewrite (last_cons_default es' e' _ (VerticalScroll (eventTime e) 0)).
  exact Ha2.
Qed.

(** ** The render pass: which cells are drawn, and where *)

Lemma elem_of_cross (rows cols : list Z) (r c : Z) :
  (r, c) ∈ (rows ≫= fun r' : Z => cols ≫= fun c' : Z => [(r', c')])
  <-> r ∈ rows /\ c ∈ cols.
Proof.
  rewrite list_elem_of_bind. split.
  - intros (r' & Hc & Hr). apply list_elem_of_bind in Hc as (c' & Hx & Hc).
    apply list_elem_of_singleton in Hx. inversion Hx; subst. auto.
  - intros [Hr Hc]. exists r. split; [|exact Hr].
    apply list_elem_of_bind. exists c. split; [|exact Hc].
    by apply list_elem_of_singleton.
Qed.

Lemma NoDup_cross (rows cols : list Z) :
  NoDup rows -> NoDup cols ->
  NoDup (rows ≫= fun r' : Z => cols ≫= fun c' : Z => [(r', c')]).
Proof.
  intros Hr Hc. induction Hr as [|r rows Hnot Hr IH]; simpl.
  - apply NoDup_nil. exact Logic.I.
  - apply NoDup_app. split; [|split; [|exact IH]].
    + clear -Hc. induction Hc as [|c cols Hnot Hc IH]; simpl.
      * apply NoDup_nil. exact Logic.I.
      * apply NoDup_cons. split; [|exact IH].
        intros H. apply list_elem_of_bind in H as (c' & Hx & Hin).
        apply list_elem_of_singleton in Hx. inversion Hx; subst. auto.
    + intros [r' c'] H1 H2. apply elem_of_cross in H2 as [H2 _].
      apply list_elem_of_bind in H1 as (c'' & Hx & _).
      apply list_elem_of_singleton in Hx. inversion Hx; subst. auto.
Qed.

Lemma elem_of_mainWalk props vp r c :
  (r, c) ∈ mainWalk props vp
  <-> 0 < columnCount props /\ rowCount props <> 0
      /\ rowStartIndex vp <= r <= rowStopIndex vp
      /\ frozenRows props <= r /\ hiddenRow props r = false
      /\ columnStartIndex vp <= c <= columnStopIndex vp
      /\ frozenColumns props <= c.
Proof.
  unfold mainWalk.
  destruct (Z.gtb_spec (columnCount props) 0) as [Hc|Hc]; simpl;
    [|rewrite elem_of_nil; lia].
  destruct (Z.eqb_spec (rowCount props) 0) as [Hr|Hr]; simpl;
    [rewrite elem_of_nil; lia|].
  rewrite elem_of_cross, !list_elem_of_filter, !elem_of_seqZ.
  destruct (Z.ltb_spec r (frozenRows props)), (hiddenRow props r),
    (Z.ltb_spec c (frozenColumns props)); simpl;
    intuition (try lia; try discriminate).
Qed.

Lemma elem_of_frozenRowWalk props vp r c :
  (r, c) ∈ frozenRowWalk props vp
  <-> 0 <= r < frozenRows props /\ r < rowStopIndex vp
      /\ hiddenRow props r = false
      /\ columnStartIndex vp <= c <= columnStopIndex vp
      /\ frozenColumns props <= c.
Proof.
  unfold frozenRowWalk.
  rewrite elem_of_cross, !list_elem_of_filter, !elem_of_seqZ.
  destruct (hiddenRow props r), (Z.ltb_spec c (frozenColumns props)); simpl;
    intuition (try lia; try discriminate).
Qed.

Lemma elem_of_frozenColumnWalk props vp r c :
  (r, c) ∈ frozenColumnWalk props vp
  <-> rowStartIndex vp <= r <= rowStopIndex vp
      /\ frozenRows props <= r /\ hiddenRow props r = false
      /\ 0 <= c < frozenColumns props /\ c < columnStopIndex vp.
Proof.
  unfold frozenColumnWalk.
  rewrite elem_of_cross, !list_elem_of_filter, !elem_of_seqZ.
  destruct (Z.ltb_spec r (frozenRows props)), (hiddenRow props r); simpl;
    intuition (try lia; try discriminate).
Qed.

Lemma elem_of_frozenIntersectionWalk props vp r c :
  (r, c) ∈ frozenIntersectionWalk props vp
  <-> 0 <= r < frozenRows props /\ r < rowStopIndex vp
      /\ hiddenRow props r = false
      /\ 0 <= c < frozenColumns props /\ c < columnStopIndex vp.
Proof.
  unfold frozenIntersectionWalk.
  rewrite elem_of_cross, !list_elem_of_filter, !elem_of_seqZ.
  destruct (hiddenRow props r); simpl;
    intuition (try lia; try discriminate).
Qed.

Lemma walks_NoDup props vp :
  NoDup (mainWalk props vp) /\ NoDup (frozenRowWalk props vp)
  /\ NoDup (frozenColumnWalk props vp)
  /\ NoDup (frozenIntersectionWalk props vp).
Proof.
  unfold mainWalk, frozenRowWalk, frozenColumnWalk, frozenIntersectionWalk.
  repeat match goal with |- _ /\ _ => split end;
    try destruct (_ && _);
    try (apply NoDup_nil; exact Logic.I);
    apply NoDup_cross; try apply NoDup_filter; apply NoDup_seqZ.
Qed.

(** The top-left cell of the region of a merged cell is itself merged. *)
Lemma anchor_isMerged props c :
  isMergedCell props c = true ->
  isMergedCell props (anchor (getCellBounds props c)) = true.
Proof.
  intros Hm. apply isMergedCell_true in Hm as [b Hb].
  destruct (mergedCellMap_entry_listed props c b Hb) as [Hin Hc].
  destruct c as [r c]. simpl in Hb.
  destruct (getCellBounds_entry props r c b Hb) as [_ ->].
  apply isMergedCell_true. simpl.
  rewrite mergedCellMap_build.
  apply (build_lookup_covered _ _ _ _ b Hin).
  change (contains b (anchor b)). by eapply contains_anchor.
Qed.

Section Drawn.
Context (hs : Helpers) (props : GridProps).

(** What the body of a walk hands to [itemRenderer] for one cell. *)
Lemma renderCell_drawn (r c : Z) (s : gset (Z * Z)) (g : GridState) :
  let cell := {| rowIndex := r; columnIndex := c |} in
  match fst (fst (renderCell hs props r c s g)) with
  | None => isMergedCell props cell = true
  | Some p =>
      r_key p = CellKey (r_rowIndex p) (r_columnIndex p)
      /\ (if isMergedCell props cell
          then plainCall p = false
               /\ isMergedCell props {| rowIndex := r_rowIndex p;
                                        columnIndex := r_columnIndex p |}
                  = true
          else plainCall p = true /\ drawnCell p = (r, c))
  end.
Proof.
  intros cell. pose proof (anchor_isMerged props cell) as Ha.
  unfold renderCell. fold cell.
  destruct (isMergedCell props cell) eqn:E; simpl.
  - destruct (bool_decide _); [reflexivity|].
    unfold_monad. simpl. split_calls. simpl. auto.
  - unfold_monad. simpl. split_calls. simpl. auto.
Qed.

(** A walk draws the cells it reaches that are not merged, each once, in
    the order of the walk and at its own coordinates; every other call is
    made for a merged cell; and every key is the key of the coordinates
    drawn. *)
Lemma renderCells_drawn (visited : list (Z * Z)) :
  forall (s : gset (Z * Z)) (g : GridState),
  let out := fst (fst (renderCells hs props visited s g)) in
  map drawnCell (filter plainCall out) = filter (plainCell props) visited
  /\ (forall p, p ∈ out ->
        r_key p = CellKey (r_rowIndex p) (r_columnIndex p)
        /\ (plainCall p = false ->
            plainCell props (drawnCell p) = false)).
Proof.
  induction visited as [|[r c] rest IH]; intros s g.
  - simpl. split; [reflexivity|]. intros p H. inversion H.
  - cbv zeta. rewrite renderCells_cons. cbv zeta. simpl fst.
    pose proof (renderCell_drawn r c s g) as Hcell. cbv zeta in Hcell.
    destruct (renderCell hs props r c s g) as [[o s1] g1]. simpl in *.
    specialize (IH s1 g1). cbv zeta in IH.
    destruct (renderCells hs props rest s1 g1) as [[out s2] g2].
    simpl in *. destruct IH as [Hplain Hall].
    destruct o as [p|]; simpl.
    + destruct Hcell as [Hkey Hcell].
      destruct (isMergedCell props {| rowIndex := r; columnIndex := c |})
        eqn:E.
      * destruct Hcell as [Hp Hm].
        rewrite (filter_cons_False plainCall) by (rewrite Hp; exact id).
        rewrite (filter_cons_False (plainCell props))
          by (unfold plainCell; simpl; rewrite E; exact id).
        split; [exact Hplain|].
        intros q Hq. apply elem_of_cons in Hq as [->|Hq]; [|by apply Hall].
        split; [exact Hkey|]. intros _. unfold plainCell, drawnCell. simpl.
        by rewrite Hm.
      * destruct Hcell as [Hp Hd].
        rewrite (filter_cons_True plainCall) by (rewrite Hp; exact Logic.I).
        rewrite (filter_cons_True (plainCell props))
          by (unfold plainCell; simpl; rewrite E; exact Logic.I).
        simpl. rewrite Hd, Hplain. split; [reflexivity|].
        intros q Hq. apply elem_of_cons in Hq as [->|Hq]; [|by apply Hall].
        split; [exact Hkey|]. congruence.
    + rewrite (filter_cons_False (plainCell props))
        by (unfold plainCell; simpl; rewrite Hcell; exact id).
      split; [exact Hplain | exact Hall].
Qed.

(** The pieces of one render pass. *)
Lemma renderPass_pieces (g : GridState) :
  let vp := viewport (fst (renderEnv hs props g)) in
  exists g0 g1 g2 g3 g4 s1 s2 s3,
    let main := renderCells hs props (mainWalk props vp) ∅ g0 in
    let rgs := renderRanges hs props (cellAreas props) g1 in
    let frow := renderCells hs props (frozenRowWalk props vp) s1 g2 in
    let fcol := renderCells hs props (frozenColumnWalk props vp) s2 g3 in
    let fint :=
      renderCells hs props (frozenIntersectionWalk props vp) s3 g4 in
    s1 = snd (fst main) /\ s2 = snd (fst frow) /\ s3 = snd (fst fcol)
    /\ fst (renderPass hs props g)
       = {| cells := fst (fst main);
            ranges := fst rgs;
            frozenRowCells := fst (fst frow);
            frozenColumnCells := fst (fst fcol);
            frozenIntersectionCells := fst (fst fint) |}.
Proof.
  unfold renderPass, bind, ret.
  destruct (renderEnv hs props g) as [env g0]. simpl fst.
  set (vp := viewport env).
  destruct (renderCells hs props (mainWalk props vp) ∅ g0)
    as [[o1 s1] g1] eqn:E1.
  destruct (renderRanges hs props (cellAreas props) g1) as [rgs g2] eqn:E2.
  simpl snd. simpl fst.
  destruct (renderCells hs props (frozenRowWalk props vp) s1 g2)
    as [[o2 s2] g3] eqn:E3.
  simpl snd. simpl fst.
  destruct (renderCells hs props (frozenColumnWalk props vp) s2 g3)
    as [[o3 s3] g4] eqn:E4.
  simpl snd. simpl fst.
  destruct (renderCells hs props (frozenIntersectionWalk props vp) s3 g4)
    as [[o4 s4] g5] eqn:E5.
  exists g0, g1, g2, g3, g4, s1, s2, s3. cbv zeta.
  rewrite E1, E2, E3, E4, E5. simpl. auto.
Qed.

End Drawn.

Lemma NoDup_count {A} `{EqDecision A} (l : list A) :
  (forall a, (length (filter (fun x => x = a) l) <= 1)%nat) -> NoDup l.
Proof.
  induction l as [|x l IH]; intros H; [apply NoDup_nil; exact Logic.I|].
  apply NoDup_cons. split.
  - intros Hin. apply (elem_of_filter_eq_ge l x) in Hin.
    specialize (H x). rewrite filter_cons, decide_True in H by reflexivity.
    simpl in H. lia.
  - apply IH. intros a. specialize (H a). rewrite filter_cons in H.
    destruct (decide (x = a)); simpl in H; lia.
Qed.

Lemma NoDup_map_split {A B} (f : A -> B) (P : A -> bool) (l : list A) :
  NoDup (map f (filter P l)) ->
  NoDup (map f (filter (fun x => negb (P x)) l)) ->
  (forall x y, x ∈ l -> y ∈ l -> P x = true -> P y = false -> f x <> f y) ->
  NoDup (map f l).
Proof.
  induction l as [|x l IH]; intros Hyes Hno Hsep;
    [apply NoDup_nil; exact Logic.I|].
  assert (Hrest : NoDup (map f l)).
  { apply IH.
    - rewrite filter_cons in Hyes. destruct (decide (P x)); [|exact Hyes].
      simpl in Hyes. by apply NoDup_cons in Hyes as [_ ?].
    - rewrite filter_cons in Hno. destruct (decide (negb (P x))); [|exact Hno].
      simpl in Hno. by apply NoDup_cons in Hno as [_ ?].
    - intros a b Ha Hb. apply Hsep; by right. }
  simpl. apply NoDup_cons. split; [|exact Hrest].
  intros Hin. apply list_elem_of_fmap in Hin as (y & Hfy & Hy).
  destruct (P x) eqn:Ex, (P y) eqn:Ey.
  - rewrite (filter_cons_True P) in Hyes by (rewrite Ex; exact Logic.I).
    simpl in Hyes. apply NoDup_cons in Hyes as [Hnot _]. apply Hnot.
    rewrite Hfy. apply list_elem_of_fmap. exists y. split; [reflexivity|].
    apply list_elem_of_filter. split; [rewrite Ey; exact Logic.I | exact Hy].
  - apply (Hsep x y); [by left | by right | exact Ex | exact Ey | exact Hfy].
  - apply (Hsep y x); [by right | by left | exact Ey | exact Ex | auto].
  - rewrite (filter_cons_True (fun x => negb (P x))) in Hno
      by (rewrite Ex; exact Logic.I).
    simpl in Hno. apply NoDup_cons in Hno as [Hnot _]. apply Hnot.
    rewrite Hfy. apply list_elem_of_fmap. exists y. split; [reflexivity|].
    apply list_elem_of_filter. split; [rewrite Ey; exact Logic.I | exact Hy].
Qed.

Lemma NoDup_map_through {A B C} (f : A -> B) (k : A -> C) (h : B -> C)
    (l : list A) :
  (forall b b', h b = h b' -> b = b') ->
  (forall x, x ∈ l -> k x = h (f x)) ->
  NoDup (map f l) -> NoDup (map k l).
Proof.
  intros Hinj. induction l as [|x l IH]; intros Hk Hnd; simpl;
    [apply NoDup_nil; exact Logic.I|].
  simpl in Hnd. apply NoDup_cons in Hnd as [Hnot Hnd].
  apply NoDup_cons. split.
  - intros Hin. apply list_elem_of_fmap in Hin as (y & Hy & Hin).
    apply Hnot. apply list_elem_of_fmap. exists y. split; [|exact Hin].
    apply Hinj. rewrite <- !Hk; [exact Hy | by right | by left].
  - apply IH; [|exact Hnd]. intros y Hy. apply Hk. by right.
Qed.

Lemma mergedAnchors_drawn (l : list RendererProps) :
  mergedAnchors l = map drawnCell (filter (fun p => negb (plainCall p)) l).
Proof.
  unfold mergedAnchors.
  induction l as [|p l IH]; [reflexivity|].
  simpl. unfold mergedAnchor at 1.
  destruct (r_isMergedCell p) as [[|]|] eqn:E.
  - rewrite filter_cons_True
      by (unfold plainCall; rewrite E; exact Logic.I).
    simpl. f_equal. exact IH.
  - rewrite filter_cons_False by (unfold plainCall; rewrite E; exact id).
    exact IH.
  - rewrite filter_cons_False by (unfold plainCall; rewrite E; exact id).
    exact IH.
Qed.

Section Pass.
Context (hs : Helpers) (props : GridProps) (g : GridState).

(** The calls of the cell walks that are not for a merged region are the
    unmerged cells the walks reach, walk by walk and in their order. *)
Lemma renderPass_plain :
  let vp := viewport (fst (renderEnv hs props g)) in
  let o := fst (renderPass hs props g) in
  map drawnCell (filter plainCall (cells o))
  = filter (plainCell props) (mainWalk props vp)
  /\ map drawnCell (filter plainCall (frozenRowCells o))
     = filter (plainCell props) (frozenRowWalk props vp)
  /\ map drawnCell (filter plainCall (frozenColumnCells o))
     = filter (plainCell props) (frozenColumnWalk props vp)
  /\ map drawnCell (filter plainCall (frozenIntersectionCells o))
     = filter (plainCell props) (frozenIntersectionWalk props vp).
Proof.
  intros vp o.
  destruct (renderPass_pieces hs props g)
    as (g0 & g1 & g2 & g3 & g4 & s1 & s2 & s3 & _ & _ & _ & Ho).
  fold vp in Ho. subst o. rewrite Ho. simpl.
  repeat match goal with |- _ /\ _ => split end; apply renderCells_drawn.
Qed.

Lemma renderPass_cellCalls (p : RendererProps) :
  p ∈ cellCalls (fst (renderPass hs props g)) ->
  r_key p = CellKey (r_rowIndex p) (r_columnIndex p)
  /\ (plainCall p = false -> plainCell props (drawnCell p) = false).
Proof.
  destruct (renderPass_pieces hs props g)
    as (g0 & g1 & g2 & g3 & g4 & s1 & s2 & s3 & _ & _ & _ & Ho).
  rewrite Ho. unfold cellCalls. simpl. rewrite !elem_of_app.
  intros [H|[H|[H|H]]]; revert H; apply renderCells_drawn.
Qed.

Lemma renderPass_ranges_unmerged :
  mergedAnchors (ranges (fst (renderPass hs props g))) = [].
Proof.
  destruct (renderPass_pieces hs props g)
    as (g0 & g1 & g2 & g3 & g4 & s1 & s2 & s3 & _ & _ & _ & Ho).
  rewrite Ho. simpl. apply renderRanges_unmerged.
Qed.

Lemma renderPass_anchors_NoDup :
  NoDup (mergedAnchors (cellCalls (fst (renderPass hs props g)))).
Proof.
  destruct (renderPass_renderedOnce hs props g) as [Honce _].
  apply NoDup_count. intros [r c].
  specialize (Honce (Area.mk r r c c)).
  rewrite timesRendered_anchors in Honce. simpl in Honce.
  unfold itemRendererCalls, cellCalls, mergedAnchors in *.
  rewrite !omap_app in *.
  pose proof renderPass_ranges_unmerged as Hr. unfold mergedAnchors in Hr.
  rewrite Hr in Honce. exact Honce.
Qed.

End Pass.

(** X12. In one render pass no coordinate is handed to [itemRenderer]
    twice by the four cell walks, within a pane, across panes and between
    merged regions and ordinary cells.  Every such call asks [itemKey] for
    the key of the coordinates it draws, so the keys of the cells are
    pairwise distinct for every [itemKey] that gives different coordinates
    different keys. *)
Theorem renderPass_draws_no_cell_twice
    (hs : Helpers) (props : GridProps) (g : GridState) :
  let o := fst (renderPass hs props g) in
  NoDup (map drawnCell (cellCalls o))
  /\ (forall p, p ∈ cellCalls o ->
        r_key p = CellKey (r_rowIndex p) (r_columnIndex p))
  /\ (forall (K : Type) (itemKey : Z -> Z -> K),
        (forall r c r' c',
           itemKey r c = itemKey r' c' -> r = r' /\ c = c') ->
        NoDup (map (fun p => itemKey (r_rowIndex p) (r_columnIndex p))
                   (cellCalls o))).
Proof.
  intros o.
  set (vp := viewport (fst (renderEnv hs props g))).
  destruct (renderPass_plain hs props g) as (P1 & P2 & P3 & P4).
  fold vp in P1, P2, P3, P4. fold o in P1, P2, P3, P4.
  destruct (walks_NoDup props vp) as (N1 & N2 & N3 & N4).
  assert (Hplain : map drawnCell (filter plainCall (cellCalls o))
                   = filter (plainCell props) (mainWalk props vp)
                     ++ filter (plainCell props) (frozenRowWalk props vp)
                     ++ filter (plainCell props) (frozenColumnWalk props vp)
                     ++ filter (plainCell props)
                          (frozenIntersectionWalk props vp)).
  { unfold cellCalls. rewrite !filter_app, !map_app, P1, P2, P3, P4.
    reflexivity. }
  assert (Hdrawn : NoDup (map drawnCell (cellCalls o))).
  { apply (NoDup_map_split drawnCell plainCall).
    - rewrite Hplain.
      repeat (apply NoDup_app; split; [by apply NoDup_filter|]; split);
        try by apply NoDup_filter.
      + intros [r c] H1 H2. apply list_elem_of_filter in H1 as [_ H1].
        apply elem_of_mainWalk in H1.
        rewrite !elem_of_app, !list_elem_of_filter in H2.
        rewrite elem_of_frozenRowWalk, elem_of_frozenColumnWalk,
          elem_of_frozenIntersectionWalk in H2. lia.
      + intros [r c] H1 H2. apply list_elem_of_filter in H1 as [_ H1].
        apply elem_of_frozenRowWalk in H1.
        rewrite !elem_of_app, !list_elem_of_filter in H2.
        rewrite elem_of_frozenColumnWalk,
          elem_of_frozenIntersectionWalk in H2. lia.
      + intros [r c] H1 H2. apply list_elem_of_filter in H1 as [_ H1].
        apply elem_of_frozenColumnWalk in H1.
        rewrite list_elem_of_filter, elem_of_frozenIntersectionWalk in H2.
        lia.
    - rewrite <- mergedAnchors_drawn. apply renderPass_anchors_NoDup.
    - intros p q Hp Hq Hpp Hqm Heq.
      destruct (renderPass_cellCalls hs props g q Hq) as [_ Hmerged].
      specialize (Hmerged Hqm).
      assert (Hin : drawnCell p ∈ map drawnCell (filter plainCall (cellCalls o))).
      { apply list_elem_of_fmap. exists p. split; [reflexivity|].
        apply list_elem_of_filter. split; [rewrite Hpp; exact Logic.I | exact Hp]. }
      rewrite Hplain, !elem_of_app, !list_elem_of_filter in Hin.
      rewrite Heq, Hmerged in Hin. simpl in Hin. tauto. }
  split; [exact Hdrawn|]. split.
  - intros p Hp. by destruct (renderPass_cellCalls hs props g p Hp).
  - intros K itemKey Hinj.
    apply (NoDup_map_through drawnCell _
             (fun rc : Z * Z => itemKey rc.1 rc.2)); [| |exact Hdrawn].
    + intros [a b] [a' b'] Heq. simpl in Heq.
      destruct (Hinj _ _ _ _ Heq) as [-> ->]. reflexivity.
    + intros p _. reflexivity.
Qed.

Lemma filter_all {A} (P : A -> bool) (l : list A) :
  (forall x, x ∈ l -> P x = true) -> filter P l = l.
Proof.
  induction l as [|x l IH]; intros H; [reflexivity|].
  rewrite filter_cons_True by (rewrite H; [exact Logic.I | by left]).
  f_equal. apply IH. intros y Hy. apply H. by right.
Qed.

Lemma plainCell_unmerged props rc : mergedCells props = [] -> plainCell props rc = true.
Proof.
  intros Hnone. unfold plainCell.
  destruct (isMergedCell props _) eqn:E; [|reflexivity].
  apply isMergedCell_true in E as [b Hb].
  apply mergedCellMap_entry_listed in Hb as [Hin _].
  rewrite Hnone in Hin. inversion Hin.
Qed.

(** X13. Every cell a walk of the render pass reaches that is not part of
    a merged region is handed to [itemRenderer] exactly once, at its own
    coordinates and in the order of the walk, in the array of its pane;
    the only other calls of the walks are for merged regions.  In a grid
    without merged regions the four arrays are therefore exactly the four
    walks. *)
Theorem renderPass_draws_walked_cells
    (hs : Helpers) (props : GridProps) (g : GridState) :
  let vp := viewport (fst (renderEnv hs props g)) in
  let o := fst (renderPass hs props g) in
  (map drawnCell (filter plainCall (cells o))
   = filter (plainCell props) (mainWalk props vp)
   /\ map drawnCell (filter plainCall (frozenRowCells o))
      = filter (plainCell props) (frozenRowWalk props vp)
   /\ map drawnCell (filter plainCall (frozenColumnCells o))
      = filter (plainCell props) (frozenColumnWalk props vp)
   /\ map drawnCell (filter plainCall (frozenIntersectionCells o))
      = filter (plainCell props) (frozenIntersectionWalk props vp))
  /\ (forall p, p ∈ cellCalls o -> plainCall p = false ->
        isMergedCell props {| rowIndex := r_rowIndex p;
                              columnIndex := r_columnIndex p |} = true)
  /\ (mergedCells props = [] ->
      map drawnCell (cells o) = mainWalk props vp
      /\ map drawnCell (frozenRowCells o) = frozenRowWalk props vp
      /\ map drawnCell (frozenColumnCells o) = frozenColumnWalk props vp
      /\ map drawnCell (frozenIntersectionCells o)
         = frozenIntersectionWalk props vp).
Proof.
  intros vp o.
  pose proof (renderPass_plain hs props g) as Hplain.
  fold vp in Hplain. fold o in Hplain.
  assert (Hmerged : forall p, p ∈ cellCalls o -> plainCall p = false ->
            isMergedCell props {| rowIndex := r_rowIndex p;
                                  columnIndex := r_columnIndex p |} = true).
  { intros p Hp Hm.
    destruct (renderPass_cellCalls hs props g p Hp) as [_ H].
    specialize (H Hm). unfold plainCell, drawnCell in H. simpl in H.
    by destruct (isMergedCell props _). }
  split; [exact Hplain|]. split; [exact Hmerged|].
  intros Hnone.
  assert (Hall : forall p, p ∈ cellCalls o -> plainCall p = true).
  { intros p Hp. destruct (plainCall p) eqn:E; [reflexivity|].
    specialize (Hmerged p Hp E).
    pose proof (plainCell_unmerged props (drawnCell p) Hnone) as H.
    unfold plainCell, drawnCell in H. simpl in H. rewrite Hmerged in H.
    discriminate. }
  destruct Hplain as (P1 & P2 & P3 & P4).
  rewrite !(filter_all (plainCell props)) in P1, P2, P3, P4
    by (intros; by apply plainCell_unmerged).
  unfold cellCalls in Hall.
  rewrite filter_all in P1
    by (intros; apply Hall; rewrite !elem_of_app; auto).
  rewrite filter_all in P2
    by (intros; apply Hall; rewrite !elem_of_app; auto).
  rewrite filter_all in P3
    by (intros; apply Hall; rewrite !elem_of_app; auto).
  rewrite filter_all in P4
    by (intros; apply Hall; rewrite !elem_of_app; auto).
  auto.
Qed.

(** X14. Where the cells that are not merged are drawn.  The main pane
    draws the cells of the rendered window outside the frozen rows and
    columns; a frozen row is drawn, in the frozen-row pane or in the
    frozen intersection, only when it lies strictly before
    [rowStopIndex], and a frozen column only when it lies strictly before
    [columnStopIndex]; hidden rows are drawn nowhere.  So a cell of a
    frozen row that is not before [rowStopIndex] is drawn in no pane. *)
Theorem renderPass_panes
    (hs : Helpers) (props : GridProps) (g : GridState) (r c : Z) :
  let vp := viewport (fst (renderEnv hs props g)) in
  let o := fst (renderPass hs props g) in
  let plain := plainCell props (r, c) = true in
  let drawnIn calls := (r, c) ∈ map drawnCell (filter plainCall calls) in
  (drawnIn (cells o)
   <-> plain /\ 0 < columnCount props /\ rowCount props <> 0
       /\ rowStartIndex vp <= r <= rowStopIndex vp
       /\ frozenRows props <= r /\ hiddenRow props r = false
       /\ columnStartIndex vp <= c <= columnStopIndex vp
       /\ frozenColumns props <= c)
  /\ (drawnIn (frozenRowCells o)
      <-> plain /\ 0 <= r < frozenRows props /\ r < rowStopIndex vp
          /\ hiddenRow props r = false
          /\ columnStartIndex vp <= c <= columnStopIndex vp
          /\ frozenColumns props <= c)
  /\ (drawnIn (frozenColumnCells o)
      <-> plain /\ rowStartIndex vp <= r <= rowStopIndex vp
          /\ frozenRows props <= r /\ hiddenRow props r = false
          /\ 0 <= c < frozenColumns props /\ c < columnStopIndex vp)
  /\ (drawnIn (frozenIntersectionCells o)
      <-> plain /\ 0 <= r < frozenRows props /\ r < rowStopIndex vp
          /\ hiddenRow props r = false
          /\ 0 <= c < frozenColumns props /\ c < columnStopIndex vp)
  /\ (rowStopIndex vp <= r < frozenRows props
      \/ columnStopIndex vp <= c < frozenColumns props
      \/ hiddenRow props r = true ->
      ~ drawnIn (cellCalls o)).
Proof.
  intros vp o plain drawnIn. subst drawnIn plain. cbv beta.
  destruct (renderPass_plain hs props g) as (P1 & P2 & P3 & P4).
  fold vp in P1, P2, P3, P4. fold o in P1, P2, P3, P4.
  unfold cellCalls. rewrite !filter_app, !map_app, !elem_of_app.
  rewrite P1, P2, P3, P4, !list_elem_of_filter.
  rewrite elem_of_mainWalk, elem_of_frozenRowWalk, elem_of_frozenColumnWalk,
    elem_of_frozenIntersectionWalk.
  destruct (plainCell props (r, c)); simpl;
    repeat match goal with |- _ /\ _ => split end;
    try (intros [H|[H|H]]; rewrite ?H);
    intuition (try lia; try discriminate; try congruence).
Qed.

Section Ranges.
Context (hs : Helpers) (props : GridProps).

Lemma renderRanges_drawn (areas : list CellRangeArea) : forall g,
  let out := fst (renderRanges hs props areas g) in
  map drawnCell out = map areaCell (filter (extendable props) areas)
  /\ (forall p, p ∈ out ->
        r_isMergedCell p = None
        /\ r_key p = RangeKey (r_rowIndex p) (r_columnIndex p)).
Proof.
  induction areas as [|a areas IH]; intros g; cbv zeta.
  - simpl. split; [reflexivity|]. intros p H. inversion H.
  - cbn [renderRanges].
    destruct (_ || _) eqn:E.
    + rewrite (filter_cons_False (extendable props))
        by (unfold extendable; rewrite E; exact id).
      apply IH.
    + rewrite (filter_cons_True (extendable props))
        by (unfold extendable; rewrite E; exact Logic.I).
      unfold getCellOffsetFromCoords. unfold_monad. simpl. split_calls.
      match goal with
      | E' : renderRanges hs props areas ?g' = _ |- _ =>
          specialize (IH g'); rewrite E' in IH
      end.
      cbv zeta in IH. simpl in IH. destruct IH as [Hmap Hall]. simpl.
      split; [unfold drawnCell at 1, areaCell at 1; simpl; by rewrite Hmap|].
      intros p Hp. apply elem_of_cons in Hp as [->|Hp]; [auto|by apply Hall].
Qed.

End Ranges.

(** X15. The extended ranges of a pass are one call for each entry of
    [cellAreas] that starts outside the frozen rows and columns at a cell
    that is not merged, in the order of [cellAreas]; the rendered window
    and hidden rows play no part; the calls carry no merged flag and a
    key of their own. *)
Theorem renderPass_ranges_extendable
    (hs : Helpers) (props : GridProps) (g : GridState) :
  let o := fst (renderPass hs props g) in
  map drawnCell (ranges o)
  = map areaCell (filter (extendable props) (cellAreas props))
  /\ (forall p, p ∈ ranges o ->
        r_isMergedCell p = None
        /\ r_key p = RangeKey (r_rowIndex p) (r_columnIndex p)
        /\ frozenRows props <= r_rowIndex p
        /\ frozenColumns props <= r_columnIndex p
        /\ isMergedCell props {| rowIndex := r_rowIndex p;
                                 columnIndex := r_columnIndex p |} = false).
Proof.
  intros o.
  destruct (renderPass_pieces hs props g)
    as (g0 & g1 & g2 & g3 & g4 & s1 & s2 & s3 & _ & _ & _ & Ho).
  subst o. rewrite Ho. simpl.
  destruct (renderRanges_drawn hs props (cellAreas props) g1) as [Hmap Hall].
  split; [exact Hmap|].
  intros p Hp. destruct (Hall p Hp) as [Hm Hk].
  split; [exact Hm|]. split; [exact Hk|].
  assert (Hin : drawnCell p
                ∈ map areaCell (filter (extendable props) (cellAreas props))).
  { rewrite <- Hmap. apply list_elem_of_fmap. eauto. }
  apply list_elem_of_fmap in Hin as (a & Ha & Hin).
  apply list_elem_of_filter in Hin as [Hext _].
  unfold drawnCell, areaCell in Ha. inversion Ha as [[Hr Hc]].
  unfold extendable in Hext. rewrite <- Hr, <- Hc in Hext.
  destruct (Z.ltb_spec (r_rowIndex p) (frozenRows props)),
    (Z.ltb_spec (r_columnIndex p) (frozenColumns props)),
    (isMergedCell props _); simpl in Hext; done.
Qed.

(** ** Selection overlays *)

Section Selections.
Context (hs : Helpers) (props : GridProps) (vp : ViewPortProps)
        (selectionStrokeWidth : Z).

Lemma renderSelection_step (count : nat) (out : SelectionOutput) (i : nat)
    (selection : SelectionArea) (g : GridState) :
  let out' :=
    fst (renderSelection hs props vp selectionStrokeWidth count out i
           selection g) in
  activeCellSlots out' = activeCellSlots out
  /\ (exists p,
        selectionAreas out' = selectionAreas out ++ [p]
        /\ s_key p = Some i
        /\ fillHandleDimension out'
           = if Nat.eqb (S i) count then Some (corner p)
             else fillHandleDimension out)
  /\ map s_key (selectionAreasFrozenColumns out')
     = map s_key (selectionAreasFrozenColumns out)
       ++ (if leftFrozen props selection then [Some i] else [])
  /\ map s_key (selectionAreasFrozenRows out')
     = map s_key (selectionAreasFrozenRows out)
       ++ (if topFrozen props selection then [Some i] else [])
  /\ map s_key (selectionAreasIntersection out')
     = map s_key (selectionAreasIntersection out)
       ++ (if topFrozen props selection && leftFrozen props selection
           then [Some i] else [])
  /\ isSelectionInProgress out'
     = sel_inProgress selection || isSelectionInProgress out.
Proof.
  unfold renderSelection, clippedRectangle, frozenColumnExtent,
    frozenRowExtent, leftFrozen, topFrozen, activeCellSlots.
  destruct (Area.left (sel_bounds selection) <? frozenColumns props),
    (Area.top (sel_bounds selection) <? frozenRows props);
    unfold_monad; simpl; split_calls; simpl;
    rewrite ?map_app; simpl;
    (split; [reflexivity|]); (split; [eexists; split; [reflexivity|];
                                      split; reflexivity|]);
    repeat split; try reflexivity;
    by destruct (sel_inProgress selection).
Qed.

Lemma renderSelectionsFrom_spec (selections : list SelectionArea) :
  forall (count i : nat) (out : SelectionOutput) (g : GridState),
  count = (i + length selections)%nat ->
  let out' :=
    fst (renderSelectionsFrom hs props vp selectionStrokeWidth count i
           selections out g) in
  activeCellSlots out' = activeCellSlots out
  /\ map s_key (selectionAreas out')
     = map s_key (selectionAreas out)
       ++ map Some (seq i (length selections))
  /\ map s_key (selectionAreasFrozenColumns out')
     = map s_key (selectionAreasFrozenColumns out)
       ++ keysWhere (leftFrozen props) i selections
  /\ map s_key (selectionAreasFrozenRows out')
     = map s_key (selectionAreasFrozenRows out)
       ++ keysWhere (topFrozen props) i selections
  /\ map s_key (selectionAreasIntersection out')
     = map s_key (selectionAreasIntersection out)
       ++ keysWhere (fun s => topFrozen props s && leftFrozen props s)
            i selections
  /\ isSelectionInProgress out'
     = existsb sel_inProgress selections || isSelectionInProgress out
  /\ fillHandleDimension out'
     = match selections with
       | [] => fillHandleDimension out
       | _ :: _ => corner <$> last (selectionAreas out')
       end.
Proof.
  induction selections as [|s rest IH]; intros count i out g Hcount.
  - simpl. rewrite !app_nil_r. auto 10.
  - cbv zeta. cbn [renderSelectionsFrom]. unfold bind.
    pose proof (renderSelection_step count out i s g) as Hstep.
    cbv zeta in Hstep.
    destruct (renderSelection hs props vp selectionStrokeWidth count out i s g)
      as [out1 g1]. simpl fst in Hstep.
    destruct Hstep as (Hact & (p & Hareas & Hkey & Hfill) & Hc & Hr & Hi & Hp).
    specialize (IH count (S i) out1 g1). cbv zeta in IH.
    destruct IH as (Hact' & Hareas' & Hc' & Hr' & Hi' & Hp' & Hfill');
      [simpl in Hcount; lia|].
    rewrite Hact', Hact, Hareas', Hc', Hr', Hi', Hp', Hareas, Hc, Hr, Hi, Hp.
    cbn [keysWhere length seq map existsb].
    rewrite map_app, <- !app_assoc. simpl. rewrite Hkey.
    repeat match goal with |- _ /\ _ => split end; try reflexivity.
    + by rewrite orb_assoc, (orb_comm (existsb _ _)).
    + rewrite Hfill'. destruct rest as [|s' rest']; [|reflexivity].
      simpl. rewrite Hfill, Hareas, last_snoc.
      simpl in Hcount. replace (S i =? count)%nat with true; [reflexivity|].
      symmetry. apply Nat.eqb_eq. lia.
Qed.

Lemma renderActiveCell_slots (activeCell : option CellInterface)
    (g : GridState) :
  let out := fst (renderActiveCell hs props vp activeCell g) in
  selectionAreas out = [] /\ selectionAreasFrozenColumns out = []
  /\ selectionAreasFrozenRows out = [] /\ selectionAreasIntersection out = []
  /\ isSelectionInProgress out = false
  /\ match activeCell with
     | None => activeCellSlots out = [None; None; None; None]
               /\ fillHandleDimension out = None
     | Some cell =>
         let b := getCellBounds props cell in
         exists p,
           fillHandleDimension out = Some (corner p)
           /\ activeCellSlots out
              = if Area.top b <? frozenRows props
                then if Area.left b <? frozenColumns props
                     then [None; None; None; Some p]
                     else [None; None; Some p; None]
                else if Area.left b <? frozenColumns props
                     then [None; Some p; None; None]
                     else [Some p; None; None; None]
     end.
Proof.
  unfold renderActiveCell, clippedRectangle, activeCellSlots.
  destruct activeCell as [cell|]; [|simpl; auto 10].
  unfold_monad. simpl. split_calls. simpl.
  repeat match goal with |- _ /\ _ => split end; try reflexivity.
  eexists {| s_key := None; s_x := _; s_y := _; s_width := _; s_height := _;
             s_strokeRightWidth := None; s_strokeBottomWidth := None |}.
  split; [unfold corner; simpl; reflexivity|].
  destruct (Area.top _ <? _), (Area.left _ <? _); reflexivity.
Qed.

End Selections.

(** X16. The active cell is drawn in exactly one pane, chosen by the
    top-left corner of the region [getCellBounds] gives for it (so a cell
    of a merged region that starts in the frozen panes is drawn there):
    the frozen intersection when both bounds are frozen, else the frozen
    rows, else the frozen columns, else the main pane.  Without an active
    cell nothing is drawn, and the loop over the selections leaves the
    four places as they are. *)
Theorem activeCell_drawn_in_one_pane
    (hs : Helpers) (props : GridProps) (vp : ViewPortProps)
    (selectionStrokeWidth : Z) (activeCell : option CellInterface)
    (selections : list SelectionArea) (g : GridState) :
  let out :=
    fst (renderSelections hs props vp selectionStrokeWidth activeCell
           selections g) in
  match activeCell with
  | None => activeCellSlots out = [None; None; None; None]
  | Some cell =>
      let b := getCellBounds props cell in
      length (omap id (activeCellSlots out)) = 1%nat
      /\ exists p,
           activeCellSlots out
           = if Area.top b <? frozenRows props
             then if Area.left b <? frozenColumns props
                  then [None; None; None; Some p]
                  else [None; None; Some p; None]
             else if Area.left b <? frozenColumns props
                  then [None; Some p; None; None]
                  else [Some p; None; None; None]
  end.
Proof.
  intros out. subst out. unfold renderSelections, bind.
  pose proof (renderActiveCell_slots hs props vp activeCell g) as Hact.
  cbv zeta in Hact.
  destruct (renderActiveCell hs props vp activeCell g) as [out0 g0].
  simpl fst in Hact. destruct Hact as (_ & _ & _ & _ & _ & Hact).
  destruct (renderSelectionsFrom_spec hs props vp selectionStrokeWidth
              selections (length selections) 0 out0 g0 eq_refl)
    as (Hslots & _).
  rewrite Hslots. destruct activeCell as [cell|]; [|by destruct Hact].
  destruct Hact as (p & _ & Hp). rewrite Hp.
  split; [|by exists p].
  destruct (Area.top _ <? _), (Area.left _ <? _); reflexivity.
Qed.

Lemma keysWhere_fresh (P : SelectionArea -> bool)
    (selections : list SelectionArea) : forall i j : nat,
  (i < j)%nat -> Some i ∉ keysWhere P j selections.
Proof.
  induction selections as [|s rest IH]; intros i j Hlt; simpl.
  - apply not_elem_of_nil.
  - rewrite elem_of_app. intros [H|H].
    + destruct (P s); [|inversion H].
      apply list_elem_of_singleton in H. inversion H. lia.
    + eapply (IH i (S j)); [lia | exact H].
Qed.

Lemma keysWhere_both (P Q : SelectionArea -> bool)
    (selections : list SelectionArea) : forall (i : nat) (k : option nat),
  k ∈ keysWhere (fun s => P s && Q s) i selections
  <-> k ∈ keysWhere Q i selections /\ k ∈ keysWhere P i selections.
Proof.
  induction selections as [|s rest IH]; intros i k; simpl.
  - rewrite elem_of_nil. tauto.
  - rewrite !elem_of_app, IH.
    pose proof (keysWhere_fresh P rest i (S i)) as HP.
    pose proof (keysWhere_fresh Q rest i (S i)) as HQ.
    destruct (P s), (Q s); simpl;
      rewrite ?elem_of_nil, ?list_elem_of_singleton;
      split; intros H;
      repeat match goal with
             | H : _ \/ _ |- _ => destruct H
             | H : _ /\ _ |- _ => destruct H
             | H : False |- _ => destruct H
             end;
      subst; auto;
      solve [ exfalso; eapply HP; [lia | eassumption]
            | exfalso; eapply HQ; [lia | eassumption] ].
Qed.

(** X17. Every selection is drawn in the main list, keyed by its position
    in [selections]; it is drawn again in the frozen-column list exactly
    when its left bound is a frozen column, in the frozen-row list exactly
    when its top bound is a frozen row, and in the intersection list
    exactly when it is in both; and a selection is reported in progress
    exactly when one of the selections is. *)
Theorem selections_drawn_per_pane
    (hs : Helpers) (props : GridProps) (vp : ViewPortProps)
    (selectionStrokeWidth : Z) (activeCell : option CellInterface)
    (selections : list SelectionArea) (g : GridState) :
  let out :=
    fst (renderSelections hs props vp selectionStrokeWidth activeCell
           selections g) in
  map s_key (selectionAreas out) = map Some (seq 0 (length selections))
  /\ map s_key (selectionAreasFrozenColumns out)
     = keysWhere (leftFrozen props) 0 selections
  /\ map s_key (selectionAreasFrozenRows out)
     = keysWhere (topFrozen props) 0 selections
  /\ map s_key (selectionAreasIntersection out)
     = keysWhere (fun s => topFrozen props s && leftFrozen props s)
         0 selections
  /\ (forall k, k ∈ map s_key (selectionAreasIntersection out)
        <-> k ∈ map s_key (selectionAreasFrozenColumns out)
            /\ k ∈ map s_key (selectionAreasFrozenRows out))
  /\ (isSelectionInProgress out = true
      <-> exists s, s ∈ selections /\ sel_inProgress s = true).
Proof.
  intros out. subst out. unfold renderSelections, bind.
  pose proof (renderActiveCell_slots hs props vp activeCell g) as Hact.
  cbv zeta in Hact.
  destruct (renderActiveCell hs props vp activeCell g) as [out0 g0].
  simpl fst in Hact. destruct Hact as (Ha & Hc & Hr & Hi & Hp & _).
  destruct (renderSelectionsFrom_spec hs props vp selectionStrokeWidth
              selections (length selections) 0 out0 g0 eq_refl)
    as (_ & Ha' & Hc' & Hr' & Hi' & Hp' & _).
  rewrite Ha' , Hc', Hr', Hi', Hp', Ha, Hc, Hr, Hi, Hp. simpl.
  rewrite orb_false_r.
  repeat match goal with |- _ /\ _ => split end; try reflexivity.
  - intros k. apply keysWhere_both.
  - rewrite existsb_exists. split; intros (s & Hin & Hs); exists s;
      (split; [by apply list_elem_of_In | exact Hs]).
Qed.

(** X18. The fill handle is hidden when [showFillHandle] is off or some
    selection is in progress, and shown otherwise.  When there are
    selections it sits at the bottom-right corner of the last one, as
    drawn; without selections it sits at the bottom-right corner of the
    active cell, as drawn; with neither it has no position. *)
Theorem fillHandle_position
    (hs : Helpers) (props : GridProps) (vp : ViewPortProps)
    (selectionStrokeWidth : Z) (showFillHandle : bool)
    (activeCell : option CellInterface)
    (selections : list SelectionArea) (g : GridState) :
  let out :=
    fst (renderSelections hs props vp selectionStrokeWidth activeCell
           selections g) in
  (fillHandle showFillHandle out = None
   <-> showFillHandle = false
       \/ exists s, s ∈ selections /\ sel_inProgress s = true)
  /\ (fillHandle showFillHandle out <> None ->
      fillHandle showFillHandle out = Some (fillHandleDimension out))
  /\ match selections, activeCell with
     | _ :: _, _ =>
         fillHandleDimension out = corner <$> last (selectionAreas out)
     | [], Some _ =>
         exists p, Some p ∈ activeCellSlots out
                   /\ fillHandleDimension out = Some (corner p)
     | [], None => fillHandleDimension out = None
     end.
Proof.
  intros out. subst out. unfold renderSelections, bind.
  pose proof (renderActiveCell_slots hs props vp activeCell g) as Hact.
  cbv zeta in Hact.
  destruct (renderActiveCell hs props vp activeCell g) as [out0 g0].
  simpl fst in Hact. destruct Hact as (_ & _ & _ & _ & Hp & Hact).
  destruct (renderSelectionsFrom_spec hs props vp selectionStrokeWidth
              selections (length selections) 0 out0 g0 eq_refl)
    as (Hslots & _ & _ & _ & _ & Hp' & Hfill).
  set (out := fst (renderSelectionsFrom hs props vp selectionStrokeWidth
                     (length selections) 0 selections out0 g0)) in *.
  rewrite Hp, orb_false_r in Hp'.
  split; [|split].
  - unfold fillHandle. rewrite Hp'.
    destruct showFillHandle; simpl.
    + destruct (existsb sel_inProgress selections) eqn:E; simpl.
      * split; [intros _; right|reflexivity].
        apply existsb_exists in E as (s & Hin & Hs).
        exists s. split; [by apply list_elem_of_In | exact Hs].
      * split; [discriminate|]. intros [H|(s & Hin & Hs)]; [discriminate|].
        assert (existsb sel_inProgress selections = true); [|congruence].
        apply existsb_exists. exists s.
        split; [by apply list_elem_of_In | exact Hs].
    + split; [auto | reflexivity].
  - unfold fillHandle. destruct (_ && _); [reflexivity | congruence].
  - destruct selections as [|s rest]; [|exact Hfill].
    rewrite Hfill, Hslots. destruct activeCell as [cell|]; [|by destruct Hact].
    destruct Hact as (p & Hd & Hs). exists p. split; [|exact Hd].
    rewrite Hs.
    destruct (Area.top _ <? _), (Area.left _ <? _);
      rewrite !elem_of_cons; auto.
Qed.

(** X19. Rendering writes nothing but the size cache: a pass over the
    cells, the drawing of the active cell and the selections, and both
    directions of hit testing leave the scroll position, the scrolling
    flag, the scroll refs, the pending animation frames, the timers and
    the render tick as they were. *)
Theorem rendering_only_fills_cache
    (hs : Helpers) (props : GridProps) (dom : Dom) (env : RenderEnv)
    (selectionStrokeWidth : Z) (activeCell : option CellInterface)
    (selections : list SelectionArea) (cell : CellInterface) (left top : Z)
    (g g' : GridState) :
  g' = snd (renderPass hs props g)
  \/ g' = snd (renderSelections hs props (viewport env) selectionStrokeWidth
                 activeCell selections g)
  \/ g' = snd (getCellOffsetFromCoords hs props cell g)
  \/ g' = snd (getCellCoordsFromOffset hs props dom env left top g) ->
  scrollState g' = scrollState g
  /\ verticalScrollRef g' = verticalScrollRef g
  /\ horizontalScrollRef g' = horizontalScrollRef g
  /\ animationFrames g' = animationFrames g
  /\ resetIsScrollingTimeoutID g' = resetIsScrollingTimeoutID g
  /\ timers g' = timers g /\ now g' = now g
  /\ renderTick g' = renderTick g.
Proof.
  intros H.
  assert (Hsame : sameButInstance g g').
  { destruct H as [-> | [-> | [-> | ->]]].
    - apply renderPass_cacheOnly.
    - apply renderSelections_cacheOnly.
    - apply getCellOffsetFromCoords_cacheOnly.
    - apply getCellCoordsFromOffset_cacheOnly. }
  destruct (sameButInstance_fields g g' Hsame) as (?&?&?&?&?&?&?).
  repeat match goal with |- _ /\ _ => split end; try assumption.
  unfold sameButInstance in Hsame. rewrite Hsame. reflexivity.
Qed.

(** ** Scroll events and the position read back *)

Lemma handleScroll_scrollState v g :
  scrollState (snd (handleScroll v g))
  = {| scrollTop := v;
       scrollLeft := scrollLeft (scrollState g);
       isScrolling := true;
       verticalScrollDirection :=
         if scrollTop (scrollState g) >? v then Direction.Up
         else Direction.Down;
       horizontalScrollDirection :=
         horizontalScrollDirection (scrollState g) |}.
Proof.
  unfold handleScroll, resetIsScrollingDebounced, cancelTimeout,
    requestTimeout. unfold_monad. simpl.
  destruct (resetIsScrollingTimeoutID g); reflexivity.
Qed.

Lemma handleScrollLeft_scrollState h g :
  scrollState (snd (handleScrollLeft h g))
  = {| scrollTop := scrollTop (scrollState g);
       scrollLeft := h;
       isScrolling := true;
       verticalScrollDirection := verticalScrollDirection (scrollState g);
       horizontalScrollDirection :=
         if scrollLeft (scrollState g) >? h then Direction.Left
         else Direction.Right |}.
Proof.
  unfold handleScrollLeft, resetIsScrollingDebounced, cancelTimeout,
    requestTimeout. unfold_monad. simpl.
  destruct (resetIsScrollingTimeoutID g); reflexivity.
Qed.

(** X20. What [getScrollPosition] reads back.  A vertical and a
    horizontal scroll event leave the two positions they carry, in either
    order; each records its direction against the previous position, up
    or left only for a strictly smaller one, so an event that repeats the
    current position counts as down or right.  After [scrollTo] the
    position read back is the one asked for when there are no scrollbars
    ([0, 0] after [scrollToTop]); with scrollbars it is still the old
    one, until the scroll event of the scrollbar arrives. *)
Theorem getScrollPosition_reads_last_event
    (props : GridProps) (coords : OptionalScrollCoords) (v h : Z)
    (g : GridState) :
  let g1 := snd (handleScroll v g) in
  let g2 := snd (handleScrollLeft h g1) in
  fst (getScrollPosition g2)
  = {| opt_scrollTop := Some v; opt_scrollLeft := Some h |}
  /\ scrollState (snd (handleScroll v (snd (handleScrollLeft h g))))
     = scrollState g2
  /\ verticalScrollDirection (scrollState g2)
     = (if scrollTop (scrollState g) >? v then Direction.Up
        else Direction.Down)
  /\ horizontalScrollDirection (scrollState g2)
     = (if scrollLeft (scrollState g) >? h then Direction.Left
        else Direction.Right)
  /\ verticalScrollDirection (scrollState (snd (handleScroll v g1)))
     = Direction.Down
  /\ horizontalScrollDirection (scrollState (snd (handleScrollLeft h g2)))
     = Direction.Right
  /\ (showScrollbar props = false ->
      fst (getScrollPosition (snd (scrollTo props coords g)))
      = {| opt_scrollTop :=
             Some (default (scrollTop (scrollState g))
                           (opt_scrollTop coords));
           opt_scrollLeft :=
             Some (default (scrollLeft (scrollState g))
                           (opt_scrollLeft coords)) |}
      /\ fst (getScrollPosition (snd (scrollToTop props g)))
         = {| opt_scrollTop := Some 0; opt_scrollLeft := Some 0 |})
  /\ (showScrollbar props = true ->
      fst (getScrollPosition (snd (scrollTo props coords g)))
      = fst (getScrollPosition g)).
Proof.
  intros g1 g2. subst g1 g2. unfold getScrollPosition. unfold_monad.
  simpl fst.
  rewrite !handleScroll_scrollState, !handleScrollLeft_scrollState,
    !handleScroll_scrollState. simpl.
  rewrite !Z.gtb_ltb, !Z.ltb_irrefl.
  repeat match goal with |- _ /\ _ => split end; try reflexivity.
  - intros Hbar. unfold scrollToTop, scrollTo. rewrite Hbar.
    split; reflexivity.
  - intros Hbar. unfold scrollTo. rewrite Hbar. unfold_monad.
    destruct g as [ip st [vref|] [href|] tid tick frames clock ts next],
      coords as [[t|] [l|]]; reflexivity.
Qed.

(** ** Hit testing in the frozen panes and over merged regions *)

Lemma getCellBounds_actual props c :
  nonOverlapping (mergedCells props) ->
  getCellBounds props (getActualCellCoords props c) = getCellBounds props c.
Proof.
  intros Hno. destruct (isMergedCell props c) eqn:E.
  - apply isMergedCell_true in E as [b Hb].
    rewrite (getActualCellCoords_entry props c b Hb).
    destruct (mergedCellMap_entry_listed props c b Hb) as [Hin Hc].
    destruct c as [r c]. simpl in Hb.
    destruct (getCellBounds_entry props r c b Hb) as [_ ->].
    apply (getCellBounds_entry props (Area.top b) (Area.left b) b).
    apply (mergedCellMap_member props (anchor b) b Hno Hin).
    by eapply contains_anchor.
  - by rewrite (getActualCellCoords_unmerged props c E).
Qed.

(** X21. A point inside the frozen rows hits the same cell whatever the
    vertical scroll position, and a point inside the frozen columns the
    same cell whatever the horizontal one: the scroll offset is added only
    outside the frozen boundary. *)
Theorem getCellCoordsFromOffset_frozen_ignores_scroll
    (hs : Helpers) (props : GridProps) (dom : Dom) (env : RenderEnv)
    (left top x y : Z) (st : ScrollState) (g : GridState) :
  getRelativePositionFromOffset dom left top = Some (x, y) ->
  isWithinFrozenRowBoundary props env y = true
  \/ scrollTop st = scrollTop (scrollState g) ->
  isWithinFrozenColumnBoundary props env x = true
  \/ scrollLeft st = scrollLeft (scrollState g) ->
  fst (getCellCoordsFromOffset hs props dom env left top
         (set_scrollState st g))
  = fst (getCellCoordsFromOffset hs props dom env left top g).
Proof.
  intros Hpos Hrow Hcol. unfold getCellCoordsFromOffset. rewrite Hpos.
  unfold_monad. simpl.
  assert (Hy : (if isWithinFrozenRowBoundary props env y then y
                else y + scrollTop st)
               = (if isWithinFrozenRowBoundary props env y then y
                  else y + scrollTop (scrollState g))).
  { destruct Hrow as [-> | ->]; reflexivity. }
  assert (Hx : (if isWithinFrozenColumnBoundary props env x then x
                else x + scrollLeft st)
               = (if isWithinFrozenColumnBoundary props env x then x
                  else x + scrollLeft (scrollState g))).
  { destruct Hcol as [-> | ->]; reflexivity. }
  rewrite Hy, Hx. split_calls. reflexivity.
Qed.

(** X22. [getCellOffsetFromCoords] returns the rectangle of the region the
    cell belongs to: [x] and [y] are the offsets of the left column and of
    the top row of the region, the width is the offset of the column after
    its right column minus [x], and the height the offset of the row after
    its bottom row minus [y], the four offsets being read in this order
    through the size cache.  When the merged regions do not overlap, this
    is the rectangle of the listed region for every cell of it, its
    top-left cell included; for a cell that is not merged it is the
    rectangle of the cell itself. *)
Theorem getCellOffsetFromCoords_whole_region
    (hs : Helpers) (props : GridProps) (c : CellInterface) (g : GridState) :
  let rectangle (b : AreaProps) :=
    let '(x, ip1) :=
      getColumnOffset hs props (Area.left b) (instanceProps g) in
    let '(y, ip2) := getRowOffset hs props (Area.top b) ip1 in
    let '(afterRight, ip3) :=
      getColumnOffset hs props (Area.right b + 1) ip2 in
    let '(afterBottom, ip4) :=
      getRowOffset hs props (Area.bottom b + 1) ip3 in
    ((x, y, afterRight - x, afterBottom - y), set_instanceProps ip4 g) in
  (forall b : AreaProps,
     nonOverlapping (mergedCells props) ->
     b ∈ mergedCells props -> contains b c ->
     getCellOffsetFromCoords hs props c g = rectangle b
     /\ getCellOffsetFromCoords hs props (anchor b) g = rectangle b
     /\ getCellOffsetFromCoords hs props (getActualCellCoords props c) g
        = rectangle b)
  /\ (isMergedCell props c = false ->
      getCellOffsetFromCoords hs props c g
      = rectangle (Area.mk (rowIndex c) (rowIndex c)
                           (columnIndex c) (columnIndex c))).
Proof.
  intros rectangle.
  assert (Hbounds : forall c' b,
            getCellBounds props c' = b ->
            getCellOffsetFromCoords hs props c' g = rectangle b).
  { intros c' b <-. subst rectangle. unfold getCellOffsetFromCoords.
    unfold_monad. simpl. split_calls. reflexivity. }
  split.
  - intros b Hno Hin Hc.
    assert (Hcell : getCellBounds props c = b).
    { destruct c as [r c].
      apply (getCellBounds_entry props r c b).
      apply (mergedCellMap_member props _ b Hno Hin Hc). }
    assert (Hanchor : getCellBounds props (anchor b) = b).
    { apply (getCellBounds_entry props (Area.top b) (Area.left b) b).
      apply (mergedCellMap_member props (anchor b) b Hno Hin).
      by eapply contains_anchor. }
    split; [by apply Hbounds|]. split; [by apply Hbounds|].
    apply Hbounds. by rewrite (getCellBounds_actual props c Hno).
  - intros Hm. apply Hbounds. unfold getCellBounds. rewrite Hm. reflexivity.
Qed.

(** ** The properties on concrete grids *)

Lemma getCellBounds_last_region_wins_witness :
  let c := {| rowIndex := 1; columnIndex := 1 |} in
  let c' := {| rowIndex := 2; columnIndex := 2 |} in
  getCellBounds overlappingGrid c = Area.mk 0 1 0 1
  /\ getCellBounds overlappingGrid c' = Area.mk 1 2 1 2.
Proof.
  split.
  - apply (getCellBounds_last_region_wins overlappingGrid
             [Area.mk 1 2 1 2] [] (Area.mk 0 1 0 1)).
    + reflexivity.
    + unfold contains. simpl. lia.
    + intros region H. inversion H.
  - apply (getCellBounds_last_region_wins overlappingGrid
             [] [Area.mk 0 1 0 1] (Area.mk 1 2 1 2)).
    + reflexivity.
    + unfold contains. simpl. lia.
    + intros region H. apply list_elem_of_singleton in H. subst region.
      unfold contains. simpl. lia.
Defined.


Lemma debounce_clears_once_per_gap_witness :
  (settled initialState /\ now initialState <= 0
   /\ orderedAfter 0 pausedScroll)
  /\ fst (deliverAll (VerticalScroll 0 10 :: pausedScroll) initialState)
     = [250].
Proof.
  assert (Hs : settled initialState) by (split; reflexivity).
  assert (Hn : now initialState <= eventTime (VerticalScroll 0 10))
    by (simpl; lia).
  assert (Ho : orderedAfter (eventTime (VerticalScroll 0 10)) pausedScroll)
    by (simpl; lia).
  split; [auto|].
  destruct (debounce_clears_once_per_gap (VerticalScroll 0 10) pausedScroll
              initialState Hs Hn Ho) as (Hclears & _).
  exact Hclears.
Defined.

Lemma rendering_only_fills_cache_witness :
  let g := scrolledState in
  let env := fst (renderEnv SpecHelpers.helpers mergedGrid g) in
  let g' := snd (renderPass SpecHelpers.helpers mergedGrid g) in
  scrollState g' = scrollState g /\ timers g' = timers g.
Proof.
  intros g env g'.
  destruct (rendering_only_fills_cache SpecHelpers.helpers mergedGrid
              plainDom env 1 None [] {| rowIndex := 0; columnIndex := 0 |}
              0 0 g g') as (H1 & _ & _ & _ & _ & H2 & _).
  - left. reflexivity.
  - split; [exact H1 | exact H2].
Defined.

Lemma renderPass_panes_witness :
  let hs := SpecHelpers.helpers in
  let o := fst (renderPass hs allFrozenGrid initialState) in
  rowStopIndex (viewport (fst (renderEnv hs allFrozenGrid initialState))) = 1
  /\ (0, 0) ∈ map drawnCell (filter plainCall (frozenRowCells o))
  /\ (1, 0) ∉ map drawnCell (filter plainCall (cellCalls o)).
Proof.
  intros hs o.
  assert (Hstop :
    rowStopIndex (viewport (fst (renderEnv hs allFrozenGrid initialState)))
    = 1) by (vm_compute; reflexivity).
  assert (Hcol :
    columnStartIndex (viewport (fst (renderEnv hs allFrozenGrid initialState)))
    = 0
    /\ columnStopIndex
         (viewport (fst (renderEnv hs allFrozenGrid initialState))) = 2)
    by (vm_compute; split; reflexivity).
  destruct Hcol as [Hstart Hend].
  split; [exact Hstop|].
  destruct (renderPass_panes hs allFrozenGrid initialState 0 0)
    as (_ & Hrow & _).
  destruct (renderPass_panes hs allFrozenGrid initialState 1 0)
    as (_ & _ & _ & _ & Hnone).
  split.
  - apply Hrow. rewrite Hstop, Hstart, Hend. simpl.
    repeat split; (reflexivity || lia).
  - apply Hnone. left. rewrite Hstop. simpl. lia.
Defined.

Lemma renderPass_draws_walked_cells_witness :
  let hs := SpecHelpers.helpers in
  map drawnCell (frozenRowCells (fst (renderPass hs allFrozenGrid initialState)))
  = [(0, 0); (0, 1); (0, 2)].
Proof.
  intros hs.
  destruct (renderPass_draws_walked_cells hs allFrozenGrid initialState)
    as (_ & _ & Hall).
  destruct (Hall eq_refl) as (_ & Hrow & _).
  rewrite Hrow. vm_compute. reflexivity.
Defined.

Lemma wheel_events_coalesce_witness :
  let hs := SpecHelpers.helpers in
  let props := defaultProps 100 50 in
  let vp := viewport (fst (renderEnv hs props initialState)) in
  let registered :=
    handleWheels hs props (fun A f => f) false vp
      [wheelDown; wheelDown; wheelDown] idleWheel initialState in
  length (wheelFrames (fst registered)) = 1%nat
  /\ verticalScrollRef
       (snd (runWheelFrames (fst registered) (snd registered)))
     = Some 3.
Proof.
  intros hs props vp registered.
  destruct (wheel_events_coalesce hs props (fun A f => f) vp wheelDown
              [wheelDown; wheelDown] idleWheel initialState) as [_ Hrun].
  destruct (Hrun 0 0 eq_refl eq_refl eq_refl eq_refl)
    as (_ & _ & Hone & _ & _ & _ & Hpainted).
  split; [exact Hone|].
  subst registered. rewrite Hpainted. reflexivity.
Defined.

Lemma getCellCoordsFromOffset_frozen_ignores_scroll_witness :
  let hs := SpecHelpers.helpers in
  let env := fst (renderEnv hs frozenGrid initialState) in
  fst (getCellCoordsFromOffset hs frozenGrid plainDom env 30 30
         (set_scrollState (scrollState scrolledState) initialState))
  = Some {| rowIndex := 1; columnIndex := 0 |}.
Proof.
  intros hs env.
  rewrite (getCellCoordsFromOffset_frozen_ignores_scroll hs frozenGrid
             plainDom env 30 30 30 30 (scrollState scrolledState)
             initialState).
  - vm_compute. reflexivity.
  - reflexivity.
  - left. vm_compute. reflexivity.
  - left. vm_compute. reflexivity.
Defined.

Lemma getCellOffsetFromCoords_whole_region_witness :
  let hs := SpecHelpers.helpers in
  nonOverlapping (mergedCells mergedGrid)
  /\ fst (getCellOffsetFromCoords hs mergedGrid
            {| rowIndex := 3; columnIndex := 2 |} initialState)
     = (0, 20, 180, 60).
Proof.
  intros hs.
  assert (Hno : nonOverlapping (mergedCells mergedGrid)).
  { apply (bool_decide_unpack _). vm_compute. exact Logic.I. }
  split; [exact Hno|].
  destruct (getCellOffsetFromCoords_whole_region hs mergedGrid
              {| rowIndex := 3; columnIndex := 2 |} initialState)
    as [Hregion _].
  destruct (Hregion (Area.mk 1 3 0 2) Hno) as (Hcell & _ & _).
  - apply (bool_decide_unpack _). vm_compute. exact Logic.I.
  - unfold contains. simpl. lia.
  - rewrite Hcell. vm_compute. reflexivity.
Defined.
